(** * DouyinCrawler: the resilient fetch layer, embedded and verified

    A shallow embedding of the credential pool ([pkg/account_pool]), the proxy
    pool ([pkg/proxy]), the signing front end ([pkg/sign]), the request client
    ([douyin/client.py]), the comment processor, the search handler and the
    concurrency gate of the crawler, followed by the theorems that settle the
    numbered claims of the specification. *)

From Stdlib Require Import ZArith QArith Qround Lia Lqa Bool.
From stdpp Require Import base option list strings pretty gmap.

Open Scope string_scope.
Open Scope Z_scope.
Open Scope list_scope.

(** ** Python values the code relies on *)

(** [needle in hay] on [str]. *)
Fixpoint contains (needle hay : string) : bool :=
  String.prefix needle hay ||
  match hay with
  | EmptyString => false
  | String _ rest => contains needle rest
  end.

(** [int(x)] on a real number truncates toward zero. *)
Definition py_int (x : Q) : Z := Z.quot (Qnum x) (Zpos (Qden x)).

(** [time.time()] is the wall clock in seconds; the helpers of
    [pkg/tools/time_util.py] read it. *)
Definition get_unix_timestamp (now : Q) : Z := py_int now.
Definition get_current_timestamp (now : Q) : Z := py_int (now * (1000 # 1)).

(** ** pkg/proxy/types.py *)

Record IpInfoModel := {
  ip : string;
  port : Z;
  user : string;
  protocol : string;
  password : string;
  expired_time_ts : Z
}.

#[global] Instance IpInfoModel_eq_dec : EqDecision IpInfoModel.
Proof. solve_decision. Defined.

Definition format_httpx_proxy (p : IpInfoModel) : string :=
  "http://" +:+ user p +:+ ":" +:+ password p +:+ "@" +:+ ip p +:+ ":" +:+ pretty (port p).

(** [return self.expired_time_ts < int(time.time())] *)
Definition is_expired (p : IpInfoModel) (now : Q) : bool :=
  expired_time_ts p <? py_int now.

(** ** Exceptions

    The exception classes the modelled code raises, catches or lets through.
    [KeyboardInterrupt] and [CancelledError] derive from [BaseException] only,
    so neither [except Exception] nor tenacity's default predicate takes
    them. *)
Inductive Exn :=
| Exception_ (msg : string)          (* raise Exception(msg) *)
| DataFetchError (msg : string)      (* douyin/exception.py *)
| ValueError (msg : string)
| ValidationError (msg : string)     (* pydantic's; a ValueError *)
| AttributeError (msg : string)
| IndexError (msg : string)
| TypeError (msg : string)
| KeyError (msg : string)
| OSError (msg : string)             (* the account workbook cannot be read *)
| TransportError (msg : string)      (* raised by the HTTP transport *)
| JsError (msg : string)             (* raised by the JavaScript runtime *)
| RetryError (last : Exn)            (* tenacity.RetryError(last_attempt) *)
| KeyboardInterrupt
| CancelledError.

Definition is_Exception (e : Exn) : bool :=
  match e with
  | KeyboardInterrupt | CancelledError => false
  | _ => true
  end.

Definition is_RetryError (e : Exn) : bool :=
  match e with RetryError _ => true | _ => false end.

Definition class_name (e : Exn) : string :=
  match e with
  | Exception_ _ => "Exception"
  | DataFetchError _ => "DataFetchError"
  | ValueError _ => "ValueError"
  | ValidationError _ => "ValidationError"
  | AttributeError _ => "AttributeError"
  | IndexError _ => "IndexError"
  | TypeError _ => "TypeError"
  | KeyError _ => "KeyError"
  | OSError _ => "OSError"
  | TransportError _ => "TransportError"
  | JsError _ => "ProgramError"
  | RetryError _ => "RetryError"
  | KeyboardInterrupt => "KeyboardInterrupt"
  | CancelledError => "CancelledError"
  end.

(** [str(e)]: the message for the plain classes; a [RetryError] prints the
    future of its last attempt, which names that exception's class and not
    its message. *)
Definition str_exn (e : Exn) : string :=
  match e with
  | Exception_ m | DataFetchError m | ValueError m | ValidationError m | AttributeError m
  | IndexError m | TypeError m | OSError m | TransportError m | JsError m => m
  | KeyError m => "'" +:+ m +:+ "'"
  | RetryError l => "RetryError[<Future state=finished raised " +:+ class_name l +:+ ">]"
  | KeyboardInterrupt | CancelledError => ""
  end.

(** ** JSON documents and dictionaries *)

Unset Elimination Schemes.
Inductive Json :=
| JNull
| JBool (b : bool)
| JInt (z : Z)
| JStr (s : string)
| JList (l : list Json)
| JDict (kv : list (string * Json)).
Set Elimination Schemes.

(** A [dict] with string keys keeps insertion order; assignment to a key
    already present replaces its value in place. *)
Section Dict.
Context {V : Type}.

Fixpoint dict_get (k : string) (d : list (string * V)) : option V :=
  match d with
  | [] => None
  | (k', v) :: d' => if String.eqb k k' then Some v else dict_get k d'
  end.

Fixpoint dict_set (k : string) (v : V) (d : list (string * V)) : list (string * V) :=
  match d with
  | [] => [(k, v)]
  | (k', v') :: d' =>
      if String.eqb k k' then (k, v) :: d' else (k', v') :: dict_set k v d'
  end.

Fixpoint dict_del (k : string) (d : list (string * V)) : list (string * V) :=
  match d with
  | [] => []
  | (k', v') :: d' => if String.eqb k k' then d' else (k', v') :: dict_del k d'
  end.

(** [d.update(other)] *)
Definition dict_update (d other : list (string * V)) : list (string * V) :=
  fold_left (fun acc kv => dict_set (fst kv) (snd kv) acc) other d.

Definition dict_has (k : string) (d : list (string * V)) : bool :=
  match dict_get k d with Some _ => true | None => false end.
End Dict.

Definition Params := list (string * string).
Definition Headers := list (string * string).

(** [j.get(k, default)] on a parsed document: only a [dict] has [get]. *)
Definition json_get (k : string) (j : Json) : option (option Json) :=
  match j with
  | JDict kv => Some (dict_get k kv)
  | _ => None
  end.

(** [v == n] for an [int] literal [n]: [True == 1] and [False == 0] hold. *)
Definition json_eq_int (v : Json) (n : Z) : bool :=
  match v with
  | JInt z => z =? n
  | JBool b => (if b then 1 else 0) =? n
  | _ => false
  end.

(** [v is None] *)
Definition is_JNull (v : Json) : bool :=
  match v with JNull => true | _ => false end.

(** Truth value of a document used as a condition. *)
Definition json_truthy (v : Json) : bool :=
  match v with
  | JNull => false
  | JBool b => b
  | JInt z => negb (z =? 0)
  | JStr s => negb (String.eqb s "")
  | JList l => match l with [] => false | _ => true end
  | JDict kv => match kv with [] => false | _ => true end
  end.

(** ** pkg/account_pool/field.py *)

Module field.
Inductive AccountStatusEnum := NORMAL | INVALID.

Definition value (st : AccountStatusEnum) : Z :=
  match st with NORMAL => 0 | INVALID => -1 end.

Record AccountInfoModel := {
  id : Z;
  account_name : string;
  cookies : string;
  platform_name : string;
  status : Z;
  invalid_timestamp : Z
}.

(** The [account] field holds a reference: the pool's list and the
    client's binding share one account object. *)
Record AccountWithIpModel := {
  account : nat;
  ip_info : option IpInfoModel
}.
End field.
Export field (AccountStatusEnum(..), AccountInfoModel, AccountWithIpModel).

(** A cell of the sheet [config/accounts_cookies.xlsx] as the constructor
    of [AccountInfoModel] takes it: the sheet has no such column, so that
    [row.get] answers its default; the cell holds a value the field accepts;
    or it holds what the field refuses, an empty cell or a value of another
    type, and the constructor raises pydantic's [ValidationError]. *)
Inductive Cell (A : Type) :=
| Absent
| Accepted (a : A)
| Refused.
Arguments Absent {A}.
Arguments Accepted {A} a.
Arguments Refused {A}.

(** What the field gets; [None]: the cell is refused. *)
Definition read_cell {A} (dflt : A) (c : Cell A) : option A :=
  match c with
  | Absent => Some dflt
  | Accepted a => Some a
  | Refused => None
  end.

(** One row of the sheet. *)
Record XlsxRow := {
  row_id : Cell Z;
  row_account_name : Cell string;
  row_cookies : Cell string
}.

(** ** douyin/help.py *)

Record CommonVerifyParams := {
  ms_token : string;
  webid : string;
  verify_fp : string;
  s_v_web_id : string
}.

(** ** pkg/sign/sign_model.py *)

Record DouyinSignRequest := {
  uri : string;
  query_params : string;
  user_agent : string;
  sign_cookies : string
}.

Record DouyinSignResult := { result_a_bogus : string }.

Record DouyinSignResponse := {
  biz_code : Z;
  msg : string;
  isok : bool;
  data : option DouyinSignResult;
  a_bogus : option string
}.

(** ** HTTP traffic *)

Record HttpRequest := {
  method : string;
  url : string;
  params : option Params;
  body : option Params;
  headers : Headers;
  via_proxy : option string
}.

Record HttpResponse := {
  status_code : Z;
  text : string;
  json : option Json;       (* [None]: [response.json()] raises *)
  elapsed : Q
}.

Inductive HttpOutcome :=
| HttpRaise (e : Exn)
| HttpReply (r : HttpResponse).

(** What [douyin.js]'s [get_abogus] gives back through the runtime. *)
Inductive JsOutcome :=
| JsRaise (e : Exn)
| JsNull
| JsStr (s : string).

(** The provider's answer to [/api/getdps/]: a failure, or the endpoints with
    the number of seconds each stays valid. *)
Inductive KdlOutcome :=
| KdlRaise (e : Exn)
| KdlProxies (l : list (string * Z * Z)).

(** ** pkg/proxy/proxy_ip_pool.py: the pool object *)

Record ProxyIpPool := {
  ip_pool_count : Z;
  enable_validate_ip : bool;
  proxy_list : list IpInfoModel
}.

(** The cached [httpx.AsyncClient] and the proxy it was built with. *)
Record AsyncClient := { client_proxy : option string }.

(** ** model/m_checkpoint.py *)

Module m_checkpoint.
Record CheckpointNote := {
  note_id : string;
  extra_params_info : option (list (string * Json));
  is_success_crawled : bool;
  is_success_crawled_comments : bool;
  current_note_comment_cursor : option string
}.

Record Checkpoint := {
  id : option string;
  platform : string;
  mode : string;
  current_search_keyword : option string;
  current_search_page : option Z;
  current_search_id : option string;
  current_creator_id : option string;
  current_creator_page : option string;
  current_homefeed_cursor : option string;
  current_homefeed_note_index : option Z;
  crawled_note_list : list CheckpointNote
}.
End m_checkpoint.
Export m_checkpoint (CheckpointNote, Checkpoint).

(** ** model/m_douyin.py: the fields of a comment the processors read *)

Record DouyinAwemeComment := {
  comment_id : string;
  sub_comment_count : string
}.

(** ** config *)

Record Config := {
  KEYWORDS : string;
  PUBLISH_TIME_TYPE : Z;
  CRAWLER_MAX_NOTES_COUNT : Z;
  MAX_CONCURRENCY_NUM : Z;
  ENABLE_GET_COMMENTS : bool;
  ENABLE_GET_SUB_COMMENTS : bool;
  PER_NOTE_MAX_COMMENTS_COUNT : Z;
  ENABLE_CHECKPOINT : bool;
  SPECIFIED_CHECKPOINT_ID : string;
  CRAWLER_TIME_SLEEP : Q;
  ENABLE_IP_PROXY : bool;
  KDL_USER_NAME : string;
  KDL_USER_PWD : string
}.

(** ** Observable effects

    Every effect that leaves the process, or that a claim counts, is logged
    in program order. *)
Inductive Event :=
| EvDispatch (req : HttpRequest) (acc : option nat) (via : option IpInfoModel) (at_ : Q)
| EvSleep (secs : Q)
| EvJsCall (query ua : string)
| EvAccountStatus (a : nat) (st : Z)
| EvIpInvalid (p : IpInfoModel)
| EvAssignIp (p : IpInfoModel)
| EvGetAccountWithIp
| EvReadXlsx
| EvGetProxies (count : Z)
| EvIpProbe (p : IpInfoModel)
| EvRandomChoice (len : nat)
| EvStoreAweme (aweme_id : string)
| EvStoreComments (aweme_id : string) (n : nat)
| EvSearchKeyword (idx : nat) (keyword : string)
| EvInterruptInfo (reason : string) (checkpoint_data : option Checkpoint)
                  (saved : Z) (keyword : string) (page : Z).

(** ** The world outside the process

    The platform, the JavaScript runtime, the proxy provider and the random
    generator answer the n-th question put to them; library functions whose
    text is not part of the repository are taken as they are. *)
Record Env := {
  DOUYIN_API_URL : string;                      (* constant/douyin.py *)
  DOUYIN_FIXED_USER_AGENT : string;             (* constant/douyin.py *)
  urlencode : Params -> string;                 (* urllib.parse.urlencode *)
  quote : string -> string;                     (* urllib.parse.quote(., safe=":/") *)
  py_repr : Json -> string;                     (* str() of a document that is no str *)
  server : nat -> HttpRequest -> HttpOutcome;
  get_abogus : nat -> string -> string -> JsOutcome;
  getdps : nat -> Z -> KdlOutcome;
  random_choice : nat -> nat -> nat;
  echo_ok : nat -> IpInfoModel -> bool;
  int_of_str : string -> option Z;              (* int(s); None: ValueError *)
  _extract_comment_from_dict : string -> Json -> Exn + DouyinAwemeComment;
  _extract_aweme_from_dict : Json -> option Exn (* None: a model object is built *)
}.

(** ** The state of the process *)

Record State := {
  clock : Q;   (* time.time() *)
  config : Config;   (* the config module *)
  accounts : list AccountInfoModel;   (* account objects, by reference *)
  bindings : list AccountWithIpModel;   (* AccountWithIpModel objects, by reference *)
  xlsx : option (list XlsxRow);   (* sheet of config/accounts_cookies.xlsx; None: unreadable *)
  _platform_name : string;
  _account_save_type : string;
  _account_list : list nat;   (* AccountPoolManager._account_list *)
  proxy_ip_pool : option ProxyIpPool;   (* AccountWithIpPoolManager.proxy_ip_pool *)
  _user_agent : string;
  common_verify_params : option CommonVerifyParams;
  account_info : option nat;   (* DouYinApiClient.account_info *)
  _http_client : option AsyncClient;
  _cached_proxy : option string;
  request_keyword_var : string;
  source_keyword_var : string;
  checkpoints : list Checkpoint;   (* the persisted checkpoints *)
  trace : list Event   (* effects so far, oldest first *)
}.

Definition set_clock (v : Q) (s : State) : State :=
  {| clock := v;
     config := config s;
     accounts := accounts s;
     bindings := bindings s;
     xlsx := xlsx s;
     _platform_name := _platform_name s;
     _account_save_type := _account_save_type s;
     _account_list := _account_list s;
     proxy_ip_pool := proxy_ip_pool s;
     _user_agent := _user_agent s;
     common_verify_params := common_verify_params s;
     account_info := account_info s;
     _http_client := _http_client s;
     _cached_proxy := _cached_proxy s;
     request_keyword_var := request_keyword_var s;
     source_keyword_var := source_keyword_var s;
     checkpoints := checkpoints s;
     trace := trace s |}.

Definition set_config (v : Config) (s : State) : State :=
  {| clock := clock s;
     config := v;
     accounts := accounts s;
     bindings := bindings s;
     xlsx := xlsx s;
     _platform_name := _platform_name s;
     _account_save_type := _account_save_type s;
     _account_list := _account_list s;
     proxy_ip_pool := proxy_ip_pool s;
     _user_agent := _user_agent s;
     common_verify_params := common_verify_params s;
     account_info := account_info s;
     _http_client := _http_client s;
     _cached_proxy := _cached_proxy s;
     request_keyword_var := request_keyword_var s;
     source_keyword_var := source_keyword_var s;
     checkpoints := checkpoints s;
     trace := trace s |}.

Definition set_accounts (v : list AccountInfoModel) (s : State) : State :=
  {| clock := clock s;
     config := config s;
     accounts := v;
     bindings := bindings s;
     xlsx := xlsx s;
     _platform_name := _platform_name s;
     _account_save_type := _account_save_type s;
     _account_list := _account_list s;
     proxy_ip_pool := proxy_ip_pool s;
     _user_agent := _user_agent s;
     common_verify_params := common_verify_params s;
     account_info := account_info s;
     _http_client := _http_client s;
     _cached_proxy := _cached_proxy s;
     request_keyword_var := request_keyword_var s;
     source_keyword_var := source_keyword_var s;
     checkpoints := checkpoints s;
     trace := trace s |}.

Definition set_bindings (v : list AccountWithIpModel) (s : State) : State :=
  {| clock := clock s;
     config := config s;
     accounts := accounts s;
     bindings := v;
     xlsx := xlsx s;
     _platform_name := _platform_name s;
     _account_save_type := _account_save_type s;
     _account_list := _account_list s;
     proxy_ip_pool := proxy_ip_pool s;
     _user_agent := _user_agent s;
     common_verify_params := common_verify_params s;
     account_info := account_info s;
     _http_client := _http_client s;
     _cached_proxy := _cached_proxy s;
     request_keyword_var := request_keyword_var s;
     source_keyword_var := source_keyword_var s;
     checkpoints := checkpoints s;
     trace := trace s |}.

Definition set_account_list (v : list nat) (s : State) : State :=
  {| clock := clock s;
     config := config s;
     accounts := accounts s;
     bindings := bindings s;
     xlsx := xlsx s;
     _platform_name := _platform_name s;
     _account_save_type := _account_save_type s;
     _account_list := v;
     proxy_ip_pool := proxy_ip_pool s;
     _user_agent := _user_agent s;
     common_verify_params := common_verify_params s;
     account_info := account_info s;
     _http_client := _http_client s;
     _cached_proxy := _cached_proxy s;
     request_keyword_var := request_keyword_var s;
     source_keyword_var := source_keyword_var s;
     checkpoints := checkpoints s;
     trace := trace s |}.

Definition set_proxy_ip_pool (v : option ProxyIpPool) (s : State) : State :=
  {| clock := clock s;
     config := config s;
     accounts := accounts s;
     bindings := bindings s;
     xlsx := xlsx s;
     _platform_name := _platform_name s;
     _account_save_type := _account_save_type s;
     _account_list := _account_list s;
     proxy_ip_pool := v;
     _user_agent := _user_agent s;
     common_verify_params := common_verify_params s;
     account_info := account_info s;
     _http_client := _http_client s;
     _cached_proxy := _cached_proxy s;
     request_keyword_var := request_keyword_var s;
     source_keyword_var := source_keyword_var s;
     checkpoints := checkpoints s;
     trace := trace s |}.

Definition set_account_info (v : option nat) (s : State) : State :=
  {| clock := clock s;
     config := config s;
     accounts := accounts s;
     bindings := bindings s;
     xlsx := xlsx s;
     _platform_name := _platform_name s;
     _account_save_type := _account_save_type s;
     _account_list := _account_list s;
     proxy_ip_pool := proxy_ip_pool s;
     _user_agent := _user_agent s;
     common_verify_params := common_verify_params s;
     account_info := v;
     _http_client := _http_client s;
     _cached_proxy := _cached_proxy s;
     request_keyword_var := request_keyword_var s;
     source_keyword_var := source_keyword_var s;
     checkpoints := checkpoints s;
     trace := trace s |}.

Definition set_http_client (v : option AsyncClient) (s : State) : State :=
  {| clock := clock s;
     config := config s;
     accounts := accounts s;
     bindings := bindings s;
     xlsx := xlsx s;
     _platform_name := _platform_name s;
     _account_save_type := _account_save_type s;
     _account_list := _account_list s;
     proxy_ip_pool := proxy_ip_pool s;
     _user_agent := _user_agent s;
     common_verify_params := common_verify_params s;
     account_info := account_info s;
     _http_client := v;
     _cached_proxy := _cached_proxy s;
     request_keyword_var := request_keyword_var s;
     source_keyword_var := source_keyword_var s;
     checkpoints := checkpoints s;
     trace := trace s |}.

Definition set_cached_proxy (v : option string) (s : State) : State :=
  {| clock := clock s;
     config := config s;
     accounts := accounts s;
     bindings := bindings s;
     xlsx := xlsx s;
     _platform_name := _platform_name s;
     _account_save_type := _account_save_type s;
     _account_list := _account_list s;
     proxy_ip_pool := proxy_ip_pool s;
     _user_agent := _user_agent s;
     common_verify_params := common_verify_params s;
     account_info := account_info s;
     _http_client := _http_client s;
     _cached_proxy := v;
     request_keyword_var := request_keyword_var s;
     source_keyword_var := source_keyword_var s;
     checkpoints := checkpoints s;
     trace := trace s |}.

Definition set_request_keyword_var (v : string) (s : State) : State :=
  {| clock := clock s;
     config := config s;
     accounts := accounts s;
     bindings := bindings s;
     xlsx := xlsx s;
     _platform_name := _platform_name s;
     _account_save_type := _account_save_type s;
     _account_list := _account_list s;
     proxy_ip_pool := proxy_ip_pool s;
     _user_agent := _user_agent s;
     common_verify_params := common_verify_params s;
     account_info := account_info s;
     _http_client := _http_client s;
     _cached_proxy := _cached_proxy s;
     request_keyword_var := v;
     source_keyword_var := source_keyword_var s;
     checkpoints := checkpoints s;
     trace := trace s |}.

Definition set_source_keyword_var (v : string) (s : State) : State :=
  {| clock := clock s;
     config := config s;
     accounts := accounts s;
     bindings := bindings s;
     xlsx := xlsx s;
     _platform_name := _platform_name s;
     _account_save_type := _account_save_type s;
     _account_list := _account_list s;
     proxy_ip_pool := proxy_ip_pool s;
     _user_agent := _user_agent s;
     common_verify_params := common_verify_params s;
     account_info := account_info s;
     _http_client := _http_client s;
     _cached_proxy := _cached_proxy s;
     request_keyword_var := request_keyword_var s;
     source_keyword_var := v;
     checkpoints := checkpoints s;
     trace := trace s |}.

Definition set_checkpoints (v : list Checkpoint) (s : State) : State :=
  {| clock := clock s;
     config := config s;
     accounts := accounts s;
     bindings := bindings s;
     xlsx := xlsx s;
     _platform_name := _platform_name s;
     _account_save_type := _account_save_type s;
     _account_list := _account_list s;
     proxy_ip_pool := proxy_ip_pool s;
     _user_agent := _user_agent s;
     common_verify_params := common_verify_params s;
     account_info := account_info s;
     _http_client := _http_client s;
     _cached_proxy := _cached_proxy s;
     request_keyword_var := request_keyword_var s;
     source_keyword_var := source_keyword_var s;
     checkpoints := v;
     trace := trace s |}.

Definition set_trace (v : list Event) (s : State) : State :=
  {| clock := clock s;
     config := config s;
     accounts := accounts s;
     bindings := bindings s;
     xlsx := xlsx s;
     _platform_name := _platform_name s;
     _account_save_type := _account_save_type s;
     _account_list := _account_list s;
     proxy_ip_pool := proxy_ip_pool s;
     _user_agent := _user_agent s;
     common_verify_params := common_verify_params s;
     account_info := account_info s;
     _http_client := _http_client s;
     _cached_proxy := _cached_proxy s;
     request_keyword_var := request_keyword_var s;
     source_keyword_var := source_keyword_var s;
     checkpoints := checkpoints s;
     trace := v |}.
(** ** Effects: state, exceptions and bounded recursion

    A coroutine is a state transformer that returns, raises, or runs out of
    the recursion budget it was given ([OutOfFuel] stands for a computation
    not yet finished, never for a result). *)
Inductive Res (A : Type) :=
| Ok (a : A)
| Raise (e : Exn)
| OutOfFuel.
Arguments Ok {A} a.
Arguments Raise {A} e.
Arguments OutOfFuel {A}.

Definition M (A : Type) : Type := State -> Res A * State.

#[global] Instance M_ret : MRet M := fun A a s => (Ok a, s).

#[global] Instance M_bind : MBind M := fun A B k m s =>
  match m s with
  | (Ok a, s') => k a s'
  | (Raise e, s') => (Raise e, s')
  | (OutOfFuel, s') => (OutOfFuel, s')
  end.

Definition raise {A} (e : Exn) : M A := fun s => (Raise e, s).
Definition out_of_fuel {A} : M A := fun s => (OutOfFuel, s).
Definition gets {A} (f : State -> A) : M A := fun s => (Ok (f s), s).
Definition modify (f : State -> State) : M unit := fun s => (Ok tt, f s).
Definition emit (ev : Event) : M unit :=
  modify (fun s => set_trace (trace s ++ [ev]) s).

(** [await asyncio.sleep(secs)] *)
Definition sleep (secs : Q) : M unit :=
  emit (EvSleep secs);; modify (fun s => set_clock (clock s + secs)%Q s).

(** [try: m except <classes>: h]; [h e = None] when no clause takes [e]. *)
Definition try_except {A} (m : M A) (h : Exn -> option (M A)) : M A := fun s =>
  match m s with
  | (Raise e, s') => match h e with Some k => k s' | None => (Raise e, s') end
  | r => r
  end.

(** [try: m finally: fin]: an exception of [fin] replaces the pending
    outcome. *)
Definition try_finally {A} (m : M A) (fin : M unit) : M A := fun s =>
  match m s with
  | (OutOfFuel, s') => (OutOfFuel, s')
  | (r, s') =>
      match fin s' with
      | (Ok _, s'') => (r, s'')
      | (Raise e, s'') => (Raise e, s'')
      | (OutOfFuel, s'') => (OutOfFuel, s'')
      end
  end.

Definition except_Exception {A} (k : Exn -> M A) : Exn -> option (M A) :=
  fun e => if is_Exception e then Some (k e) else None.

Definition except_RetryError {A} (k : Exn -> M A) : Exn -> option (M A) :=
  fun e => match e with RetryError last => Some (k last) | _ => None end.

(** tenacity's [@retry(stop=stop_after_attempt(n), wait=wait_fixed(w))]: an
    attempt that raises an [Exception] is repeated after [w] seconds; once
    the n-th attempt has failed the decorator raises [RetryError] around the
    last exception. [more] counts the attempts left after the current one. *)
Fixpoint retry_loop {A} (more : nat) (wait : Q) (f : M A) : M A := fun s =>
  match f s with
  | (Raise e, s') =>
      if is_Exception e then
        match more with
        | O => (Raise (RetryError e), s')
        | S more' => (sleep wait;; retry_loop more' wait f) s'
        end
      else (Raise e, s')
  | r => r
  end.

Definition retry {A} (stop_after_attempt : nat) (wait_fixed : Q) (f : M A) : M A :=
  retry_loop (Nat.pred stop_after_attempt) wait_fixed f.

Definition run {A} (m : M A) (s : State) : Res A * State := m s.

Definition count_events (P : Event -> bool) (t : list Event) : nat :=
  length (filter (fun ev => P ev = true) t).

Definition is_dispatch (ev : Event) : bool :=
  match ev with EvDispatch _ _ _ _ => true | _ => false end.
Definition is_js_call (ev : Event) : bool :=
  match ev with EvJsCall _ _ => true | _ => false end.
Definition is_get_proxies (ev : Event) : bool :=
  match ev with EvGetProxies _ => true | _ => false end.
Definition is_ip_probe (ev : Event) : bool :=
  match ev with EvIpProbe _ => true | _ => false end.
Definition is_random_choice (ev : Event) : bool :=
  match ev with EvRandomChoice _ => true | _ => false end.
Definition is_get_account (ev : Event) : bool :=
  match ev with EvGetAccountWithIp => true | _ => false end.
Definition is_account_status (ev : Event) : bool :=
  match ev with EvAccountStatus _ _ => true | _ => false end.
Definition is_sleep (ev : Event) : bool :=
  match ev with EvSleep _ => true | _ => false end.
Definition is_ip_invalid (ev : Event) : bool :=
  match ev with EvIpInvalid _ => true | _ => false end.
Definition is_assign_ip (ev : Event) : bool :=
  match ev with EvAssignIp _ => true | _ => false end.

Definition EXCEL_ACCOUNT_SAVE : string := "xlsx".
Definition DOUYIN_PLATFORM_NAME : string := "dy".
Definition CRALER_TYPE_SEARCH : string := "search".

(** pkg/proxy/providers/kuaidl_proxy.py *)
Definition DELTA_EXPIRED_SECOND : Z := 5.

Section Pools.
Variable env : Env.

(** *** pkg/proxy/providers/kuaidl_proxy.py, pkg/proxy/proxy_ip_pool.py *)

Definition get_proxies (num : Z) : M (list IpInfoModel) :=
  n ← gets (fun s => count_events is_get_proxies (trace s));
  emit (EvGetProxies num);;
  match getdps env n num with
  | KdlRaise e => raise e
  | KdlProxies l =>
      now ← gets clock;
      cfg ← gets config;
      mret (map (fun '(i, p, expire_ts) =>
                   {| ip := i; port := p;
                      user := KDL_USER_NAME cfg;
                      protocol := "https://";
                      password := KDL_USER_PWD cfg;
                      expired_time_ts :=
                        expire_ts + get_unix_timestamp now - DELTA_EXPIRED_SECOND |}) l)
  end.

(** The pool methods run on the pool object the manager holds. *)
Definition the_pool : M ProxyIpPool :=
  p ← gets proxy_ip_pool;
  match p with
  | Some pool => mret pool
  | None => raise (AttributeError "'NoneType' object has no attribute 'get_proxy'")
  end.

Definition set_proxy_list (l : list IpInfoModel) : M unit :=
  pool ← the_pool;
  modify (set_proxy_ip_pool
            (Some {| ip_pool_count := ip_pool_count pool;
                     enable_validate_ip := enable_validate_ip pool;
                     proxy_list := l |})).

Definition load_proxies : M unit :=
  pool ← the_pool;
  l ← get_proxies (ip_pool_count pool);
  set_proxy_list l.

Definition _reload_proxies : M unit :=
  set_proxy_list nil;; load_proxies.

Definition _is_valid_proxy (proxy : IpInfoModel) : M bool :=
  n ← gets (fun s => count_events is_ip_probe (trace s));
  emit (EvIpProbe proxy);;
  mret (echo_ok env n proxy).

(** [list.remove(x)]: the first element equal to [x] goes. *)
Fixpoint list_remove (x : IpInfoModel) (l : list IpInfoModel) : list IpInfoModel :=
  match l with
  | [] => []
  | y :: l' => if decide (y = x) then l' else y :: list_remove x l'
  end.

Definition same_endpoint (p q : IpInfoModel) : bool :=
  String.eqb (ip p) (ip q) && (port p =? port q) &&
  String.eqb (protocol p) (protocol q) && String.eqb (user p) (user q) &&
  String.eqb (password p) (password q).

Fixpoint remove_endpoint (proxy : IpInfoModel) (l : list IpInfoModel) : list IpInfoModel :=
  match l with
  | [] => []
  | p :: l' => if same_endpoint p proxy then l' else p :: remove_endpoint proxy l'
  end.

Definition ProxyIpPool_mark_ip_invalid (proxy : IpInfoModel) : M unit :=
  emit (EvIpInvalid proxy);;
  pool ← the_pool;
  set_proxy_list (remove_endpoint proxy (proxy_list pool)).

Definition get_proxy_attempt : M IpInfoModel :=
  pool ← the_pool;
  (if decide (length (proxy_list pool) = 0%nat) then _reload_proxies else mret tt);;
  pool ← the_pool;
  n ← gets (fun s => count_events is_random_choice (trace s));
  emit (EvRandomChoice (length (proxy_list pool)));;
  match proxy_list pool !! (random_choice env n (length (proxy_list pool))
                              `mod` length (proxy_list pool))%nat with
  | None => raise (IndexError "Cannot choose from an empty sequence")
  | Some proxy =>
      set_proxy_list (list_remove proxy (proxy_list pool));;
      (if enable_validate_ip pool then
         ok ← _is_valid_proxy proxy;
         if (ok : bool) then mret tt
         else raise (Exception_ "[ProxyIpPool.get_proxy] current ip invalid and again get it")
       else mret tt);;
      mret proxy
  end.

(** [@retry(stop=stop_after_attempt(3), wait=wait_fixed(1))] *)
Definition get_proxy : M IpInfoModel := retry 3 1 get_proxy_attempt.

(** *** pkg/account_pool/pool.py *)

Definition add_account (a : AccountInfoModel) : M unit :=
  modify (fun s =>
    set_account_list (_account_list s ++ [length (accounts s)])
      (set_accounts (accounts s ++ [a]) s)).

Fixpoint load_rows (rows : list XlsxRow) (account_id : Z) : M unit :=
  match rows with
  | [] => mret tt
  | row :: rest =>
      platform ← gets _platform_name;
      match read_cell account_id (row_id row),
            read_cell "" (row_account_name row),
            read_cell "" (row_cookies row) with
      | Some id, Some account_name, Some cookies =>
          add_account {| field.id := id;
                         field.account_name := account_name;
                         field.cookies := cookies;
                         field.platform_name := platform;
                         field.status := field.value NORMAL;
                         field.invalid_timestamp := 0 |};;
          load_rows rest (account_id + 1)
      | _, _, _ =>
          (* [str] of the error names the refused fields; the callers log it *)
          raise (ValidationError "validation error for AccountInfoModel")
      end
  end.

Definition load_accounts_from_xlsx : M unit :=
  emit EvReadXlsx;;
  df ← gets xlsx;
  match df with
  | None => raise (OSError "accounts_cookies.xlsx")
  | Some rows => load_rows rows 1
  end.

Definition _reload_accounts : M unit :=
  modify (set_account_list []);;
  save_type ← gets _account_save_type;
  if String.eqb save_type EXCEL_ACCOUNT_SAVE then load_accounts_from_xlsx
  else mret tt.

Definition is_normal (s : State) (a : nat) : bool :=
  match accounts s !! a with
  | Some acc => field.status acc =? field.value NORMAL
  | None => false
  end.

(** The first account of the list whose status is NORMAL. *)
Definition first_normal (s : State) : option nat :=
  List.find (is_normal s) (_account_list s).

Definition get_active_account : M nat :=
  found ← gets first_normal;
  match found with
  | Some a => mret a
  | None =>
      _reload_accounts;;
      found ← gets first_normal;
      match found with
      | Some a => mret a
      | None => raise (Exception_ "账号池中没有可用的账号")
      end
  end.

Definition update_account_status (a : nat) (st : AccountStatusEnum) : M unit :=
  modify (fun s =>
    set_accounts
      (alter (fun acc =>
                {| field.id := field.id acc;
                   field.account_name := field.account_name acc;
                   field.cookies := field.cookies acc;
                   field.platform_name := field.platform_name acc;
                   field.status := field.value st;
                   field.invalid_timestamp := get_current_timestamp (clock s) |})
             a (accounts s)) s);;
  emit (EvAccountStatus a (field.value st)).

Definition get_account_with_ip_info : M nat :=
  emit EvGetAccountWithIp;;
  a ← try_except get_active_account
        (except_Exception (fun _ => _reload_accounts;; get_active_account));
  pool ← gets proxy_ip_pool;
  ipi ← match pool with
        | Some _ => p ← get_proxy; mret (Some p)
        | None => mret None
        end;
  b ← gets (fun s => length (bindings s));
  modify (fun s => set_bindings
                     (bindings s ++ [{| field.account := a; field.ip_info := ipi |}]) s);;
  mret b.

Definition pool_mark_account_invalid (a : nat) : M unit :=
  update_account_status a INVALID.

Definition pool_mark_ip_invalid (ipi : option IpInfoModel) : M unit :=
  match ipi with
  | None => mret tt
  | Some p =>
      pool ← gets proxy_ip_pool;
      match pool with
      | Some _ => ProxyIpPool_mark_ip_invalid p
      | None => mret tt
      end
  end.
End Pools.

(** ** pkg/sign/douyin_sign.py *)

Section Sign.
Variable env : Env.

Definition js_sign_attempt (req : DouyinSignRequest) : M DouyinSignResponse :=
  n ← gets (fun s => count_events is_js_call (trace s));
  emit (EvJsCall (query_params req) (user_agent req));;
  match get_abogus env n (query_params req) (user_agent req) with
  | JsRaise e => raise e
  | JsNull =>
      mret {| biz_code := 0; msg := "OK!"; isok := true; data := None; a_bogus := None |}
  | JsStr t =>
      mret {| biz_code := 0; msg := "OK!"; isok := true; data := None; a_bogus := Some t |}
  end.

(** [DouyinJavascriptSign.sign], under
    [@retry(stop=stop_after_attempt(3), wait=wait_fixed(0.5))]. *)
Definition DouyinJavascriptSign_sign (req : DouyinSignRequest) : M DouyinSignResponse :=
  retry 3 (1 # 2) (js_sign_attempt req).

(** [DouyinSignLogic.sign]: a second round after the first one is
    exhausted. *)
Definition sign (req_data : DouyinSignRequest) : M DouyinSignResponse :=
  try_except (DouyinJavascriptSign_sign req_data)
    (except_RetryError (fun _ => DouyinJavascriptSign_sign req_data)).

(** [DouyinSignResponse.get_a_bogus] *)
Definition get_a_bogus (r : DouyinSignResponse) : Exn + string :=
  match a_bogus r with
  | Some t =>
      if negb (String.eqb t "") then inr t
      else match data r with
           | Some d => if negb (String.eqb (result_a_bogus d) "")
                       then inr (result_a_bogus d)
                       else inl (ValueError "a_bogus not found in response")
           | None => inl (ValueError "a_bogus not found in response")
           end
  | None =>
      match data r with
      | Some d => if negb (String.eqb (result_a_bogus d) "")
                  then inr (result_a_bogus d)
                  else inl (ValueError "a_bogus not found in response")
      | None => inl (ValueError "a_bogus not found in response")
      end
  end.
End Sign.

(** ** douyin/client.py *)

(** The keyword arguments the callers of [request], [get] and [post] pass. *)
Record Kwargs := {
  kw_headers : option Headers;
  kw_return_response : bool
}.

Definition no_kwargs : Kwargs := {| kw_headers := None; kw_return_response := false |}.

(** What [request] returns: the raw response or the decoded document. *)
Inductive ReqResult :=
| RawResponse (r : HttpResponse)
| JsonData (j : Json).

Definition SEARCH_URI : string := "/aweme/v1/web/general/search/single/".
Definition DETAIL_URI : string := "/aweme/v1/web/aweme/detail/".
Definition COMMENT_URI : string := "/aweme/v1/web/comment/list/".
Definition REPLY_URI : string := "/aweme/v1/web/comment/list/reply/".
Definition PROFILE_URI : string := "/aweme/v1/web/user/profile/other/".
Definition POST_URI : string := "/aweme/v1/web/aweme/post/".
Definition HISTORY_URI : string := "/aweme/v1/web/history/read/".
Definition FEED_URI : string := "/aweme/v1/web/module/feed/".

Definition account_related_errors : list string :=
  ["account blocked"; "account unauthorized"; "account not logged in"; "account error"].

Definition is_account_related (exception_str : string) : bool :=
  existsb (fun err => contains err exception_str) account_related_errors.

Definition is_rate_limited (exception_str : string) : bool :=
  contains "rate limited" exception_str.

(** The binding object the client holds, and the account object behind it. *)
Definition bound (s : State) : option AccountWithIpModel :=
  b ← account_info s; bindings s !! b.

Definition bound_account (s : State) : option nat :=
  field.account <$> bound s.

Definition bound_ip (s : State) : option IpInfoModel :=
  b ← bound s; field.ip_info b.

Definition _cookies (s : State) : string :=
  match bound s with
  | None => ""
  | Some b =>
      match accounts s !! field.account b with
      | Some acc => field.cookies acc
      | None => ""
      end
  end.

Definition _headers (s : State) : Headers :=
  [ ("Content-Type", "application/json");
    ("Accept", "application/json");
    ("accept-language", "zh-CN,zh;q=0.9");
    ("Cookie", _cookies s);
    ("origin", "https://www.douyin.com");
    ("referer", "https://www.douyin.com/user/self");
    ("user-agent", _user_agent s) ].

Definition _proxies (s : State) : option string :=
  format_httpx_proxy <$> bound_ip s.

Definition _common_params : Params :=
  [ ("device_platform", "webapp"); ("aid", "6383"); ("channel", "channel_pc_web");
    ("publish_video_strategy_type", "2"); ("update_version_code", "170400");
    ("pc_client_type", "1"); ("version_code", "170400"); ("version_name", "17.4.0");
    ("cookie_enabled", "true"); ("screen_width", "2560"); ("screen_height", "1440");
    ("browser_language", "zh-CN"); ("browser_platform", "MacIntel");
    ("browser_name", "Chrome"); ("browser_version", "135.0.0.0");
    ("browser_online", "true"); ("engine_name", "Blink");
    ("engine_version", "135.0.0.0"); ("os_name", "Mac+OS"); ("os_version", "10.15.7");
    ("cpu_core_num", "8"); ("device_memory", "8"); ("platform", "PC");
    ("downlink", "4.45"); ("effective_type", "4g"); ("round_trip_time", "100") ].

Definition _verify_params (s : State) : Params :=
  match common_verify_params s with
  | None => []
  | Some v => [ ("webid", webid v); ("msToken", ms_token v) ]
  end.

Section Client.
Variable env : Env.

Definition client_mark_account_invalid (account_with_ip : option nat) : M unit :=
  b ← gets (fun s => r ← account_with_ip; bindings s !! r);
  match b with
  | None => raise (AttributeError "'NoneType' object has no attribute 'account'")
  | Some b0 =>
      pool_mark_account_invalid (field.account b0);;
      b1 ← gets (fun s => r ← account_with_ip; bindings s !! r);
      pool_mark_ip_invalid (b1 ≫= field.ip_info)
  end.

Definition _pre_url_params (uri : string) (url_params : option Params) : M Params :=
  verify ← gets _verify_params;
  let final_url_params :=
    dict_update (dict_update (default [] url_params) _common_params) verify in
  let query := urlencode env final_url_params in
  ua ← gets _user_agent;
  ck ← gets _cookies;
  dy_sign_resp ← sign env {| uri := uri; query_params := query;
                             user_agent := ua; sign_cookies := ck |};
  if negb (contains "/v1/web/general/search/single/" uri) then
    match get_a_bogus dy_sign_resp with
    | inl e => raise e
    | inr token =>
        if negb (String.eqb token "") then mret (dict_set "a_bogus" token final_url_params)
        else raise (Exception_ "Failed to generate a_bogus signature")
    end
  else mret final_url_params.

Definition _reset_http_client : M unit :=
  c ← gets _http_client;
  match c with
  | Some _ => modify (set_http_client None);; modify (set_cached_proxy None)
  | None => mret tt
  end.

(** [self.account_info.ip_info = p] *)
Definition assign_ip_info (p : IpInfoModel) : M unit :=
  r ← gets account_info;
  match r with
  | None => raise (AttributeError "'NoneType' object has no attribute 'ip_info'")
  | Some b =>
      modify (fun s =>
        set_bindings
          (alter (fun o => {| field.account := field.account o;
                              field.ip_info := Some p |}) b (bindings s)) s);;
      emit (EvAssignIp p)
  end.

Definition check_ip_expired : M unit :=
  cfg ← gets config;
  now ← gets clock;
  ipi ← gets bound_ip;
  match ipi with
  | Some p =>
      if ENABLE_IP_PROXY cfg && is_expired p now then
        pool_mark_ip_invalid (Some p);;
        fresh ← (the_pool;; get_proxy env);
        assign_ip_info fresh;;
        _reset_http_client
      else mret tt
  | None => mret tt
  end.

Definition own_errors : list string :=
  ["account blocked"; "account unauthorized"; "account not logged in";
   "rate limited"; "account error"].

Definition str_in (x : string) (l : list string) : bool :=
  existsb (String.eqb x) l.

(** The part of [request] that reads a 200 response, inside its [try]. *)
Definition read_response (response : HttpResponse) : M ReqResult :=
  if String.eqb (text response) "" || String.eqb (text response) "blocked" then
    raise (Exception_ "account blocked")
  else
    match json response with
    | None => raise (DataFetchError "Failed to parse JSON response: Expecting value")
    | Some json_data =>
        match json_get "status_code" json_data with
        | None => raise (AttributeError "object has no attribute 'get'")
        | Some found =>
            let api_status_code := default (JInt 0) found in
            if json_eq_int api_status_code 8 then
              raise (Exception_ "account not logged in")
            else if negb (json_eq_int api_status_code 0)
                    && negb (json_eq_int api_status_code 1) then
              let status_msg :=
                match default (Some (JStr "Unknown error"))
                              (json_get "status_msg" json_data) with
                | Some (JStr m) => m
                | Some (JInt z) => pretty z
                | Some j => py_repr env j
                | None => "Unknown error"
                end in
              if existsb (json_eq_int api_status_code) [8; 10007; 10008] then
                raise (Exception_ ("account error: " +:+ status_msg))
              else mret (JsonData json_data)
            else mret (JsonData json_data)
        end
    end.

(** The request handed to the transport is logged with the credential and
    the proxy that are bound at that moment. *)
Definition log_dispatch (req : HttpRequest) : M unit :=
  acc ← gets bound_account;
  via ← gets bound_ip;
  now ← gets clock;
  emit (EvDispatch req acc via now).

(** The three parts of the body of [request]: the client is made ready,
    the request goes through the transport, the response is read. *)

Definition prepare_request (method url : string) (params body : option Params)
    (kwargs : Kwargs) : M HttpRequest :=
  check_ip_expired;;
  hdrs ← match kw_headers kwargs with
         | Some h => mret h
         | None => gets _headers
         end;
  current_proxy ← gets _proxies;
  client ← gets _http_client;
  cached ← gets _cached_proxy;
  (if bool_decide (client = None) || negb (bool_decide (cached = current_proxy)) then
     modify (set_http_client (Some {| client_proxy := current_proxy |}));;
     modify (set_cached_proxy current_proxy)
   else mret tt);;
  client ← gets _http_client;
  mret {| method := method; url := url; params := params; body := body;
          headers := hdrs; via_proxy := client ≫= client_proxy |}.

(** [await self._http_client.request(method, url, **kwargs)] *)
Definition transport (req : HttpRequest) : M HttpResponse :=
  n ← gets (fun s => count_events is_dispatch (trace s));
  log_dispatch req;;
  match server env n req with
  | HttpRaise e => raise e
  | HttpReply response =>
      modify (fun s => set_clock (clock s + elapsed response)%Q s);;
      mret response
  end.

Definition interpret_response (kwargs : Kwargs) (response : HttpResponse) : M ReqResult :=
  if kw_return_response kwargs then mret (RawResponse response)
  else if status_code response =? 401 then raise (Exception_ "account unauthorized")
  else if status_code response =? 403 then raise (Exception_ "account blocked")
  else if status_code response =? 429 then raise (Exception_ "rate limited")
  else if negb (status_code response =? 200) then
    raise (DataFetchError ("HTTP " +:+ pretty (status_code response) +:+ " error"))
  else
    try_except (read_response response)
      (except_Exception (fun e =>
         if str_in (str_exn e) own_errors then raise e
         else raise (DataFetchError (str_exn e)))).

(** One call of the body of [request]. *)
Definition request_attempt (method url : string) (params body : option Params)
    (kwargs : Kwargs) : M ReqResult :=
  req ← prepare_request method url params body kwargs;
  response ← transport req;
  interpret_response kwargs response.

(** [@retry(stop=stop_after_attempt(5), wait=wait_fixed(1))] *)
Definition request (method url : string) (params body : option Params)
    (kwargs : Kwargs) : M ReqResult :=
  retry 5 1 (request_attempt method url params body kwargs).

(** *** Identity binding *)

Definition GetFn := string -> option Params -> Kwargs -> M ReqResult.

Definition check_login_status_via_user_self (get : GetFn) : M bool :=
  let params := [("max_cursor", "0"); ("count", "20")] in
  try_except
    (response ← get HISTORY_URI (Some params) no_kwargs;
     match response with
     | RawResponse _ => raise (AttributeError "'Response' object has no attribute 'get'")
     | JsonData j =>
         match json_get "status_code" j with
         | None => raise (AttributeError "object has no attribute 'get'")
         | Some found => mret (json_eq_int (default (JInt (-1)) found) 0)
         end
     end)
    (except_Exception (fun _ => mret false)).

Definition pong (get : GetFn) : M bool :=
  try_except
    (is_logged_in ← check_login_status_via_user_self get;
     mret (is_logged_in : bool))
    (except_Exception (fun _ => mret false)).

(** The test of [update_account_info] for dropping the cached HTTP
    client. *)
Definition account_or_ip_changed (s : State) (fresh : nat) : bool :=
  match bound s with
  | None => true
  | Some cur =>
      match bindings s !! fresh with
      | None => true
      | Some new =>
          let ident (b : AccountWithIpModel) :=
            field.id <$> (accounts s !! field.account b) in
          negb (bool_decide (ident cur = ident new))
          || match field.ip_info cur, field.ip_info new with
             | Some p, Some q => negb (String.eqb (ip p) (ip q))
             | _, _ => false
             end
      end
  end.

Definition max_retries : nat := 10.

(** One turn of the [while] loop; [remaining] is [max_retries - retry_count]
    after the increment. *)
Definition update_account_turn (get : GetFn) (remaining : nat) : M bool :=
  try_except
    (account_info ← get_account_with_ip_info env;
     changed ← gets (fun s => account_or_ip_changed s account_info);
     (if (changed : bool) then _reset_http_client else mret tt);;
     modify (set_account_info (Some account_info));;
     have_account ← pong get;
     (if (have_account : bool) then mret tt
      else client_mark_account_invalid (Some account_info));;
     mret have_account)
    (except_Exception (fun _ =>
       (if decide (remaining = 0%nat) then mret tt else sleep 2);;
       mret false)).

Fixpoint update_account_loop (get : GetFn) (remaining : nat) : M bool :=
  match remaining with
  | O => mret false
  | S remaining' =>
      have_account ← update_account_turn get remaining';
      if (have_account : bool) then mret true
      else update_account_loop get remaining'
  end.

Definition update_account_info_with (get : GetFn) : M unit :=
  have_account ← update_account_loop get max_retries;
  if (have_account : bool) then mret tt
  else raise (Exception_ "Failed to get valid account after maximum retries").

(** *** get *)

(** The [try] block of [get]; the second component is the value of the
    local [params] when the block is left. *)
Definition get_try (uri : string) (params : option Params) (kwargs : Kwargs)
    : State -> (Res ReqResult * option Params) * State := fun s =>
  match _pre_url_params uri params s with
  | (Ok p, s1) =>
      let '(r, s2) := request "GET" (DOUYIN_API_URL env +:+ uri) (Some p) None kwargs s1 in
      ((r, Some p), s2)
  | (Raise e, s1) => ((Raise e, params), s1)
  | (OutOfFuel, s1) => ((OutOfFuel, params), s1)
  end.

Definition sign_and_request (uri : string) (params : option Params) (kwargs : Kwargs)
    : M ReqResult :=
  p ← _pre_url_params uri params;
  request "GET" (DOUYIN_API_URL env +:+ uri) (Some p) None kwargs.

(** The [except RetryError] clause of [get]. *)
Definition get_except (update_account_info : M unit) (uri : string)
    (params : option Params) (kwargs : Kwargs) (original_exception : Exn) : M ReqResult :=
  let exception_str := str_exn original_exception in
  if is_account_related exception_str then
    (cur ← gets account_info; client_mark_account_invalid cur);;
    update_account_info;;
    sign_and_request uri params kwargs
  else if is_rate_limited exception_str then
    sleep 10;;
    sign_and_request uri params kwargs
  else
    (cur ← gets account_info; client_mark_account_invalid cur);;
    update_account_info;;
    sign_and_request uri params kwargs.

Definition get_with (update_account_info : M unit) : GetFn := fun uri params kwargs s =>
  match get_try uri params kwargs s with
  | ((Raise (RetryError original_exception), params'), s') =>
      get_except update_account_info uri params' kwargs original_exception s'
  | ((r, _), s') => (r, s')
  end.

(** [get] re-enters itself through [update_account_info] and its login
    probe; [fuel] bounds the depth of that recursion. *)
Fixpoint get (fuel : nat) : GetFn :=
  match fuel with
  | O => fun _ _ _ => out_of_fuel
  | S fuel' => get_with (update_account_info_with (get fuel'))
  end.

Definition update_account_info (fuel : nat) : M unit :=
  update_account_info_with (get fuel).

(** *** post *)

Definition post_headers (s : State) : Headers :=
  dict_set "X-Secsdk-Csrf-Token" "DOWNGRADE"
    (dict_set "Content-Type" "application/x-www-form-urlencoded; charset=UTF-8"
       (dict_set "Referer" "https://www.douyin.com/discover" (_headers s))).

Definition post_try (uri : string) (params data : option Params) (need_sign : bool)
    (kwargs : Kwargs) : State -> (Res ReqResult * option Params) * State := fun s =>
  match (if need_sign then p ← _pre_url_params uri params; mret (Some p)
         else mret params) s with
  | (Ok p, s1) =>
      let kw := {| kw_headers := Some (post_headers s1);
                   kw_return_response := kw_return_response kwargs |} in
      let '(r, s2) := request "POST" (DOUYIN_API_URL env +:+ uri) p data kw s1 in
      ((r, p), s2)
  | (Raise e, s1) => ((Raise e, params), s1)
  | (OutOfFuel, s1) => ((OutOfFuel, params), s1)
  end.

Definition sign_and_post (uri : string) (params data : option Params) (need_sign : bool)
    (kwargs : Kwargs) : M ReqResult :=
  hdrs ← gets post_headers;
  p ← (if need_sign then p ← _pre_url_params uri params; mret (Some p) else mret params);
  request "POST" (DOUYIN_API_URL env +:+ uri) p data
    {| kw_headers := Some hdrs; kw_return_response := kw_return_response kwargs |}.

Definition post_except (update_account_info : M unit) (uri : string)
    (params data : option Params) (need_sign : bool) (kwargs : Kwargs)
    (original_exception : Exn) : M ReqResult :=
  let exception_str := str_exn original_exception in
  if is_account_related exception_str then
    (cur ← gets account_info; client_mark_account_invalid cur);;
    update_account_info;;
    sign_and_post uri params data need_sign kwargs
  else if is_rate_limited exception_str then
    sleep 10;;
    sign_and_post uri params data need_sign kwargs
  else
    (cur ← gets account_info; client_mark_account_invalid cur);;
    update_account_info;;
    sign_and_post uri params data need_sign kwargs.

Definition post (fuel : nat) (uri : string) (params data : option Params)
    (need_sign : bool) (kwargs : Kwargs) : M ReqResult := fun s =>
  match post_try uri params data need_sign kwargs s with
  | ((Raise (RetryError original_exception), params'), s') =>
      post_except (update_account_info fuel) uri params' data need_sign kwargs
        original_exception s'
  | ((r, _), s') => (r, s')
  end.
End Client.

(** *** Typed fetch operations of [DouYinApiClient] *)

(** The double quote, for the JSON texts the client sends. *)
Definition dq : string := String (Ascii.ascii_of_nat 34) EmptyString.

(** douyin/field.py *)
Module SearchChannelType.
Definition GENERAL : string := "aweme_general".
End SearchChannelType.
Module SearchSortType.
Definition GENERAL : Z := 0.
End SearchSortType.
Module PublishTimeType.
Definition UNLIMITED : Z := 0.
End PublishTimeType.
Module HomeFeedTagIdType.
Definition ALL : Z := 0.
End HomeFeedTagIdType.

Section Operations.
Variable env : Env.

(** [res.get(key, {})] on what [get] returned. *)
Definition res_get (key : string) (res : ReqResult) : M (option Json) :=
  match res with
  | RawResponse _ => raise (AttributeError "'Response' object has no attribute 'get'")
  | JsonData j =>
      match json_get key j with
      | None => raise (AttributeError "object has no attribute 'get'")
      | Some v => mret v
      end
  end.

Definition the_verify_fp : M string :=
  v ← gets common_verify_params;
  match v with
  | Some c => mret (verify_fp c)
  | None => raise (AttributeError "'NoneType' object has no attribute 'verify_fp'")
  end.

Definition search_info_by_keyword (fuel : nat) (keyword : string) (offset : Z)
    (search_channel : string) (sort_type publish_time : Z) (search_id : string)
    : M ReqResult :=
  let query_params : Params :=
    [ ("search_channel", search_channel); ("enable_history", "1");
      ("keyword", keyword); ("search_source", "tab_search");
      ("query_correct_type", "1"); ("is_filter_search", "0");
      ("from_group_id", "7378810571505847586"); ("offset", pretty offset);
      ("count", "10"); ("need_filter_settings", "1"); ("list_type", "multi");
      ("search_id", search_id) ] in
  let query_params :=
    if negb (sort_type =? SearchSortType.GENERAL)
       || negb (publish_time =? PublishTimeType.UNLIMITED) then
      dict_set "search_source" "tab_search"
        (dict_set "is_filter_search" "1"
           (dict_set "filter_selected"
              ("{" +:+ dq +:+ "sort_type" +:+ dq +:+ ":" +:+ dq +:+ pretty sort_type
               +:+ dq +:+ "," +:+ dq +:+ "publish_time" +:+ dq +:+ ":" +:+ dq
               +:+ pretty publish_time +:+ dq +:+ "}")
              query_params))
    else query_params in
  get env fuel SEARCH_URI (Some query_params) no_kwargs.

(** The detail call copies the headers before [get] runs and hands the
    copy over as a keyword argument. *)
Definition get_video_by_id (fuel : nat) (aweme_id : string) : M (option Json) :=
  fp ← the_verify_fp;
  verify ← gets _verify_params;
  let params := dict_update [("aweme_id", aweme_id); ("verifyFp", fp); ("fp", fp)] verify in
  hdrs ← gets _headers;
  let hdrs := if dict_has "Origin" hdrs then dict_del "Origin" hdrs else hdrs in
  res ← get env fuel DETAIL_URI (Some params)
          {| kw_headers := Some hdrs; kw_return_response := false |};
  aweme_detail ← res_get "aweme_detail" res;
  match aweme_detail with
  | Some d => if json_truthy d then mret (Some d) else mret None
  | None => mret None
  end.

Definition search_referer (s : State) : string :=
  quote env ("https://www.douyin.com/search/" +:+ request_keyword_var s +:+
             "?aid=3a3cec5a-9e27-4040-b6aa-ef548c2c1138&publish_time=0&sort_type=0&source=search_history&type=general").

Definition extract_comments_from_dict (aweme_id : string) (comments_data : option Json)
    : M (list DouyinAwemeComment) :=
  match comments_data with
  | Some (JList items) =>
      foldr (fun item rest =>
               match _extract_comment_from_dict env aweme_id item with
               | inl e => raise e
               | inr c => l ← rest; mret (c :: l)
               end) (mret []) items
  | Some j => if json_truthy j
              then raise (AttributeError "object has no attribute 'get'")
              else mret []
  | None => mret []
  end.

(** [str(v)] of a value read from a document. *)
Definition json_str (v : Json) : string :=
  match v with
  | JStr t => t
  | JInt z => pretty z
  | _ => py_repr env v
  end.

Definition get_aweme_comments (fuel : nat) (aweme_id : string) (cursor : Json)
    : M (list DouyinAwemeComment * ReqResult) :=
  fp ← the_verify_fp;
  verify ← gets _verify_params;
  let params :=
    dict_update [("aweme_id", aweme_id); ("cursor", json_str cursor); ("count", "20");
                 ("item_type", "0"); ("verifyFp", fp); ("fp", fp)] verify in
  referer ← gets search_referer;
  hdrs ← gets _headers;
  let hdrs := dict_set "Referer" referer hdrs in
  res ← get env fuel COMMENT_URI (Some params)
          {| kw_headers := Some hdrs; kw_return_response := false |};
  comments_data ← res_get "comments" res;
  comments ← extract_comments_from_dict aweme_id comments_data;
  mret (comments, res).

Definition get_sub_comments (fuel : nat) (comment_id : string) (cursor : Json)
    (aweme_id : string) : M (list DouyinAwemeComment * ReqResult) :=
  fp ← the_verify_fp;
  verify ← gets _verify_params;
  let params :=
    dict_update [("comment_id", comment_id); ("cursor", json_str cursor); ("count", "20");
                 ("item_type", "0"); ("verifyFp", fp); ("fp", fp)] verify in
  referer ← gets search_referer;
  hdrs ← gets _headers;
  let hdrs := dict_set "Referer" referer hdrs in
  res ← get env fuel REPLY_URI (Some params)
          {| kw_headers := Some hdrs; kw_return_response := false |};
  comments_data ← res_get "comments" res;
  comments ← (if negb (String.eqb aweme_id "")
              then extract_comments_from_dict aweme_id comments_data
              else mret []);
  mret (comments, res).

Definition get_user_info (fuel : nat) (sec_user_id : string) : M (option Json) :=
  fp ← the_verify_fp;
  let params := [ ("sec_user_id", sec_user_id); ("publish_video_strategy_type", "2");
                  ("personal_center_strategy", "1"); ("verifyFp", fp); ("fp", fp) ] in
  res ← get env fuel PROFILE_URI (Some params) no_kwargs;
  user_info ← res_get "user" res;
  match user_info with
  | Some u => if json_truthy u then mret (Some u) else mret None
  | None => mret None
  end.

Definition get_user_aweme_posts (fuel : nat) (sec_user_id max_cursor : string)
    : M ReqResult :=
  fp ← the_verify_fp;
  let params := [ ("sec_user_id", sec_user_id); ("count", "18");
                  ("max_cursor", max_cursor); ("locate_query", "false");
                  ("publish_video_strategy_type", "2"); ("verifyFp", fp); ("fp", fp) ] in
  get env fuel POST_URI (Some params) no_kwargs.

Definition get_homefeed_aweme_list (fuel : nat) (tag_id refresh_index count : Z)
    : M ReqResult :=
  let params : Params :=
    [ ("device_platform", "webapp"); ("aid", "6383"); ("channel", "channel_pc_web");
      ("module_id", "3003101"); ("count", pretty count); ("filterGids", "");
      ("presented_ids", ""); ("refresh_index", pretty refresh_index);
      ("refer_id", ""); ("refer_type", "10");
      ("awemePcRecRawData",
       "{" +:+ dq +:+ "is_xigua_user" +:+ dq +:+ ":0," +:+ dq +:+ "is_client" +:+ dq
       +:+ ":false}");
      ("Seo-Flag", "0"); ("install_time", "1749390216"); ("tag_id", pretty tag_id);
      ("use_lite_type", "0"); ("xigua_user", "0"); ("pc_client_type", "1");
      ("pc_libra_divert", "Mac"); ("update_version_code", "170400");
      ("support_h265", "1"); ("support_dash", "1"); ("version_code", "170400");
      ("version_name", "17.4.0"); ("cookie_enabled", "true");
      ("screen_width", "2560"); ("screen_height", "1440"); ("browser_language", "en");
      ("browser_platform", "MacIntel"); ("browser_name", "Chrome");
      ("browser_version", "135.0.0.0"); ("browser_online", "true");
      ("engine_name", "Blink"); ("engine_version", "135.0.0.0");
      ("os_name", "Mac OS"); ("os_version", "10.15.7"); ("cpu_core_num", "10");
      ("device_memory", "8"); ("platform", "PC"); ("downlink", "10");
      ("effective_type", "4g"); ("round_trip_time", "100") ] in
  post env fuel FEED_URI (Some params) None false no_kwargs.
End Operations.

(** ** The checkpoint store

    [repo/checkpoint] is not among the sources; its operations follow the
    specification's section on the Checkpoint Store. *)

Section CheckpointStore.
Import m_checkpoint.

Definition has_id (cid : string) (c : Checkpoint) : bool :=
  bool_decide (id c = Some cid).

Definition find_note (nid : string) (c : Checkpoint) : option CheckpointNote :=
  List.find (fun n => String.eqb (note_id n) nid) (crawled_note_list c).

Definition with_notes (l : list CheckpointNote) (c : Checkpoint) : Checkpoint :=
  {| id := id c; platform := platform c; mode := mode c;
     current_search_keyword := current_search_keyword c;
     current_search_page := current_search_page c;
     current_search_id := current_search_id c;
     current_creator_id := current_creator_id c;
     current_creator_page := current_creator_page c;
     current_homefeed_cursor := current_homefeed_cursor c;
     current_homefeed_note_index := current_homefeed_note_index c;
     crawled_note_list := l |}.

Definition with_id (i : option string) (c : Checkpoint) : Checkpoint :=
  {| id := i; platform := platform c; mode := mode c;
     current_search_keyword := current_search_keyword c;
     current_search_page := current_search_page c;
     current_search_id := current_search_id c;
     current_creator_id := current_creator_id c;
     current_creator_page := current_creator_page c;
     current_homefeed_cursor := current_homefeed_cursor c;
     current_homefeed_note_index := current_homefeed_note_index c;
     crawled_note_list := crawled_note_list c |}.

Definition with_search (k : option string) (p : option Z) (sid : option string)
    (c : Checkpoint) : Checkpoint :=
  {| id := id c; platform := platform c; mode := mode c;
     current_search_keyword := k;
     current_search_page := p;
     current_search_id := sid;
     current_creator_id := current_creator_id c;
     current_creator_page := current_creator_page c;
     current_homefeed_cursor := current_homefeed_cursor c;
     current_homefeed_note_index := current_homefeed_note_index c;
     crawled_note_list := crawled_note_list c |}.

(** Modelled from the spec: [load_by_id(id) -> Checkpoint | NotFound]
    ([CheckpointRepoManager.load_checkpoint_by_id], missing). *)
Definition load_checkpoint_by_id (cid : string) : M (option Checkpoint) :=
  gets (fun s => List.find (has_id cid) (checkpoints s)).

(** Modelled from the spec: [load(platform, mode, id_or_empty)] loads by
    explicit id, or the most recently created checkpoint of the pair when
    the id is empty ([CheckpointRepoManager.load_checkpoint], missing). *)
Definition load_checkpoint (pf md cid : string) : M (option Checkpoint) :=
  if String.eqb cid "" then
    gets (fun s => List.find (fun c => String.eqb (platform c) pf && String.eqb (mode c) md)
                             (rev (checkpoints s)))
  else load_checkpoint_by_id cid.

(** Modelled from the spec: [update(checkpoint)] is a full overwrite of the
    stored record with that id ([CheckpointRepoManager.update_checkpoint],
    missing). *)
Definition update_checkpoint (c : Checkpoint) : M unit :=
  modify (fun s =>
    set_checkpoints
      (map (fun c' => if bool_decide (id c' = id c) then c else c') (checkpoints s)) s).

(** Modelled from the spec: [create] allocates and persists a checkpoint,
    assigning an id on first persist; a record that has its id is
    overwritten ([CheckpointRepoManager.save_checkpoint], missing). *)
Definition save_checkpoint (c : Checkpoint) : M Checkpoint :=
  match id c with
  | Some _ => update_checkpoint c;; mret c
  | None =>
      n ← gets (fun s => length (checkpoints s));
      let c' := with_id (Some ("checkpoint-" +:+ pretty n)) c in
      modify (fun s => set_checkpoints (checkpoints s ++ [c']) s);;
      mret c'
  end.

(** Modelled from the spec: [item_exists_and_done] is true only if the item
    is present and [item_crawled] is true
    ([check_note_is_crawled_in_checkpoint], missing). *)
Definition check_note_is_crawled_in_checkpoint (cid nid : string) : M bool :=
  c ← load_checkpoint_by_id cid;
  mret (match c ≫= find_note nid with
        | Some n => is_success_crawled n
        | None => false
        end).

(** Modelled from the spec: [comments_done] is true only if the item is
    present and [comments_crawled] is true
    ([check_note_comments_is_crawled_in_checkpoint], missing). *)
Definition check_note_comments_is_crawled_in_checkpoint (cid nid : string) : M bool :=
  c ← load_checkpoint_by_id cid;
  mret (match c ≫= find_note nid with
        | Some n => is_success_crawled_comments n
        | None => false
        end).

(** Modelled from the spec: [get_comment_cursor -> cursor|empty]
    ([get_note_comment_cursor], missing). *)
Definition get_note_comment_cursor (cid nid : string) : M (option string) :=
  c ← load_checkpoint_by_id cid;
  mret (n ← c ≫= find_note nid; current_note_comment_cursor n).

(** Modelled from the spec: [update_item_status] is a partial update of the
    item with that id, leaving unspecified fields unchanged
    ([update_note_to_checkpoint] and [update_note_comment_cursor],
    missing). *)
Definition update_item_status (cid nid : string) (item_crawled comments_crawled : option bool)
    (comment_cursor : option string) : M unit :=
  modify (fun s =>
    set_checkpoints
      (map (fun c =>
         if has_id cid c then
           with_notes
             (map (fun n =>
                if String.eqb (note_id n) nid then
                  {| note_id := note_id n;
                     extra_params_info := extra_params_info n;
                     is_success_crawled := default (is_success_crawled n) item_crawled;
                     is_success_crawled_comments :=
                       default (is_success_crawled_comments n) comments_crawled;
                     current_note_comment_cursor :=
                       match comment_cursor with
                       | Some cur => Some cur
                       | None => current_note_comment_cursor n
                       end |}
                else n) (crawled_note_list c)) c
         else c) (checkpoints s)) s).

Definition update_note_comment_cursor (cid nid comment_cursor : string)
    (is_success_crawled_comments : option bool) : M unit :=
  update_item_status cid nid None is_success_crawled_comments (Some comment_cursor).
End CheckpointStore.

(** ** douyin/processors/comment_processor.py

    The tasks of one batch are run one after the other in the order of their
    creation, which is the schedule the comment semaphore enforces when the
    bound is 1; the gate itself is modelled with all interleavings in
    [Module Gate]. The loops take their iteration budget from [fuel]. *)

Section CommentProcessor.
Variable env : Env.

Definition res_get_default (key : string) (dflt : Json) (res : ReqResult) : M Json :=
  v ← res_get key res; mret (default dflt v).

Definition store_comments (aweme_id : string) (comments : list DouyinAwemeComment) : M unit :=
  emit (EvStoreComments aweme_id (length comments)).

Definition crawler_sleep : M unit :=
  cfg ← gets config; sleep (CRAWLER_TIME_SLEEP cfg).

(** The inner [while sub_comments_has_more] loop for one comment. *)
Fixpoint sub_comment_pages (n fuel : nat) (aweme_id comment_id : string) (cursor : Json)
    : M (list DouyinAwemeComment) :=
  match n with
  | O => out_of_fuel
  | S n' =>
      '(sub_comments, res) ← get_sub_comments env fuel comment_id cursor aweme_id;
      sub_comments_has_more ← res_get_default "has_more" (JInt 0) res;
      sub_comments_cursor ← res_get_default "cursor" (JInt 0) res;
      match sub_comments with
      | [] =>
          if json_truthy sub_comments_has_more
          then sub_comment_pages n' fuel aweme_id comment_id sub_comments_cursor
          else mret []
      | _ =>
          store_comments aweme_id sub_comments;;
          crawler_sleep;;
          if json_truthy sub_comments_has_more then
            rest ← sub_comment_pages n' fuel aweme_id comment_id sub_comments_cursor;
            mret (sub_comments ++ rest)
          else mret sub_comments
      end
  end.

Definition reply_comment_total (c : DouyinAwemeComment) : M Z :=
  if String.eqb (sub_comment_count c) "" then mret 0
  else match int_of_str env (sub_comment_count c) with
       | Some z => mret z
       | None => raise (ValueError "invalid literal for int() with base 10")
       end.

Fixpoint sub_comments_of (fuel : nat) (aweme_id : string) (comments : list DouyinAwemeComment)
    : M (list DouyinAwemeComment) :=
  match comments with
  | [] => mret []
  | comment :: rest =>
      total ← reply_comment_total comment;
      here ← (if 0 <? total
              then sub_comment_pages fuel fuel aweme_id (comment_id comment) (JInt 0)
              else mret []);
      more ← sub_comments_of fuel aweme_id rest;
      mret (here ++ more)
  end.

Definition get_comments_all_sub_comments (fuel : nat) (aweme_id : string)
    (comments : list DouyinAwemeComment) : M (list DouyinAwemeComment) :=
  cfg ← gets config;
  if negb (ENABLE_GET_SUB_COMMENTS cfg) then mret []
  else sub_comments_of fuel aweme_id comments.

Definition cap_reached (cfg : Config) (result : list DouyinAwemeComment) : bool :=
  negb (PER_NOTE_MAX_COMMENTS_COUNT cfg =? 0)
  && (PER_NOTE_MAX_COMMENTS_COUNT cfg <=? Z.of_nat (length result)).

(** The [while comments_has_more] loop. It returns the collected comments
    together with the values of [comments_cursor] and [comments_has_more]
    at the moment the loop is left. *)
Fixpoint comments_loop (n fuel : nat) (aweme_id checkpoint_id : string)
    (result : list DouyinAwemeComment) (comments_cursor : Json)
    : M (list DouyinAwemeComment * Json * Json) :=
  match n with
  | O => out_of_fuel
  | S n' =>
      '(comments, comments_res) ← get_aweme_comments env fuel aweme_id comments_cursor;
      comments_has_more ← res_get_default "has_more" (JInt 0) comments_res;
      comments_cursor ← res_get_default "cursor" (JInt 0) comments_res;
      (if negb (String.eqb checkpoint_id "")
          && negb (is_JNull comments_cursor)
       then update_note_comment_cursor checkpoint_id aweme_id
              (json_str env comments_cursor) None
       else mret tt);;
      match comments with
      | [] =>
          if json_truthy comments_has_more
          then comments_loop n' fuel aweme_id checkpoint_id result comments_cursor
          else mret (result, comments_cursor, comments_has_more)
      | _ =>
          let result := result ++ comments in
          store_comments aweme_id comments;;
          cfg ← gets config;
          if cap_reached cfg result then
            mret (result, comments_cursor, comments_has_more)
          else
            crawler_sleep;;
            sub_comments ← get_comments_all_sub_comments fuel aweme_id comments;
            let result := result ++ sub_comments in
            if json_truthy comments_has_more
            then comments_loop n' fuel aweme_id checkpoint_id result comments_cursor
            else mret (result, comments_cursor, comments_has_more)
      end
  end.

(** The cursor to resume from. *)
Definition resume_cursor (aweme_id checkpoint_id : string) : M Json :=
  if negb (String.eqb checkpoint_id "") then
    latest_comment_cursor ← get_note_comment_cursor checkpoint_id aweme_id;
    match latest_comment_cursor with
    | Some l =>
        if negb (String.eqb l "") then
          match int_of_str env l with
          | Some z => mret (JInt z)
          | None => mret (JInt 0)
          end
        else mret (JInt 0)
    | None => mret (JInt 0)
    end
  else mret (JInt 0).

(** [get_aweme_all_comments], returning beside the comments the last value
    of [comments_has_more]. *)
Definition get_aweme_all_comments_more (fuel : nat) (aweme_id checkpoint_id : string)
    : M (list DouyinAwemeComment * Json) :=
  start ← resume_cursor aweme_id checkpoint_id;
  '(result, comments_cursor, comments_has_more) ←
    comments_loop fuel fuel aweme_id checkpoint_id [] start;
  (if negb (String.eqb checkpoint_id "")
   then update_note_comment_cursor checkpoint_id aweme_id
          (json_str env comments_cursor) (Some true)
   else mret tt);;
  mret (result, comments_has_more).

Definition get_aweme_all_comments (fuel : nat) (aweme_id checkpoint_id : string)
    : M (list DouyinAwemeComment) :=
  '(result, _) ← get_aweme_all_comments_more fuel aweme_id checkpoint_id;
  mret result.

Definition get_comments_async_task (fuel : nat) (aweme_id checkpoint_id : string) : M unit :=
  try_except (get_aweme_all_comments fuel aweme_id checkpoint_id;; mret tt)
    (fun e => match e with DataFetchError _ => Some (mret tt) | _ => None end).

(** The ids for which [batch_get_aweme_comments] creates a task. *)
Fixpoint comment_task_list (aweme_list : list string) (checkpoint_id : string)
    : M (list string) :=
  match aweme_list with
  | [] => mret []
  | aweme_id :: rest =>
      skip ← (if String.eqb aweme_id "" then mret true
              else if negb (String.eqb checkpoint_id "")
                   then check_note_comments_is_crawled_in_checkpoint checkpoint_id aweme_id
                   else mret false);
      tasks ← comment_task_list rest checkpoint_id;
      mret (if (skip : bool) then tasks else aweme_id :: tasks)
  end.

(** [asyncio.wait] collects a failed task without raising; only a
    [KeyboardInterrupt] leaves the event loop. *)
Definition run_task (t : M unit) : M unit := fun s =>
  match t s with
  | (Raise KeyboardInterrupt, s') => (Raise KeyboardInterrupt, s')
  | (Raise _, s') => (Ok tt, s')
  | r => r
  end.

Fixpoint wait_all (tasks : list (M unit)) : M unit :=
  match tasks with
  | [] => mret tt
  | t :: rest => run_task t;; wait_all rest
  end.

Definition batch_get_aweme_comments (fuel : nat) (aweme_list : list string)
    (checkpoint_id : string) : M unit :=
  cfg ← gets config;
  if negb (ENABLE_GET_COMMENTS cfg) then mret tt
  else
    task_list ← comment_task_list aweme_list checkpoint_id;
    wait_all (map (fun aweme_id => get_comments_async_task fuel aweme_id checkpoint_id)
                  task_list).
End CommentProcessor.

(** ** Coroutines with local variables

    A handler's locals keep the value they had when an exception left a
    [try] block, so they are threaded beside the process state. *)

Definition LM (L A : Type) : Type := L -> State -> (Res A * L) * State.

#[global] Instance LM_ret {L} : MRet (LM L) := fun A a l s => ((Ok a, l), s).

#[global] Instance LM_bind {L} : MBind (LM L) := fun A B k m l s =>
  match m l s with
  | ((Ok a, l'), s') => k a l' s'
  | ((Raise e, l'), s') => ((Raise e, l'), s')
  | ((OutOfFuel, l'), s') => ((OutOfFuel, l'), s')
  end.

Definition lift {L A} (m : M A) : LM L A := fun l s =>
  let '(r, s') := m s in ((r, l), s').
Definition lget {L} : LM L L := fun l s => ((Ok l, l), s).
Definition lmodify {L} (f : L -> L) : LM L unit := fun l s => ((Ok tt, f l), s).
Definition lraise {L A} (e : Exn) : LM L A := fun l s => ((Raise e, l), s).

Definition ltry_except {L A} (m : LM L A) (h : Exn -> option (LM L A)) : LM L A :=
  fun l s =>
    match m l s with
    | ((Raise e, l'), s') =>
        match h e with Some k => k l' s' | None => ((Raise e, l'), s') end
    | r => r
    end.

Definition ltry_finally {L A} (m : LM L A) (fin : LM L unit) : LM L A := fun l s =>
  match m l s with
  | ((OutOfFuel, l'), s') => ((OutOfFuel, l'), s')
  | ((r, l'), s') =>
      match fin l' s' with
      | ((Ok _, l''), s'') => ((r, l''), s'')
      | ((Raise e, l''), s'') => ((Raise e, l''), s'')
      | ((OutOfFuel, l''), s'') => ((OutOfFuel, l''), s'')
      end
  end.

(** How a loop body is left. *)
Inductive Flow := Next | Break | Return.

(** ** Strings of the keyword list *)

Definition is_space (c : Ascii.ascii) : bool :=
  let n := Ascii.nat_of_ascii c in
  (n =? 32)%nat || ((9 <=? n)%nat && (n <=? 13)%nat).

Fixpoint lstrip (s : string) : string :=
  match s with
  | String c rest => if is_space c then lstrip rest else s
  | EmptyString => EmptyString
  end.

Fixpoint rstrip (s : string) : string :=
  match s with
  | EmptyString => EmptyString
  | String c rest =>
      match rstrip rest with
      | EmptyString => if is_space c then EmptyString else String c EmptyString
      | rest' => String c rest'
      end
  end.

Definition strip (s : string) : string := rstrip (lstrip s).

(** [s.split(",")] *)
Fixpoint split_comma (s : string) : list string :=
  match s with
  | EmptyString => [EmptyString]
  | String c rest =>
      if (Ascii.nat_of_ascii c =? 44)%nat then EmptyString :: split_comma rest
      else match split_comma rest with
           | w :: ws => String c w :: ws
           | [] => [String c EmptyString]
           end
  end.

(** ** douyin/handlers/search_handler.py *)

Record SearchLocals := {
  checkpoint : Checkpoint;
  page : Z;
  dy_search_id : option string;
  saved_aweme_count : Z
}.

Section SearchHandler.
Variable env : Env.
Import m_checkpoint.

Definition dy_limit_count : Z := 20.

Definition _get_search_keyword_list (cfg : Config) : list string :=
  if String.eqb (KEYWORDS cfg) "" then []
  else filter (fun k => k ≠ "") (map strip (split_comma (KEYWORDS cfg))).

(** [x[0]] for a value read from a document. *)
Definition json_first (w : Json) : Exn + Json :=
  match w with
  | JList (x :: _) => inr x
  | JList [] => inl (IndexError "list index out of range")
  | JStr (String c _) => inr (JStr (String c EmptyString))
  | JStr EmptyString => inl (IndexError "string index out of range")
  | JDict _ => inl (KeyError "0")
  | _ => inl (TypeError "object is not subscriptable")
  end.

(** [post_item.get("aweme_info") or
     post_item.get("aweme_mix_info", {}).get("mix_items", [{}])[0]] *)
Definition item_aweme_info (post_item : Json) : Exn + Json :=
  match post_item with
  | JDict kv =>
      let second :=
        match default (JDict []) (dict_get "aweme_mix_info" kv) with
        | JDict m => json_first (default (JList [JDict []]) (dict_get "mix_items" m))
        | _ => inl (AttributeError "object has no attribute 'get'")
        end in
      match dict_get "aweme_info" kv with
      | Some v => if json_truthy v then inr v else second
      | None => second
      end
  | _ => inl (AttributeError "object has no attribute 'get'")
  end.

Definition set_saved (n : Z) (l : SearchLocals) : SearchLocals :=
  {| checkpoint := checkpoint l; page := page l;
     dy_search_id := dy_search_id l; saved_aweme_count := n |}.
Definition set_page (p : Z) (l : SearchLocals) : SearchLocals :=
  {| checkpoint := checkpoint l; page := p;
     dy_search_id := dy_search_id l; saved_aweme_count := saved_aweme_count l |}.
Definition set_search_id (i : option string) (l : SearchLocals) : SearchLocals :=
  {| checkpoint := checkpoint l; page := page l;
     dy_search_id := i; saved_aweme_count := saved_aweme_count l |}.
Definition set_checkpoint (c : Checkpoint) (l : SearchLocals) : SearchLocals :=
  {| checkpoint := c; page := page l;
     dy_search_id := dy_search_id l; saved_aweme_count := saved_aweme_count l |}.

Definition checkpointing (cfg : Config) (l : SearchLocals) : option string :=
  if ENABLE_CHECKPOINT cfg then
    match id (checkpoint l) with
    | Some i => if String.eqb i "" then None else Some i
    | None => None
    end
  else None.

(** The [for post_item in post_item_list] loop; it returns
    [aweme_id_list]. *)
Fixpoint search_items (post_item_list : list Json) : LM SearchLocals (list string) :=
  match post_item_list with
  | [] => mret []
  | post_item :: rest =>
      match item_aweme_info post_item with
      | inl (TypeError _) | inl (IndexError _) => search_items rest
      | inl e => lraise e
      | inr aweme_info =>
          match json_get "aweme_id" aweme_info with
          | None => lraise (AttributeError "object has no attribute 'get'")
          | Some found =>
              let aweme_id := default (JStr "") found in
              if negb (json_truthy aweme_id) then search_items rest
              else
                let aid := json_str env aweme_id in
                cfg ← lift (gets config);
                l ← lget;
                crawled ← match checkpointing cfg l with
                          | Some cid => lift (check_note_is_crawled_in_checkpoint cid aid)
                          | None => mret false
                          end;
                (if (crawled : bool) then
                   lmodify (fun l => set_saved (saved_aweme_count l + 1) l)
                 else if json_truthy aweme_info then
                   match _extract_aweme_from_dict env aweme_info with
                   | Some e => lraise e
                   | None =>
                       lift (emit (EvStoreAweme aid));;
                       lmodify (fun l => set_saved (saved_aweme_count l + 1) l)
                   end
                 else mret tt);;
                ids ← search_items rest;
                mret (aid :: ids)
          end
      end
  end.

(** The items of [posts_res.get("data", [])] as [len] and [for] see
    them. *)
Definition as_sequence (v : Json) : Exn + list Json :=
  match v with
  | JList l => inr l
  | JDict kv => inr (map (fun p => JStr (fst p)) kv)
  | JStr t => inr (map (fun c => JStr (String c EmptyString)) (String.list_ascii_of_string t))
  | _ => inl (TypeError "object has no len()")
  end.

Definition publish_time_values : list Z := [0; 1; 7; 180].

(** The body of the [try] block of one turn of the page loop. *)
Definition search_try (fuel : nat) (keyword : string) : LM SearchLocals Flow :=
  cfg ← lift (gets config);
  l ← lget;
  (if existsb (Z.eqb (PUBLISH_TIME_TYPE cfg)) publish_time_values then mret tt
   else lraise (ValueError "is not a valid PublishTimeType"));;
  posts_res ← lift (search_info_by_keyword env fuel keyword
                      ((page l - 1) * dy_limit_count)
                      SearchChannelType.GENERAL SearchSortType.GENERAL
                      (PUBLISH_TIME_TYPE cfg) (default "None" (dy_search_id l)));
  match posts_res with
  | RawResponse _ => lraise (TypeError "argument of type 'Response' is not iterable")
  | JsonData (JDict kv) =>
      if negb (dict_has "data" kv) then mret Break
      else
        match default (JDict []) (dict_get "extra" kv) with
        | JDict extra =>
            lmodify (set_search_id
                       (Some (json_str env (default (JStr "") (dict_get "logid" extra)))));;
            match as_sequence (default (JList []) (dict_get "data" kv)) with
            | inl e => lraise e
            | inr [] => mret Break
            | inr post_item_list =>
                aweme_id_list ← search_items post_item_list;
                l ← lget;
                lift (batch_get_aweme_comments env fuel aweme_id_list
                        (default "" (id (checkpoint l))));;
                lmodify (fun l => set_page (page l + 1) l);;
                lift (crawler_sleep);;
                mret Next
            end
        | _ => lraise (AttributeError "object has no attribute 'get'")
        end
  | JsonData _ => lraise (TypeError "argument is not iterable")
  end.

(** [checkpoint_data] of the two [except] clauses. *)
Definition checkpoint_snapshot : LM SearchLocals (option Checkpoint) :=
  l ← lget;
  match id (checkpoint l) with
  | Some i => if String.eqb i "" then mret None else lift (load_checkpoint_by_id i)
  | None => mret None
  end.

Definition print_interrupt_info (reason keyword : string) : LM SearchLocals unit :=
  checkpoint_data ← checkpoint_snapshot;
  l ← lget;
  lift (emit (EvInterruptInfo reason checkpoint_data (saved_aweme_count l) keyword (page l))).

Definition search_except (keyword : string) (e : Exn) : option (LM SearchLocals Flow) :=
  match e with
  | KeyboardInterrupt =>
      Some (print_interrupt_info "用户中断 (Ctrl+C)" keyword;; lraise KeyboardInterrupt)
  | CancelledError => None
  | ex =>
      Some (print_interrupt_info ("发生异常: " +:+ String.substring 0 100 (str_exn ex)) keyword;;
            mret Return)
  end.

Definition search_finally (keyword : string) : LM SearchLocals unit :=
  cfg ← lift (gets config);
  l ← lget;
  match checkpointing cfg l with
  | Some _ =>
      let c := with_search (Some keyword) (Some (page l)) (dy_search_id l) (checkpoint l) in
      lmodify (set_checkpoint c);;
      lift (update_checkpoint c)
  | None => mret tt
  end.

Definition search_turn (fuel : nat) (keyword : string) : LM SearchLocals Flow :=
  ltry_finally (ltry_except (search_try fuel keyword) (search_except keyword))
               (search_finally keyword).

(** [while saved_aweme_count < config.CRAWLER_MAX_NOTES_COUNT]: [Return]
    when a turn returned from [search], [Next] when the loop is over. *)
Fixpoint search_pages (n fuel : nat) (keyword : string) : LM SearchLocals Flow :=
  match n with
  | O => fun l s => ((OutOfFuel, l), s)
  | S n' =>
      cfg ← lift (gets config);
      l ← lget;
      if saved_aweme_count l <? CRAWLER_MAX_NOTES_COUNT cfg then
        flow ← search_turn fuel keyword;
        match flow with
        | Next => search_pages n' fuel keyword
        | Break => mret Next
        | Return => mret Return
        end
      else mret Next
  end.

(** [for idx, keyword in enumerate(keyword_list, 1)] *)
Fixpoint search_keywords (fuel : nat) (idx : nat) (keyword_list : list string)
    : LM SearchLocals Flow :=
  match keyword_list with
  | [] => mret Next
  | keyword :: rest =>
      lift (modify (set_source_keyword_var keyword));;
      l ← lget;
      let same := bool_decide (current_search_keyword (checkpoint l) = Some keyword) in
      match (if same then current_search_page (checkpoint l) else Some 1) with
      | None => lraise (TypeError "unsupported operand type(s) for -: 'NoneType' and 'int'")
      | Some p =>
          lmodify (fun l =>
            {| checkpoint := checkpoint l; page := p;
               dy_search_id := if same then current_search_id (checkpoint l) else Some "";
               saved_aweme_count := (p - 1) * dy_limit_count |});;
          lift (emit (EvSearchKeyword idx keyword));;
          flow ← search_pages fuel fuel keyword;
          match flow with
          | Return => mret Return
          | _ => search_keywords fuel (S idx) rest
          end
      end
  end.

Definition new_search_checkpoint : Checkpoint :=
  {| id := None; platform := DOUYIN_PLATFORM_NAME; mode := CRALER_TYPE_SEARCH;
     current_search_keyword := None; current_search_page := Some 1;
     current_search_id := None; current_creator_id := None;
     current_creator_page := None; current_homefeed_cursor := None;
     current_homefeed_note_index := None; crawled_note_list := [] |}.

Definition raise_floor (cfg : Config) : Config :=
  {| KEYWORDS := KEYWORDS cfg;
     PUBLISH_TIME_TYPE := PUBLISH_TIME_TYPE cfg;
     CRAWLER_MAX_NOTES_COUNT := dy_limit_count;
     MAX_CONCURRENCY_NUM := MAX_CONCURRENCY_NUM cfg;
     ENABLE_GET_COMMENTS := ENABLE_GET_COMMENTS cfg;
     ENABLE_GET_SUB_COMMENTS := ENABLE_GET_SUB_COMMENTS cfg;
     PER_NOTE_MAX_COMMENTS_COUNT := PER_NOTE_MAX_COMMENTS_COUNT cfg;
     ENABLE_CHECKPOINT := ENABLE_CHECKPOINT cfg;
     SPECIFIED_CHECKPOINT_ID := SPECIFIED_CHECKPOINT_ID cfg;
     CRAWLER_TIME_SLEEP := CRAWLER_TIME_SLEEP cfg;
     ENABLE_IP_PROXY := ENABLE_IP_PROXY cfg;
     KDL_USER_NAME := KDL_USER_NAME cfg;
     KDL_USER_PWD := KDL_USER_PWD cfg |}.

(** The keyword loop run on the handler's locals. *)
Definition search_run (fuel : nat) (keyword_list : list string) (c : Checkpoint)
    : M unit := fun s =>
  let '((r, _), s') :=
    search_keywords fuel 1 keyword_list
      {| checkpoint := c; page := 1; dy_search_id := Some "";
         saved_aweme_count := 0 |} s in
  (match r with
   | Ok _ => Ok tt
   | Raise e => Raise e
   | OutOfFuel => OutOfFuel
   end, s').

Definition initial_checkpoint (cfg : Config) : M Checkpoint :=
  if ENABLE_CHECKPOINT cfg then
    lastest_checkpoint ← load_checkpoint DOUYIN_PLATFORM_NAME CRALER_TYPE_SEARCH
                           (SPECIFIED_CHECKPOINT_ID cfg);
    match lastest_checkpoint with
    | Some c => mret c
    | None => save_checkpoint new_search_checkpoint
    end
  else mret new_search_checkpoint.

Definition search (fuel : nat) : M unit :=
  modify (fun s =>
    if CRAWLER_MAX_NOTES_COUNT (config s) <? dy_limit_count
    then set_config (raise_floor (config s)) s
    else s);;
  cfg ← gets config;
  match _get_search_keyword_list cfg with
  | [] => mret tt
  | keyword_list =>
      c ← initial_checkpoint cfg;
      search_run fuel keyword_list c
  end.
End SearchHandler.

(** ** The concurrency gate

    [DouYinCrawler.__init__] builds two [asyncio.Semaphore]s from
    [config.MAX_CONCURRENCY_NUM]; [get_aweme_detail_async_task] and
    [get_comments_async_task] run their bodies under [async with] on their
    own semaphore. The tasks of the event loop are modelled as a transition
    system: a step resumes one task at the [await] it is suspended on, and a
    schedule is any sequence of such steps. *)

Module Gate.
Inductive Kind := Detail | Comments.

#[global] Instance Kind_eq_dec : EqDecision Kind.
Proof. solve_decision. Defined.

(** How a task ends: the value it returns or the exception that leaves
    it. *)
Inductive Outcome :=
| Returned (found : bool)
| Failed (e : Exn).

(** Where a task is suspended. *)
Inductive Phase :=
| Created                         (* not started, or waiting in [acquire] *)
| Fetching                        (* slot held; awaiting the client *)
| Storing                         (* slot held; awaiting the store *)
| Checkpointing (pending : Outcome) (* slot held; in the [finally] clause *)
| Finished (r : Outcome).

Record Task := {
  kind : Kind;
  checkpoint_id : string;
  phase : Phase
}.

Record GateState := {
  crawler_aweme_task_semaphore : Z;   (* Semaphore._value *)
  crawler_comment_semaphore : Z;
  tasks : list Task
}.

(** What the world does to the task that is resumed. *)
Inductive Action :=
| Acquire                         (* [acquire] finds a free slot *)
| FetchReturns (found : bool)
| FetchRaises (e : Exn)
| StoreReturns
| StoreRaises (e : Exn)
| CheckpointReturns
| CheckpointRaises (e : Exn)
| Cancel.                         (* [CancelledError] at the current await *)

Definition sem (k : Kind) (st : GateState) : Z :=
  match k with
  | Detail => crawler_aweme_task_semaphore st
  | Comments => crawler_comment_semaphore st
  end.

Definition set_sem (k : Kind) (v : Z) (st : GateState) : GateState :=
  match k with
  | Detail => {| crawler_aweme_task_semaphore := v;
                 crawler_comment_semaphore := crawler_comment_semaphore st;
                 tasks := tasks st |}
  | Comments => {| crawler_aweme_task_semaphore := crawler_aweme_task_semaphore st;
                   crawler_comment_semaphore := v;
                   tasks := tasks st |}
  end.

Definition set_task (i : nat) (t : Task) (st : GateState) : GateState :=
  {| crawler_aweme_task_semaphore := crawler_aweme_task_semaphore st;
     crawler_comment_semaphore := crawler_comment_semaphore st;
     tasks := <[i := t]> (tasks st) |}.

Definition in_phase (p : Phase) (t : Task) : Task :=
  {| kind := kind t; checkpoint_id := checkpoint_id t; phase := p |}.

(** [Semaphore.acquire] when the semaphore is not locked, and
    [Semaphore.release]. *)
Definition acquire (i : nat) (t : Task) (st : GateState) : option GateState :=
  if 0 <? sem (kind t) st
  then Some (set_task i (in_phase Fetching t) (set_sem (kind t) (sem (kind t) st - 1) st))
  else None.

Definition release (k : Kind) (st : GateState) : GateState :=
  set_sem k (sem k st + 1) st.

(** Leaving the [async with] block: [__aexit__] releases the slot. *)
Definition leave (i : nat) (t : Task) (r : Outcome) (st : GateState) : GateState :=
  release (kind t) (set_task i (in_phase (Finished r) t) st).

(** The body is left with [pending]: a detail task with a checkpoint id
    first awaits [update_note_to_checkpoint] in its [finally] clause. *)
Definition finish_body (i : nat) (t : Task) (pending : Outcome) (st : GateState)
    : GateState :=
  match kind t with
  | Detail =>
      if negb (String.eqb (checkpoint_id t) "")
      then set_task i (in_phase (Checkpointing pending) t) st
      else leave i t pending st
  | Comments => leave i t pending st
  end.

(** The [except] clauses of the two task bodies. *)
Definition caught (k : Kind) (e : Exn) : bool :=
  match k, e with
  | _, DataFetchError _ => true
  | Detail, KeyError _ => true
  | _, _ => false
  end.

Definition after_raise (k : Kind) (e : Exn) : Outcome :=
  if caught k e then Returned false else Failed e.

Definition step (i : nat) (a : Action) (st : GateState) : option GateState :=
  t ← tasks st !! i;
  match phase t, a with
  | Created, Acquire => acquire i t st
  | Created, Cancel => Some (set_task i (in_phase (Finished (Failed CancelledError)) t) st)
  | Fetching, FetchReturns found =>
      match kind t with
      | Detail =>
          if found then Some (set_task i (in_phase Storing t) st)
          else Some (finish_body i t (Returned false) st)
      | Comments => Some (finish_body i t (Returned found) st)
      end
  | Fetching, FetchRaises e => Some (finish_body i t (after_raise (kind t) e) st)
  | Fetching, Cancel => Some (finish_body i t (Failed CancelledError) st)
  | Storing, StoreReturns => Some (finish_body i t (Returned true) st)
  | Storing, StoreRaises e => Some (finish_body i t (after_raise (kind t) e) st)
  | Storing, Cancel => Some (finish_body i t (Failed CancelledError) st)
  | Checkpointing pending, CheckpointReturns => Some (leave i t pending st)
  | Checkpointing _, CheckpointRaises e => Some (leave i t (Failed e) st)
  | Checkpointing _, Cancel => Some (leave i t (Failed CancelledError) st)
  | _, _ => None
  end.

Fixpoint run_schedule (sched : list (nat * Action)) (st : GateState) : option GateState :=
  match sched with
  | [] => Some st
  | (i, a) :: rest => st' ← step i a st; run_schedule rest st'
  end.

(** [asyncio.Semaphore(value)] raises [ValueError] on a negative value. *)
Definition start (max_concurrency_num : Z) (work : list (Kind * string))
    : option GateState :=
  if max_concurrency_num <? 0 then None
  else Some {| crawler_aweme_task_semaphore := max_concurrency_num;
               crawler_comment_semaphore := max_concurrency_num;
               tasks := map (fun w => {| kind := fst w; checkpoint_id := snd w;
                                         phase := Created |}) work |}.

Definition holds_slot (k : Kind) (t : Task) : bool :=
  bool_decide (kind t = k) &&
  match phase t with
  | Fetching | Storing | Checkpointing _ => true
  | _ => false
  end.

Definition fetching (k : Kind) (t : Task) : bool :=
  bool_decide (kind t = k) &&
  match phase t with Fetching => true | _ => false end.

Definition count (P : Task -> bool) (st : GateState) : Z :=
  Z.of_nat (length (filter (fun t => P t = true) (tasks st))).

(** The number of fetches of kind [k] in flight. *)
Definition in_flight (k : Kind) (st : GateState) : Z := count (fetching k) st.
Definition slots_held (k : Kind) (st : GateState) : Z := count (holds_slot k) st.

Definition all_finished (st : GateState) : bool :=
  forallb (fun t => match phase t with Finished _ => true | _ => false end) (tasks st).

Definition b2z (b : bool) : Z := if b then 1 else 0.

(** The invariant of the gate: per kind, the slots held and the slots
    free add up to the configured bound. *)
Definition balanced (bound : Z) (st : GateState) : Prop :=
  forall k, slots_held k st + sem k st = bound /\ 0 <= sem k st.
End Gate.

(** * Scenarios

    Closed worlds and states on which the definitions above are run. *)

Definition reply (st : Z) (tx : string) (j : option Json) : HttpOutcome :=
  HttpReply {| status_code := st; text := tx; json := j; elapsed := 0 |}.

Definition ok_json : Json := JDict [("status_code", JInt 0)].
Definition ok_reply : HttpOutcome := reply 200 "{}" (Some ok_json).

(** A quiet world: the platform accepts every request, the signer returns a
    token, the provider sells two endpoints valid for a minute. *)
Definition quiet : Env := {|
  DOUYIN_API_URL := "https://www.douyin.com";
  DOUYIN_FIXED_USER_AGENT := "Mozilla/5.0";
  urlencode := fun p => String.concat "&" (map (fun kv => fst kv +:+ "=" +:+ snd kv) p);
  quote := fun t => t;
  py_repr := fun _ => "?";
  server := fun _ _ => ok_reply;
  get_abogus := fun _ _ _ => JsStr "token";
  getdps := fun _ _ => KdlProxies [("10.0.0.1", 8000, 60); ("10.0.0.2", 8000, 60)];
  random_choice := fun _ _ => 0%nat;
  echo_ok := fun _ _ => true;
  int_of_str := fun _ => None;
  _extract_comment_from_dict :=
    fun _ _ => inr {| comment_id := "c"; sub_comment_count := "" |};
  _extract_aweme_from_dict := fun _ => None
|}.

Definition with_server (f : nat -> HttpRequest -> HttpOutcome) (e : Env) : Env :=
  {| DOUYIN_API_URL := DOUYIN_API_URL e;
     DOUYIN_FIXED_USER_AGENT := DOUYIN_FIXED_USER_AGENT e;
     urlencode := urlencode e; quote := quote e; py_repr := py_repr e;
     server := f;
     get_abogus := get_abogus e; getdps := getdps e;
     random_choice := random_choice e; echo_ok := echo_ok e;
     int_of_str := int_of_str e;
     _extract_comment_from_dict := _extract_comment_from_dict e;
     _extract_aweme_from_dict := _extract_aweme_from_dict e |}.

Definition with_signer (f : nat -> string -> string -> JsOutcome) (e : Env) : Env :=
  {| DOUYIN_API_URL := DOUYIN_API_URL e;
     DOUYIN_FIXED_USER_AGENT := DOUYIN_FIXED_USER_AGENT e;
     urlencode := urlencode e; quote := quote e; py_repr := py_repr e;
     server := server e;
     get_abogus := f; getdps := getdps e;
     random_choice := random_choice e; echo_ok := echo_ok e;
     int_of_str := int_of_str e;
     _extract_comment_from_dict := _extract_comment_from_dict e;
     _extract_aweme_from_dict := _extract_aweme_from_dict e |}.

Definition default_config : Config := {|
  KEYWORDS := "Python,crawler";
  PUBLISH_TIME_TYPE := 0;
  CRAWLER_MAX_NOTES_COUNT := 40;
  MAX_CONCURRENCY_NUM := 1;
  ENABLE_GET_COMMENTS := true;
  ENABLE_GET_SUB_COMMENTS := false;
  PER_NOTE_MAX_COMMENTS_COUNT := 0;
  ENABLE_CHECKPOINT := true;
  SPECIFIED_CHECKPOINT_ID := "";
  CRAWLER_TIME_SLEEP := 1;
  ENABLE_IP_PROXY := true;
  KDL_USER_NAME := "kdl";
  KDL_USER_PWD := "secret"
|}.

Definition account_a : AccountInfoModel :=
  {| field.id := 1; field.account_name := "a"; field.cookies := "sessionid=a";
     field.platform_name := "dy"; field.status := 0; field.invalid_timestamp := 0 |}.

Definition account_b : AccountInfoModel :=
  {| field.id := 2; field.account_name := "b"; field.cookies := "sessionid=b";
     field.platform_name := "dy"; field.status := 0; field.invalid_timestamp := 0 |}.

Definition sheet_ab : list XlsxRow :=
  [ {| row_id := Accepted 1; row_account_name := Accepted "a";
       row_cookies := Accepted "sessionid=a" |};
    {| row_id := Accepted 2; row_account_name := Accepted "b";
       row_cookies := Accepted "sessionid=b" |} ].

Definition endpoint (i : string) (expiry : Z) : IpInfoModel :=
  {| ip := i; port := 8000; user := "kdl"; protocol := "https://";
     password := "secret"; expired_time_ts := expiry |}.

(** The process right after [async_initialize] loaded the workbook, before
    the first binding; no proxy pool. *)
Definition fresh_process : State := {|
  clock := 0; config := default_config;
  accounts := [account_a; account_b]; bindings := [];
  xlsx := Some sheet_ab;
  _platform_name := "dy"; _account_save_type := "xlsx";
  _account_list := [0%nat; 1%nat];
  proxy_ip_pool := None;
  _user_agent := "Mozilla/5.0";
  common_verify_params :=
    Some {| ms_token := "ms"; webid := "web"; verify_fp := "fp"; s_v_web_id := "fp" |};
  account_info := None; _http_client := None; _cached_proxy := None;
  request_keyword_var := ""; source_keyword_var := "";
  checkpoints := []; trace := []
|}.

(** Account [a] bound, no proxy. *)
Definition bound_process : State :=
  set_account_info (Some 0%nat)
    (set_bindings [{| field.account := 0%nat; field.ip_info := None |}] fresh_process).

(** Account [a] bound to an endpoint that expires at [expiry]; the pool
    holds one spare endpoint that expires at [spare_expiry]. *)
Definition proxied_process (now : Q) (expiry spare_expiry : Z) : State :=
  set_clock now
    (set_proxy_ip_pool
       (Some {| ip_pool_count := 2; enable_validate_ip := true;
                proxy_list := [endpoint "10.0.0.2" spare_expiry] |})
       (set_account_info (Some 0%nat)
          (set_bindings [{| field.account := 0%nat;
                            field.ip_info := Some (endpoint "10.0.0.1" expiry) |}]
             fresh_process))).

(** Worlds in which the platform refuses. *)
Definition blocked_once : Env :=
  with_server (fun n _ => if (n =? 0)%nat then reply 403 "" None else ok_reply) quiet.
Definition always_blocked : Env := with_server (fun _ _ => reply 403 "" None) quiet.
Definition throttled : Env := with_server (fun _ _ => reply 429 "" None) quiet.
Definition not_logged_in : Env :=
  with_server (fun _ _ => reply 200 "{}" (Some (JDict [("status_code", JInt 8)]))) quiet.

(** The five blocked attempts of a profile call. *)
Definition blocked_try : (Res ReqResult * option Params) * State :=
  get_try always_blocked PROFILE_URI (Some [("sec_user_id", "creator")]) no_kwargs
    bound_process.

(** The bound endpoint expires five seconds from now, the spare one in a
    hundred. *)
Definition expiring_process : State := proxied_process 0 5 100.

(** The five throttled attempts of a profile call. *)
Definition throttled_try : (Res ReqResult * option Params) * State :=
  get_try throttled PROFILE_URI (Some [("sec_user_id", "creator")]) no_kwargs
    expiring_process.

(** The proxy pool is filled and the first credential bound at time 0:
    both endpoints the provider sold are valid for a minute, one is bound,
    the other waits in the pool.  The next call is made 57 seconds later. *)
Definition pooled_process : State :=
  set_proxy_ip_pool
    (Some {| ip_pool_count := 2; enable_validate_ip := true; proxy_list := [] |})
    fresh_process.

Definition bound_at_start : State := snd (update_account_info quiet 2 pooled_process).

Definition a_minute_later : State := set_clock 57 bound_at_start.

Definition stale_fetch : Res ReqResult * State :=
  get quiet 1 PROFILE_URI (Some [("sec_user_id", "creator")]) no_kwargs a_minute_later.

(** Binding in a world where the login probe is answered with status 8,
    followed to a nesting depth of [fuel]. *)
Definition probe_refused (fuel : nat) : Res unit * State :=
  update_account_info not_logged_in fuel fresh_process.

(** A workbook without rows. *)
Definition empty_pool_process : State := {|
  clock := 0; config := default_config;
  accounts := []; bindings := [];
  xlsx := Some [];
  _platform_name := "dy"; _account_save_type := "xlsx";
  _account_list := [];
  proxy_ip_pool := None;
  _user_agent := "Mozilla/5.0";
  common_verify_params :=
    Some {| ms_token := "ms"; webid := "web"; verify_fp := "fp"; s_v_web_id := "fp" |};
  account_info := None; _http_client := None; _cached_proxy := None;
  request_keyword_var := ""; source_keyword_var := "";
  checkpoints := []; trace := []
|}.

(** A search over the two configured keywords in a world that throttles
    every request, and in the quiet world. *)
Definition throttled_search : Res unit * State := search throttled 3 bound_process.
Definition quiet_search : Res unit * State := search quiet 3 bound_process.

(** A world whose signer answers without a token. *)
Definition mute : Env := with_signer (fun _ _ _ => JsNull) quiet.

(** A keyword search in the quiet world and in the mute one, and a profile
    call in the mute one. *)
Definition quiet_keyword_search : Res ReqResult * State :=
  search_info_by_keyword quiet 1 "Python" 0 SearchChannelType.GENERAL
    SearchSortType.GENERAL PublishTimeType.UNLIMITED "" bound_process.

Definition mute_keyword_search : Res ReqResult * State :=
  search_info_by_keyword mute 1 "Python" 0 SearchChannelType.GENERAL
    SearchSortType.GENERAL PublishTimeType.UNLIMITED "" bound_process.

(** A cap of one comment per item; the item v1 is in the checkpoint with
    its comments not yet crawled; every page of comments has two comments
    and reports more. *)
Definition capped_config : Config := {|
  KEYWORDS := "Python,crawler";
  PUBLISH_TIME_TYPE := 0;
  CRAWLER_MAX_NOTES_COUNT := 40;
  MAX_CONCURRENCY_NUM := 1;
  ENABLE_GET_COMMENTS := true;
  ENABLE_GET_SUB_COMMENTS := false;
  PER_NOTE_MAX_COMMENTS_COUNT := 1;
  ENABLE_CHECKPOINT := true;
  SPECIFIED_CHECKPOINT_ID := "";
  CRAWLER_TIME_SLEEP := 1;
  ENABLE_IP_PROXY := true;
  KDL_USER_NAME := "kdl";
  KDL_USER_PWD := "secret"
|}.

Definition page_of_comments : Json :=
  JDict [("status_code", JInt 0); ("comments", JList [JDict []; JDict []]);
         ("has_more", JInt 1); ("cursor", JInt 20)].

Definition talkative : Env :=
  with_server (fun _ _ => reply 200 "{}" (Some page_of_comments)) quiet.

Definition noted_process : State :=
  set_checkpoints
    [ {| m_checkpoint.id := Some "checkpoint-0";
         m_checkpoint.platform := "dy"; m_checkpoint.mode := "search";
         m_checkpoint.current_search_keyword := Some "Python";
         m_checkpoint.current_search_page := Some 1;
         m_checkpoint.current_search_id := Some "";
         m_checkpoint.current_creator_id := None;
         m_checkpoint.current_creator_page := None;
         m_checkpoint.current_homefeed_cursor := None;
         m_checkpoint.current_homefeed_note_index := None;
         m_checkpoint.crawled_note_list :=
           [ {| m_checkpoint.note_id := "v1";
                m_checkpoint.extra_params_info := None;
                m_checkpoint.is_success_crawled := true;
                m_checkpoint.is_success_crawled_comments := false;
                m_checkpoint.current_note_comment_cursor := None |} ] |} ]
    (set_config capped_config bound_process).

Definition capped_crawl : Res (list DouyinAwemeComment * Json) * State :=
  get_aweme_all_comments_more talkative 2 "v1" "checkpoint-0" noted_process.

Definition last_exception {A} (r : Res A) : Exn :=
  match r with
  | Raise (RetryError e) => e
  | _ => KeyboardInterrupt
  end.


(** Two detail tasks under a bound of one: the first runs to its end, then
    the second takes the slot. *)
Definition two_details : list (Gate.Kind * string) :=
  [(Gate.Detail, "checkpoint-0"); (Gate.Detail, "checkpoint-0")].

Definition one_after_the_other : list (nat * Gate.Action) :=
  [ (0%nat, Gate.Acquire); (0%nat, Gate.FetchReturns true); (0%nat, Gate.StoreReturns);
    (0%nat, Gate.CheckpointReturns); (1%nat, Gate.Acquire) ].

Definition gate_opened : Gate.GateState :=
  {| Gate.crawler_aweme_task_semaphore := 1;
     Gate.crawler_comment_semaphore := 1;
     Gate.tasks := [ {| Gate.kind := Gate.Detail; Gate.checkpoint_id := "checkpoint-0";
                        Gate.phase := Gate.Created |};
                     {| Gate.kind := Gate.Detail; Gate.checkpoint_id := "checkpoint-0";
                        Gate.phase := Gate.Created |} ] |}.

Definition gate_second_fetching : Gate.GateState :=
  {| Gate.crawler_aweme_task_semaphore := 0;
     Gate.crawler_comment_semaphore := 1;
     Gate.tasks := [ {| Gate.kind := Gate.Detail; Gate.checkpoint_id := "checkpoint-0";
                        Gate.phase := Gate.Finished (Gate.Returned true) |};
                     {| Gate.kind := Gate.Detail; Gate.checkpoint_id := "checkpoint-0";
                        Gate.phase := Gate.Fetching |} ] |}.

(** * Vocabulary of the statements *)

(** [m] never leaves the relation [T] between the state it starts in and the
    state it ends in, whatever its outcome. *)
Definition preserves {A} (T : State -> State -> Prop) (m : M A) : Prop :=
  forall s r s', m s = (r, s') -> T s s'.

Definition new_events (s s' : State) : list Event :=
  drop (length (trace s)) (trace s').

(** The effects added between two states all satisfy [P]. *)
Definition extends (P : Event -> Prop) (s s' : State) : Prop :=
  exists evs, trace s' = trace s ++ evs /\ Forall P evs.

(** The frame of the request layer: the credential store, the pool's list,
    the workbook, the client's binding and the credential behind every
    binding object stay as they are; the added effects satisfy [P], which may
    refer to the credential that is bound; a binding object changes only
    where a proxy is assigned to it. *)
Record frame (P : option nat -> Event -> Prop) (s s' : State) : Prop := {
  fr_accounts : accounts s' = accounts s;
  fr_account_list : _account_list s' = _account_list s;
  fr_xlsx : xlsx s' = xlsx s;
  fr_account_info : account_info s' = account_info s;
  fr_binding_accounts :
    field.account <$> bindings s' = field.account <$> bindings s;
  fr_config : config s' = config s;
  fr_user_agent : _user_agent s' = _user_agent s;
  fr_verify : common_verify_params s' = common_verify_params s;
  fr_keyword : request_keyword_var s' = request_keyword_var s;
  fr_checkpoints : checkpoints s' = checkpoints s;
  fr_trace : extends (P (bound_account s)) s s';
  fr_bindings :
    Forall (fun ev => is_assign_ip ev = false) (new_events s s') ->
    bindings s' = bindings s
}.

(** What a call of the client, rotation included, may do: the trace grows
    by events that satisfy [Q]; the configuration and the checkpoints are
    left alone. *)
Record effect (Q : Event -> Prop) (s s' : State) : Prop := {
  ef_trace : extends Q s s';
  ef_config : config s' = config s;
  ef_checkpoints : checkpoints s' = checkpoints s
}.

(** The entry of the item [nid] in the checkpoint [cid]. *)
Definition ledger_note (cid nid : string) (s : State) : option CheckpointNote :=
  c ← List.find (has_id cid) (checkpoints s); find_note nid c.

(** The configuration stays, and no item leaves a checkpoint. *)
Definition keeps_ledger (s s' : State) : Prop :=
  config s' = config s /\
  forall cid nid, is_Some (ledger_note cid nid s) -> is_Some (ledger_note cid nid s').

Definition returned {A} (r : Res A) (dflt : A) : A :=
  match r with Ok a => a | _ => dflt end.

(** How many requests went to the transport so far. *)
Definition dispatches (s : State) : nat := count_events is_dispatch (trace s).

(** Effects of the transport, the signer, the proxy pool and the clock. *)
Definition is_infra (ev : Event) : bool :=
  match ev with
  | EvSleep _ | EvJsCall _ _ | EvIpInvalid _ | EvAssignIp _ | EvGetProxies _
  | EvIpProbe _ | EvRandomChoice _ => true
  | _ => false
  end.

(** The account object at [a] as [update_account_status] leaves it at time
    [now]. *)
Definition invalidated (now : Q) (acc : AccountInfoModel) : AccountInfoModel :=
  {| field.id := field.id acc;
     field.account_name := field.account_name acc;
     field.cookies := field.cookies acc;
     field.platform_name := field.platform_name acc;
     field.status := field.value INVALID;
     field.invalid_timestamp := get_current_timestamp now |}.

Definition no_dispatch (_ : option nat) (ev : Event) : Prop := is_infra ev = true.

(** The effects one call of [request] may have: infrastructure, and
    dispatches to [target] under the credential [a]. *)
Definition request_effect (target : string) (a : option nat) (ev : Event) : Prop :=
  match ev with
  | EvDispatch req acc _ _ => url req = target /\ acc = a
  | _ => is_infra ev = true
  end.

(** The request [_pre_url_params] puts to the signing gateway for a call of
    [uri] with parameters [q]. *)
Definition signing_request (env : Env) (uri0 : string) (q : option Params) (s : State)
    : DouyinSignRequest :=
  {| uri := uri0;
     query_params :=
       urlencode env (dict_update (dict_update (default [] q) _common_params)
                                  (_verify_params s));
     user_agent := _user_agent s;
     sign_cookies := _cookies s |}.

(** The token of a gateway response, when it has a non-empty one. *)
Definition token_of (r : DouyinSignResponse) : option string :=
  match get_a_bogus r with
  | inr t => if String.eqb t "" then None else Some t
  | inl _ => None
  end.

(** The [a_bogus] parameter of every dispatch in order. *)
Definition dispatch_tokens (tr : list Event) : list (option string) :=
  omap (fun ev => match ev with
                  | EvDispatch req _ _ _ => Some (dict_get "a_bogus" (default [] (params req)))
                  | _ => None
                  end) tr.

(** The request carries a non-empty [a_bogus]. *)
Definition has_token (req : HttpRequest) : bool :=
  match dict_get "a_bogus" (default [] (params req)) with
  | Some t => negb (String.eqb t "")
  | None => false
  end.

Definition token_dispatch (ev : Event) : Prop :=
  match ev with
  | EvDispatch req _ _ _ => has_token req = true
  | _ => True
  end.

(** Dispatches to [target] go out without [a_bogus]; the others carry
    one. *)
Definition unsigned_to (target : string) (ev : Event) : Prop :=
  match ev with
  | EvDispatch req _ _ _ =>
      if String.eqb (url req) target
      then dict_get "a_bogus" (default [] (params req)) = None
      else has_token req = true
  | _ => True
  end.

(** The credential, and the proxy address, of every dispatch in order. *)
Definition dispatch_accounts (tr : list Event) : list (option nat) :=
  omap (fun ev => match ev with EvDispatch _ acc _ _ => Some acc | _ => None end) tr.

Definition dispatch_endpoints (tr : list Event) : list (option string) :=
  omap (fun ev => match ev with EvDispatch _ _ via _ => Some (ip <$> via) | _ => None end) tr.

Definition is_Ok {A} (r : Res A) : bool :=
  match r with Ok _ => true | _ => false end.

Definition is_OutOfFuel {A} (r : Res A) : bool :=
  match r with OutOfFuel => true | _ => false end.

(** How often a credential was asked of the pool so far. *)
Definition acquisitions (s : State) : nat := count_events is_get_account (trace s).

(** [update_account_info] is still running at depth [fuel], and has asked
    the pool for a credential once per level. *)
Definition still_binding (fuel : nat) : bool :=
  is_OutOfFuel (fst (probe_refused fuel))
  && (acquisitions (snd (probe_refused fuel)) =? S fuel)%nat
  && (dispatches (snd (probe_refused fuel)) =? 5 * fuel)%nat.

(** The keywords whose loop was entered, and those whose loop was left
    through the interrupt report. *)
Definition keywords_started (tr : list Event) : list string :=
  omap (fun ev => match ev with EvSearchKeyword _ k => Some k | _ => None end) tr.

Definition keywords_interrupted (tr : list Event) : list string :=
  omap (fun ev => match ev with EvInterruptInfo _ _ _ k _ => Some k | _ => None end) tr.

Definition dispatched_through_expired (ev : Event) : bool :=
  match ev with
  | EvDispatch _ _ (Some p) at_ => is_expired p at_
  | _ => false
  end.


(** * Code beside the numbered claims *)

(** ** pkg/cache/local_cache.py

    [ExpiringLocalCache] keeps [key -> (value, expire_time)] in a [dict]; the
    stored value may be [None].  Every method reads the wall clock itself, so
    the reading is a parameter; [ttl] reads it twice.  The order in which
    [keys] lists the keys is the order of the [dict] and is not modelled:
    the statements on [keys] are on membership. *)

Module local_cache.
Section ExpiringLocalCache.
Context {V : Type}.

(** [a < b] on the clock. *)
Definition Qltb (a b : Q) : bool := negb (Qle_bool b a).

(** [get]; the second component is the container after the call. *)
Definition get (key : string) (now : Q) (c : gmap string (option V * Q)) : option V * gmap string (option V * Q) :=
  let '(value, expire_time) := default (None, 0%Q) (c !! key) in
  match value with
  | None => (None, c)
  | Some v =>
      if Qltb expire_time now then (None, base.delete key c) else (Some v, c)
  end.

(** [ttl]; [now] is the clock at the test, [now'] at the subtraction. *)
Definition ttl (key : string) (now now' : Q) (c : gmap string (option V * Q)) : Z * gmap string (option V * Q) :=
  let '(value, expire_time) := default (None, 0%Q) (c !! key) in
  match value with
  | None => (-2, c)
  | Some _ =>
      if Qltb expire_time now then (-2, base.delete key c)
      else (py_int (expire_time - now'), c)
  end.

(** [set]; the expiry is written as the exact sum.  The code adds two
    floats: its sum is the exact one rounded, which is monotone in both
    terms, so what is said of times up to the exact sum holds of the
    code, and what depends on the instant at which the time is over is
    said of the stored time. *)
Definition set (key : string) (value : option V) (expire_time : Z) (now : Q)
    (c : gmap string (option V * Q)) : gmap string (option V * Q) :=
  <[key := (value, (now + inject_Z expire_time)%Q)]> c.

Definition delete (key : string) (c : gmap string (option V * Q)) : gmap string (option V * Q) :=
  match c !! key with
  | Some _ => base.delete key c
  | None => c
  end.

(** [pattern.replace('*', '')] *)
Fixpoint remove_stars (pattern : string) : string :=
  match pattern with
  | EmptyString => EmptyString
  | String ch rest =>
      if (Ascii.nat_of_ascii ch =? 42)%nat then remove_stars rest
      else String ch (remove_stars rest)
  end.

Definition keys (pattern : string) (c : gmap string (option V * Q)) : list string :=
  let all := (map_to_list c).*1 in
  if String.eqb pattern "*" then all
  else
    let pattern := if contains "*" pattern then remove_stars pattern else pattern in
    filter (fun key => contains pattern key = true) all.

Definition _clear (now : Q) (c : gmap string (option V * Q)) : gmap string (option V * Q) :=
  let keys_to_delete :=
    (filter (fun kv => Qltb (kv.2.2) now = true) (map_to_list c)).*1 in
  foldl (fun acc key => base.delete key acc) c keys_to_delete.
End ExpiringLocalCache.
End local_cache.

(** ** pkg/tools/utils.py

    A [str] is a sequence of code points below 256. *)

(** [s[n]] on [str]; a negative index counts from the end. *)
Definition str_index (s : string) (n : Z) : Exn + Ascii.ascii :=
  let len := Z.of_nat (String.length s) in
  let i := if n <? 0 then n + len else n in
  if (0 <=? i) && (i <? len) then
    match String.get (Z.to_nat i) s with
    | Some c => inr c
    | None => inl (IndexError "string index out of range")
    end
  else inl (IndexError "string index out of range").

Module utils.
Definition chars : string :=
  "AaBbCcDdEeFfGgHhIiJjKkLlMmNnOoPpQqRrSsTtUuVvWwXxYyZz0123456789".

(** The loop of [get_random_str]; [randint k a b] is what the [k]-th call
    [_random.randint(a, b)] of the run returns. *)
Fixpoint random_str_loop (randint : nat -> Z -> Z -> Z) (k n : nat) (random_str : string)
    : Exn + string :=
  match n with
  | O => inr random_str
  | S n' =>
      let length := Z.of_nat (String.length chars) - 1 in
      match str_index chars (randint k 0 length) with
      | inl e => inl e
      | inr c => random_str_loop randint (S k) n' (random_str +:+ String c EmptyString)
      end
  end.

Definition get_random_str (randint : nat -> Z -> Z -> Z) (random_len : Z) : Exn + string :=
  random_str_loop randint 0 (Z.to_nat random_len) "".
End utils.

(** ** douyin/help.py *)

Module help.




(** [int(round(x))]: [round] goes to the nearest integer, and to the even
    one of two that are equally near. *)
Definition py_round (x : Q) : Z :=
  let f := Qfloor x in
  let twice := Qfloor (2 * (x - inject_Z f)) in
  if twice =? 0 then f
  else if Qeq_bool (x - inject_Z f) (1 # 2) then (if Z.even f then f else f + 1)
  else f + 1.

Definition base_str : string :=
  "0123456789ABCDEFGHIJKLMNOPQRSTUVWXYZabcdefghijklmnopqrstuvwxyz".

(** One digit of the base-36 numeral: [str(remainder)] below ten, a
    letter from [a] on above. *)
Definition base36_digit (remainder : Z) : string :=
  if remainder <? 10 then pretty remainder
  else String (Ascii.ascii_of_nat (Z.to_nat (97 + remainder - 10))) EmptyString.

(** [while milliseconds > 0]; [int(milliseconds / 36)] is the quotient for
    the counts of milliseconds a clock gives, which a float holds
    exactly. *)
Fixpoint base36_loop (fuel : nat) (milliseconds : Z) (base36 : string) : string :=
  match fuel with
  | O => base36
  | S fuel' =>
      if 0 <? milliseconds then
        base36_loop fuel' (milliseconds / 36)
          (base36_digit (milliseconds mod 36) +:+ base36)
      else base36
  end.

(** The loop halves its argument at least, so the binary length of the
    argument is fuel enough. *)
Definition base36 (milliseconds : Z) : string :=
  base36_loop (S (Z.to_nat (Z.log2 milliseconds))) milliseconds "".

(** [o = [""] * 36] with the five fixed places set. *)
Definition o_init : list string :=
  <[14%nat := "4"]>
    (<[23%nat := "_"]> (<[18%nat := "_"]> (<[13%nat := "_"]> (<[8%nat := "_"]>
       (replicate 36 ""))))).

(** [for i in range(36)], from place [i] on; [random k] is what the [k]-th
    call of [random.random()] returns. *)
Fixpoint fill (random : nat -> Q) (k i : nat) (o : list string) : Exn + list string :=
  match o with
  | [] => inr []
  | slot :: rest =>
      if String.eqb slot "" then
        let t := Z.of_nat (String.length base_str) in
        let n := py_int (random k * inject_Z t) in
        let n := if (i =? 19)%nat then Z.lor (Z.land 3 n) 8 else n in
        match str_index base_str n with
        | inl e => inl e
        | inr c =>
            match fill random (S k) (S i) rest with
            | inl e => inl e
            | inr rest' => inr (String c EmptyString :: rest')
            end
        end
      else
        match fill random k (S i) rest with
        | inl e => inl e
        | inr rest' => inr (slot :: rest')
        end
  end.

Definition gen_verify_fp (random : nat -> Q) (now : Q) : Exn + string :=
  let milliseconds := py_round (now * 1000) in
  let r := base36 milliseconds in
  match fill random 0 0 o_init with
  | inl e => inl e
  | inr o => inr ("verify_" +:+ r +:+ "_" +:+ String.concat "" o)
  end.

Definition gen_s_v_web_id (random : nat -> Q) (now : Q) : Exn + string :=
  gen_verify_fp random now.

(** [e(None)] of [get_web_id]. *)
Definition e_None : string := "10000000-1000-4000-8000-100000000000".

(** [e(t)] for a number [t], with the draw [r] of [random.random()]. *)
Definition e (r : Q) (t : Z) : string :=
  pretty (Z.lxor t (Z.shiftr (py_int (16 * r)) (t / 4))).

Definition digit_value (x : Ascii.ascii) : Z := Z.of_nat (Ascii.nat_of_ascii x) - 48.

(** The generator expression of [get_web_id] over the characters that are
    left of [e(None)]. *)
Fixpoint web_id_pieces (random : nat -> Q) (k : nat) (template : string) : string :=
  match template with
  | EmptyString => EmptyString
  | String x rest =>
      if contains (String x EmptyString) "018"
      then e (random k) (digit_value x) +:+ web_id_pieces random (S k) rest
      else String x (web_id_pieces random k rest)
  end.

(** [s.replace("-", "")] *)
Fixpoint remove_dashes (s : string) : string :=
  match s with
  | EmptyString => EmptyString
  | String ch rest =>
      if (Ascii.nat_of_ascii ch =? 45)%nat then remove_dashes rest
      else String ch (remove_dashes rest)
  end.

Definition get_web_id (random : nat -> Q) : string :=
  String.substring 0 19 (remove_dashes (web_id_pieces random 0 e_None)).
End help.

(** A decimal digit. *)
Definition is_digit (c : Ascii.ascii) : bool :=
  let n := Ascii.nat_of_ascii c in (48 <=? n)%nat && (n <=? 57)%nat.

Fixpoint all_chars (P : Ascii.ascii -> bool) (s : string) : bool :=
  match s with
  | EmptyString => true
  | String c rest => P c && all_chars P rest
  end.

(** Reading a numeral in base 36, most significant digit first: its digits
    are [0] to [9] and [a] to [z], and a string with any other character is
    no numeral. *)
Definition base36_digit_value (c : Ascii.ascii) : option Z :=
  let n := Z.of_nat (Ascii.nat_of_ascii c) in
  if (48 <=? n) && (n <=? 57) then Some (n - 48)
  else if (97 <=? n) && (n <=? 122) then Some (n - 87)
  else None.

Fixpoint base36_value (s : string) : option Z :=
  match s with
  | EmptyString => Some 0
  | String c rest =>
      match base36_digit_value c, base36_value rest with
      | Some d, Some v => Some (d * 36 ^ Z.of_nat (String.length rest) + v)
      | _, _ => None
      end
  end.

(** The character occurs in the string. *)
Definition char_in (s : string) (c : Ascii.ascii) : bool :=
  contains (String c EmptyString) s.

(** [int(s)] of a string of digits, most significant first. *)
Fixpoint decimal_value (acc : Z) (s : string) : Z :=
  match s with
  | EmptyString => acc
  | String c rest => decimal_value (acc * 10 + (Z.of_nat (Ascii.nat_of_ascii c) - 48)) rest
  end.

(** [int(s)] of a string that [isdigit] or [\d+] accepted: a superscript is
    no literal, and a literal of more than 4300 digits is refused. *)
Definition int_of (s : string) : Exn + Z :=
  if all_chars is_digit s then
    if 4300 <? Z.of_nat (String.length s)
    then inl (ValueError "Exceeds the limit (4300 digits) for integer string conversion")
    else inr (decimal_value 0 s)
  else inl (ValueError ("invalid literal for int() with base 10: '" +:+ s +:+ "'")).

(** A string of one character. *)
Definition single (slot : string) : Prop := exists c, slot = String c EmptyString.

(** ** repo/platform_save_data/douyin/douyin_store_impl.py *)

Module douyin_store_impl.
(** [file_name.split("_")[0]] *)
Fixpoint before_underscore (file_name : string) : string :=
  match file_name with
  | EmptyString => EmptyString
  | String c rest =>
      if (Ascii.nat_of_ascii c =? 95)%nat then EmptyString
      else String c (before_underscore rest)
  end.

(** [str.isdigit()]: below 256 the digits are the ten decimal digits and
    the superscripts two, three and one. *)
Definition isdigit_char (c : Ascii.ascii) : bool :=
  let n := Ascii.nat_of_ascii c in
  is_digit c || (n =? 178)%nat || (n =? 179)%nat || (n =? 185)%nat.

Definition isdigit (s : string) : bool :=
  negb (String.eqb s "") && all_chars isdigit_char s.

(** What the file system answers for the store path. *)
Inductive Listing :=
| Missing
| Names (file_names : list string)
| ListingRaises (e : Exn).

(** The list comprehension. *)
Fixpoint numbers (file_names : list string) : Exn + list Z :=
  match file_names with
  | [] => inr []
  | file_name :: rest =>
      if isdigit (before_underscore file_name) then
        match int_of (before_underscore file_name) with
        | inl e => inl e
        | inr n => match numbers rest with
                   | inl e => inl e
                   | inr ns => inr (n :: ns)
                   end
        end
      else numbers rest
  end.

(** [max(l)] *)
Definition py_max (l : list Z) : Exn + Z :=
  match l with
  | [] => inl (ValueError "max() arg is an empty sequence")
  | n :: ns => inr (foldl Z.max n ns)
  end.

(** [os.path.exists] and [os.listdir] *)
Definition path_exists (file_store_path : Listing) : bool :=
  match file_store_path with Missing => false | _ => true end.

Definition listdir (file_store_path : Listing) : Exn + list string :=
  match file_store_path with
  | Missing => inl (OSError "No such file or directory")
  | Names file_names => inr file_names
  | ListingRaises e => inl e
  end.

Definition calculate_number_of_files (file_store_path : Listing) : Exn + Z :=
  if negb (path_exists file_store_path) then inr 1
  else
    let attempt :=
      match listdir file_store_path with
      | inl e => inl e
      | inr file_names =>
          match numbers file_names with
          | inl e => inl e
          | inr ns => match py_max ns with
                      | inl e => inl e
                      | inr m => inr (m + 1)
                      end
          end
      end in
    match attempt with
    | inl (ValueError _) | inl (ValidationError _) | inl (IndexError _) => inr 1
    | r => r
    end.

(** A file name whose head is no number for [isdigit], or a decimal number
    that [int] reads. *)
Definition plain_number (file_name : string) : bool :=
  let head := before_underscore file_name in
  negb (isdigit head) ||
  (all_chars is_digit head && (Z.of_nat (String.length head) <=? 4300)).
End douyin_store_impl.

(** ** douyin/extractor.py: the addresses *)

Module extractor.
(** [j.get(key, dflt)] *)
Definition get_or (key : string) (dflt : Json) (j : Json) : Exn + Json :=
  match json_get key j with
  | None => inl (AttributeError "object has no attribute 'get'")
  | Some v => inr (default dflt v)
  end.

(** [a or b] *)
Definition py_or (a b : Json) : Json := if json_truthy a then a else b.

(** [len(j)] *)
Definition py_len (j : Json) : Exn + Z :=
  match j with
  | JList l => inr (Z.of_nat (length l))
  | JStr s => inr (Z.of_nat (String.length s))
  | JDict kv => inr (Z.of_nat (length kv))
  | _ => inl (TypeError "object has no len()")
  end.

(** [j[i]] for the two indices the extractor uses, 1 and -1. *)
Definition item (i : Z) (j : Json) : Exn + Json :=
  match j with
  | JList l =>
      let n := if i <? 0 then i + Z.of_nat (length l) else i in
      if (0 <=? n) && (n <? Z.of_nat (length l)) then
        match l !! Z.to_nat n with
        | Some x => inr x
        | None => inl (IndexError "list index out of range")
        end
      else inl (IndexError "list index out of range")
  | JStr s =>
      match str_index s i with
      | inl e => inl e
      | inr c => inr (JStr (String c EmptyString))
      end
  | JDict _ => inl (KeyError (pretty i))
  | _ => inl (TypeError "object is not subscriptable")
  end.

(** [video_item.get(key, {}).get("url_list", [])] *)
Definition url_list_of (key : string) (video_item : Json) : Exn + Json :=
  match get_or key (JDict []) video_item with
  | inl e => inl e
  | inr addr => get_or "url_list" (JList []) addr
  end.

Definition _extract_video_download_url (aweme_detail : Json) : Exn + Json :=
  match get_or "video" (JDict []) aweme_detail with
  | inl e => inl e
  | inr video_item =>
      match url_list_of "play_addr_h264" video_item with
      | inl e => inl e
      | inr url_h264_list =>
          match url_list_of "play_addr_256" video_item with
          | inl e => inl e
          | inr url_256_list =>
              match url_list_of "play_addr" video_item with
              | inl e => inl e
              | inr url_list =>
                  let actual_url_list :=
                    py_or (py_or url_h264_list url_256_list) url_list in
                  if negb (json_truthy actual_url_list) then inr (JStr "")
                  else
                    match py_len actual_url_list with
                    | inl e => inl e
                    | inr n =>
                        if n <? 2 then inr (JStr "") else item (-1) actual_url_list
                    end
              end
          end
      end
  end.
End extractor.

(** ** pkg/tools/crawler_util.py

    Strings are taken with code points below 256. *)

Module crawler_util.
(** The characters [str.strip()] removes. *)
Definition py_isspace (c : Ascii.ascii) : bool :=
  let n := Ascii.nat_of_ascii c in
  ((9 <=? n) && (n <=? 13) || (28 <=? n) && (n <=? 32) || (n =? 133) || (n =? 160))%nat.

Fixpoint py_lstrip (s : string) : string :=
  match s with
  | EmptyString => EmptyString
  | String c rest => if py_isspace c then py_lstrip rest else s
  end.

Fixpoint py_rstrip (s : string) : string :=
  match s with
  | EmptyString => EmptyString
  | String c rest =>
      match py_rstrip rest with
      | EmptyString => if py_isspace c then EmptyString else String c EmptyString
      | kept => String c kept
      end
  end.

Definition py_strip (s : string) : string := py_rstrip (py_lstrip s).

(** [s.split(sep)] for a separator of one character. *)
Fixpoint split_on (sep : Ascii.ascii) (s : string) : list string :=
  match s with
  | EmptyString => [EmptyString]
  | String c rest =>
      if Ascii.eqb c sep then EmptyString :: split_on sep rest
      else match split_on sep rest with
           | [] => [String c EmptyString]
           | piece :: pieces => String c piece :: pieces
           end
  end.

Definition semicolon : Ascii.ascii := Ascii.ascii_of_nat 59.
Definition equals_sign : Ascii.ascii := Ascii.ascii_of_nat 61.

(** The body of the loop; a [str] is never a [list], so the join of the
    value is not reached. *)
Fixpoint cookie_loop (cookies : list string) (cookie_dict : list (string * string))
    : list (string * string) :=
  match cookies with
  | [] => cookie_dict
  | cookie :: rest =>
      let cookie := py_strip cookie in
      if String.eqb cookie "" then cookie_loop rest cookie_dict
      else
        let cookie_list := split_on equals_sign cookie in
        if negb (Z.of_nat (length cookie_list) =? 2) then cookie_loop rest cookie_dict
        else
          match cookie_list !! 0%nat, cookie_list !! 1%nat with
          | Some name, Some cookie_value =>
              cookie_loop rest (dict_set name cookie_value cookie_dict)
          | _, _ => cookie_loop rest cookie_dict
          end
  end.

Definition convert_str_cookie_to_dict (cookie_str : string) : list (string * string) :=
  if String.eqb cookie_str "" then []
  else cookie_loop (split_on semicolon cookie_str) [].

(** [re.search(r'\d+', s).group()]: the first run of digits, in full. *)
Fixpoint leading_digits (s : string) : string :=
  match s with
  | EmptyString => EmptyString
  | String c rest => if is_digit c then String c (leading_digits rest) else EmptyString
  end.

Fixpoint search_digits (s : string) : option string :=
  match s with
  | EmptyString => None
  | String c rest => if is_digit c then Some (leading_digits s) else search_digits rest
  end.

Definition match_interact_info_count (count_str : string) : Exn + Z :=
  if String.eqb count_str "" then inr 0
  else
    match search_digits count_str with
    | Some number => int_of number
    | None => inr 0
    end.

(** A cookie header: the pairs written as name=value and joined with a
    semicolon and a space. *)
Definition cookie_header (pairs : list (string * string)) : string :=
  String.concat "; " (map (fun pair => fst pair +:+ "=" +:+ snd pair) pairs).

(** How often a character occurs. *)
Fixpoint occurrences (c : Ascii.ascii) (s : string) : nat :=
  match s with
  | EmptyString => 0
  | String c' rest => (if Ascii.eqb c' c then 1 else 0) + occurrences c rest
  end.

(** A pair that a cookie header can carry: neither part holds a semicolon
    or an equals sign, the name does not begin and the value does not end
    with white space. *)
Definition plain_pair (pair : string * string) : bool :=
  (occurrences semicolon (fst pair) =? 0)%nat && (occurrences equals_sign (fst pair) =? 0)%nat &&
  (occurrences semicolon (snd pair) =? 0)%nat && (occurrences equals_sign (snd pair) =? 0)%nat &&
  String.eqb (py_lstrip (fst pair)) (fst pair) && String.eqb (py_rstrip (snd pair)) (snd pair).
End crawler_util.

(** A pause of [secs] seconds. *)
Definition is_pause (secs : Q) (ev : Event) : bool :=
  match ev with
  | EvSleep w => Qeq_bool w secs
  | _ => false
  end.

(** ** pkg/sign/douyin_sign.py: what a run of the signer added

    [k + 1] calls of the JavaScript function with [k] pauses of [w] seconds
    between them. *)
Definition spent (k : nat) (w : Q) (s s' : State) : Prop :=
  exists evs,
    trace s' = trace s ++ evs /\
    count_events is_js_call evs = S k /\
    count_events is_sleep evs = k /\
    (clock s' == clock s + inject_Z (Z.of_nat k) * w)%Q.

(** ** The gate: the awaits of a task

    [outcome_of p a]: [a] is a way the await at which a task in phase [p] is
    suspended inside its [async with] block can end: it returns, it raises, or
    the task is cancelled there.  [awaits_left p] bounds the awaits a task
    in phase [p] still has before it has left the block. *)
Definition outcome_of (p : Gate.Phase) (a : Gate.Action) : bool :=
  match p, a with
  | Gate.Fetching, (Gate.FetchReturns _ | Gate.FetchRaises _ | Gate.Cancel) => true
  | Gate.Storing, (Gate.StoreReturns | Gate.StoreRaises _ | Gate.Cancel) => true
  | Gate.Checkpointing _,
    (Gate.CheckpointReturns | Gate.CheckpointRaises _ | Gate.Cancel) => true
  | _, _ => false
  end.

Definition awaits_left (p : Gate.Phase) : nat :=
  match p with
  | Gate.Created => 4
  | Gate.Fetching => 3
  | Gate.Storing => 2
  | Gate.Checkpointing _ => 1
  | Gate.Finished _ => 0
  end.

Definition is_finished (t : Gate.Task) : bool :=
  match Gate.phase t with Gate.Finished _ => true | _ => false end.

(** ** Situations the facts below are tried on *)

(** Three tasks under a bound of one: the fetch of the first raises an
    exception its body does not catch; the second is cancelled during its
    fetch and the update of the checkpoint in its [finally] clause raises;
    the comment task is cancelled during its fetch. *)
Definition three_tasks : list (Gate.Kind * string) :=
  [(Gate.Detail, ""); (Gate.Detail, "checkpoint-0"); (Gate.Comments, "")].

Definition three_tasks_opened : Gate.GateState :=
  {| Gate.crawler_aweme_task_semaphore := 1;
     Gate.crawler_comment_semaphore := 1;
     Gate.tasks :=
       [ {| Gate.kind := Gate.Detail; Gate.checkpoint_id := "";
            Gate.phase := Gate.Created |};
         {| Gate.kind := Gate.Detail; Gate.checkpoint_id := "checkpoint-0";
            Gate.phase := Gate.Created |};
         {| Gate.kind := Gate.Comments; Gate.checkpoint_id := "";
            Gate.phase := Gate.Created |} ] |}.

Definition raise_then_cancel : list (nat * Gate.Action) :=
  [ (0%nat, Gate.Acquire); (2%nat, Gate.Acquire);
    (0%nat, Gate.FetchRaises (Exception_ "account blocked"));
    (1%nat, Gate.Acquire); (1%nat, Gate.Cancel); (2%nat, Gate.Cancel);
    (1%nat, Gate.CheckpointRaises (OSError "disk full")) ].

Definition gate_after_failures : Gate.GateState :=
  {| Gate.crawler_aweme_task_semaphore := 1;
     Gate.crawler_comment_semaphore := 1;
     Gate.tasks :=
       [ {| Gate.kind := Gate.Detail; Gate.checkpoint_id := "";
            Gate.phase := Gate.Finished (Gate.Failed (Exception_ "account blocked")) |};
         {| Gate.kind := Gate.Detail; Gate.checkpoint_id := "checkpoint-0";
            Gate.phase := Gate.Finished (Gate.Failed (OSError "disk full")) |};
         {| Gate.kind := Gate.Comments; Gate.checkpoint_id := "";
            Gate.phase := Gate.Finished (Gate.Failed CancelledError) |} ] |}.


(** ** pkg/account_pool/pool.py: rows the constructor of the account takes *)
Definition accepted_row (row : XlsxRow) : bool :=
  match read_cell 0 (row_id row), read_cell "" (row_account_name row),
        read_cell "" (row_cookies row) with
  | Some _, Some _, Some _ => true
  | _, _, _ => false
  end.

(** The cookie string of the account made from an accepted row. *)
Definition cookies_of_row (row : XlsxRow) : string :=
  default "" (read_cell "" (row_cookies row)).

(** Both credentials of the workbook have been invalidated. *)
Definition all_invalidated : State :=
  snd (pool_mark_account_invalid 1 (snd (pool_mark_account_invalid 0 fresh_process))).

(** The same process over a workbook whose second row has an empty cell for
    its cookies. *)
Definition sheet_with_empty_cell : list XlsxRow :=
  [ {| row_id := Accepted 1; row_account_name := Accepted "a";
       row_cookies := Accepted "sessionid=a" |};
    {| row_id := Accepted 2; row_account_name := Accepted "b"; row_cookies := Refused |} ].

Definition all_invalidated_empty_cell : State :=
  {| clock := clock all_invalidated; config := config all_invalidated;
     accounts := accounts all_invalidated; bindings := bindings all_invalidated;
     xlsx := Some sheet_with_empty_cell;
     _platform_name := _platform_name all_invalidated;
     _account_save_type := _account_save_type all_invalidated;
     _account_list := _account_list all_invalidated;
     proxy_ip_pool := proxy_ip_pool all_invalidated;
     _user_agent := _user_agent all_invalidated;
     common_verify_params := common_verify_params all_invalidated;
     account_info := account_info all_invalidated;
     _http_client := _http_client all_invalidated;
     _cached_proxy := _cached_proxy all_invalidated;
     request_keyword_var := request_keyword_var all_invalidated;
     source_keyword_var := source_keyword_var all_invalidated;
     checkpoints := checkpoints all_invalidated;
     trace := trace all_invalidated |}.

(** The platform's answer to a credential it no longer accepts. *)
Definition refused_answer : HttpResponse :=
  {| status_code := 200; text := "{}";
     json := Some (JDict [("status_code", JInt 10008); ("status_msg", JStr "login expired")]);
     elapsed := 0 |}.

(** A video with one h264 address and two plain ones. *)
Definition one_h264_address : Json :=
  JDict [("video",
          JDict [("play_addr_h264", JDict [("url_list", JList [JStr "https://v/h264"])]);
                 ("play_addr", JDict [("url_list", JList [JStr "https://v/1";
                                                          JStr "https://v/2"])])])].
(* ================================================================== *)
(** * Theorems *)

(** ** The clock and the expiry of an endpoint *)

Lemma py_int_floor (x : Q) : (0 <= x)%Q -> py_int x = Qfloor x.
Proof.
  destruct x as [n d]. unfold py_int, Qfloor, Qle. simpl. intros H.
  rewrite Z.mul_1_r in H. apply Z.quot_div_nonneg; lia.
Qed.

Lemma le_floor (z : Z) (x : Q) : (inject_Z z <= x)%Q <-> z <= Qfloor x.
Proof.
  split; intros H.
  - rewrite <- (Qfloor_Z z). by apply Qfloor_resp_le.
  - eapply Qle_trans; [| apply Qfloor_le]. by rewrite <- Zle_Qle.
Qed.

(** C9, as stated, fails at the instant of expiry: an endpoint that expires
    at second 100 is not reported expired at time 100. *)
Lemma is_expired_at_expiry :
  ~ (is_expired (endpoint "10.0.0.1" 100) 100 = true <->
     (inject_Z (expired_time_ts (endpoint "10.0.0.1" 100)) <= 100)%Q).
Proof. intros [_ H]. discriminate H. by vm_compute. Qed.

(** C9, as amended: for a time [now] not before the epoch, [is_expired] holds
    exactly when a full second has passed since the expiry timestamp, that
    is when [now >= expiry + 1]. *)
Theorem is_expired_iff (p : IpInfoModel) (now : Q) :
  (0 <= now)%Q ->
  is_expired p now = true <-> (inject_Z (expired_time_ts p) + 1 <= now)%Q.
Proof.
  intros Hnow. unfold is_expired. rewrite py_int_floor by done.
  rewrite Z.ltb_lt.
  assert (inject_Z (expired_time_ts p) + 1 == inject_Z (expired_time_ts p + 1))%Q as ->
    by (rewrite inject_Z_plus; reflexivity).
  rewrite le_floor. lia.
Qed.

Lemma is_expired_iff_witness :
  (0 <= 101)%Q /\
  (is_expired (endpoint "10.0.0.1" 100) 101 = true <->
   (inject_Z (expired_time_ts (endpoint "10.0.0.1" 100)) + 1 <= 101)%Q).
Proof.
  split; [by vm_compute |].
  apply (is_expired_iff (endpoint "10.0.0.1" 100) 101). by vm_compute.
Defined.


(** ** Invalidation in the credential pool *)





(** ** The concurrency gate *)

Module GateFacts.
Import Gate.

Lemma count_insert (P : Task -> bool) (l : list Task) (i : nat) (t t' : Task) :
  l !! i = Some t ->
  Z.of_nat (length (filter (fun x => P x = true) (<[i := t']> l))) + b2z (P t)
  = Z.of_nat (length (filter (fun x => P x = true) l)) + b2z (P t').
Proof.
  revert i. induction l as [|x l IH]; intros [|i] H; simplify_eq/=.
  - rewrite !filter_cons. destruct (P t) eqn:Et, (P t') eqn:Et';
      repeat case_decide; simplify_eq/=; try congruence; lia.
  - specialize (IH _ H). rewrite !filter_cons.
    case_decide; simpl; lia.
Qed.

Lemma count_set_task P i t t' st :
  tasks st !! i = Some t ->
  count P (set_task i t' st) + b2z (P t) = count P st + b2z (P t').
Proof. intros H. unfold count. simpl. by apply count_insert. Qed.

Lemma count_set_sem P k v st : count P (set_sem k v st) = count P st.
Proof. by destruct k. Qed.

Lemma sem_set_sem k k' v st :
  sem k (set_sem k' v st) = if decide (k = k') then v else sem k st.
Proof. by destruct k, k'. Qed.

Lemma sem_set_task k i t st : sem k (set_task i t st) = sem k st.
Proof. by destruct k. Qed.

Lemma tasks_set_sem k v st : tasks (set_sem k v st) = tasks st.
Proof. by destruct k. Qed.

Lemma holds_in_phase k p t :
  holds_slot k (in_phase p t) =
  bool_decide (kind t = k) &&
  match p with Fetching | Storing | Checkpointing _ => true | _ => false end.
Proof. done. Qed.

Lemma leave_balanced bound i t r st :
  tasks st !! i = Some t ->
  holds_slot (kind t) t = true ->
  balanced bound st -> balanced bound (leave i t r st).
Proof.
  intros Hi Hh Hb k. destruct (Hb k) as [Hsum Hpos].
  unfold leave, release, slots_held in *.
  rewrite count_set_sem, !sem_set_sem, !sem_set_task.
  pose proof (count_set_task (holds_slot k) i t (in_phase (Finished r) t) st Hi) as Hc.
  rewrite holds_in_phase, andb_false_r in Hc.
  destruct (decide (k = kind t)) as [Hk|Hk].
  - subst k. rewrite Hh in Hc. simpl in Hc. lia.
  - assert (holds_slot k t = false) as Hn.
    { unfold holds_slot. rewrite bool_decide_eq_false_2; [done | congruence]. }
    rewrite Hn in Hc. simpl in Hc. lia.
Qed.

Lemma stay_balanced bound i t p st :
  tasks st !! i = Some t ->
  holds_slot (kind t) t = true ->
  match p with Fetching | Storing | Checkpointing _ => True | _ => False end ->
  balanced bound st -> balanced bound (set_task i (in_phase p t) st).
Proof.
  intros Hi Hh Hp Hb k. destruct (Hb k) as [Hsum Hpos].
  unfold slots_held in *. rewrite sem_set_task.
  pose proof (count_set_task (holds_slot k) i t (in_phase p t) st Hi) as Hc.
  rewrite holds_in_phase in Hc.
  destruct (decide (kind t = k)) as [Hk|Hk].
  - subst k. rewrite Hh, bool_decide_eq_true_2 in Hc by done.
    destruct p; try done; simpl in Hc; lia.
  - assert (holds_slot k t = false) as Hn.
    { unfold holds_slot. rewrite bool_decide_eq_false_2; [done | congruence]. }
    rewrite Hn, bool_decide_eq_false_2 in Hc by done. simpl in Hc. lia.
Qed.

Lemma finish_body_balanced bound i t r st :
  tasks st !! i = Some t ->
  holds_slot (kind t) t = true ->
  balanced bound st -> balanced bound (finish_body i t r st).
Proof.
  intros Hi Hh Hb. unfold finish_body.
  repeat case_match;
    first [ apply stay_balanced; simpl; auto; congruence
          | apply leave_balanced; auto; congruence ].
Qed.

Lemma step_balanced bound i a st st' :
  step i a st = Some st' -> balanced bound st -> balanced bound st'.
Proof.
  unfold step. intros Hstep Hb.
  destruct (tasks st !! i) as [t|] eqn:Hi; simplify_eq/=.
  destruct (phase t) eqn:Ep, a; simplify_eq/=;
    try (assert (holds_slot (kind t) t = true) as Hh
           by (unfold holds_slot; rewrite Ep, bool_decide_eq_true_2 by done; done));
    try (by apply finish_body_balanced);
    try (by apply leave_balanced).
  - (* Acquire *)
    unfold acquire in Hstep. case_match eqn:Hfree; simplify_eq/=.
    apply Z.ltb_lt in Hfree.
    intros k. destruct (Hb k) as [Hsum Hpos]. unfold slots_held in *.
    rewrite sem_set_task, sem_set_sem.
    assert (tasks (set_sem (kind t) (sem (kind t) st - 1) st) !! i = Some t) as Hi'.
    { rewrite tasks_set_sem. exact Hi. }
    pose proof (count_set_task (holds_slot k) i t (in_phase Fetching t) _ Hi') as Hc.
    rewrite count_set_sem, holds_in_phase in Hc.
    assert (holds_slot k t = false) as Hn.
    { unfold holds_slot. rewrite Ep. apply andb_false_r. }
    rewrite Hn in Hc. destruct (decide (k = kind t)) as [Hk|Hk].
    + rewrite bool_decide_eq_true_2 in Hc by done. simpl in Hc. subst k. lia.
    + rewrite bool_decide_eq_false_2 in Hc by congruence. simpl in Hc. lia.
  - (* Cancel before the slot is taken *)
    intros k. destruct (Hb k) as [Hsum Hpos]. unfold slots_held in *.
    rewrite sem_set_task.
    pose proof (count_set_task (holds_slot k) i t
                  (in_phase (Finished (Failed CancelledError)) t) st Hi) as Hc.
    rewrite holds_in_phase, andb_false_r in Hc.
    assert (holds_slot k t = false) as Hn.
    { unfold holds_slot. rewrite Ep. apply andb_false_r. }
    rewrite Hn in Hc. simpl in Hc. lia.
  - (* FetchReturns *)
    repeat case_match; simplify_eq/=.
    all: match goal with H : kind _ = _ |- _ => rewrite <- H in Hh end.
    all: first [ by apply stay_balanced | by apply finish_body_balanced ].
Qed.

Lemma run_balanced bound sched st st' :
  run_schedule sched st = Some st' -> balanced bound st -> balanced bound st'.
Proof.
  revert st. induction sched as [|[i a] sched IH]; intros st H Hb; simplify_eq/=; [done|].
  destruct (step i a st) as [st1|] eqn:Hs; simplify_eq/=.
  eapply IH; [done|]. by eapply step_balanced.
Qed.

Lemma filter_none (P : Task -> bool) (l : list Task) :
  Forall (fun t => P t = false) l -> filter (fun x => P x = true) l = [].
Proof.
  induction 1 as [|x l Hx _ IH]; [done|].
  rewrite filter_cons. case_decide; [congruence | done].
Qed.

Lemma start_balanced bound work st :
  start bound work = Some st -> balanced bound st.
Proof.
  unfold start. case_match eqn:Hneg; intros; simplify_eq/=.
  apply Z.ltb_ge in Hneg.
  intros k. unfold slots_held, count. simpl.
  rewrite filter_none.
  - destruct k; simpl; lia.
  - apply Forall_map, Forall_forall. intros w _. unfold holds_slot. simpl.
    apply andb_false_r.
Qed.

Lemma in_flight_le_held k st : in_flight k st <= slots_held k st.
Proof.
  unfold in_flight, slots_held, count.
  induction (tasks st) as [|t l IH]; [done|].
  rewrite !filter_cons.
  assert (fetching k t = true -> holds_slot k t = true) as Himp.
  { unfold fetching, holds_slot. destruct (bool_decide _), (phase t); simpl; congruence. }
  repeat case_decide; simpl in *; try lia. tauto.
Qed.

Lemma held_none_finished k st :
  all_finished st = true -> slots_held k st = 0.
Proof.
  unfold all_finished, slots_held, count. intros H.
  rewrite filter_none; [done|].
  rewrite forallb_forall in H. apply Forall_forall. intros t Ht.
  apply list_elem_of_In in Ht. specialize (H t Ht). unfold holds_slot.
  destruct (phase t); try done. apply andb_false_r.
Qed.
Lemma lookup_set_task i j t st :
  tasks (set_task i t st) !! j =
  if decide (i = j) then (if decide (i < length (tasks st))%nat then Some t else None)
  else tasks st !! j.
Proof.
  cbn. destruct (decide (i = j)) as [->|Hne].
  - destruct (decide (j < length (tasks st))%nat).
    + by apply list_lookup_insert_eq.
    + rewrite list_insert_ge by lia. apply lookup_ge_None. lia.
  - by apply list_lookup_insert_ne.
Qed.

(** The slot-holding task [t] at [i] after [leave]. *)
Lemma leave_spec i t r st :
  tasks st !! i = Some t ->
  tasks (leave i t r st) !! i = Some (in_phase (Finished r) t) /\
  (forall j, j <> i -> tasks (leave i t r st) !! j = tasks st !! j) /\
  forall k, sem k (leave i t r st) = sem k st + b2z (bool_decide (k = kind t)).
Proof.
  intros Hi. unfold leave, release.
  pose proof (lookup_lt_Some _ _ _ Hi) as Hlt.
  split; [|split].
  - rewrite tasks_set_sem, lookup_set_task, decide_True by done. by rewrite decide_True.
  - intros j Hj. rewrite tasks_set_sem, lookup_set_task. by rewrite decide_False.
  - intros k. rewrite sem_set_sem, !sem_set_task.
    destruct (decide (k = kind t)) as [->|Hk].
    + rewrite bool_decide_eq_true_2 by done. done.
    + rewrite bool_decide_eq_false_2 by done. cbn. lia.
Qed.

Lemma stay_spec i t p st :
  tasks st !! i = Some t ->
  tasks (set_task i (in_phase p t) st) !! i = Some (in_phase p t) /\
  (forall j, j <> i -> tasks (set_task i (in_phase p t) st) !! j = tasks st !! j) /\
  forall k, sem k (set_task i (in_phase p t) st) = sem k st.
Proof.
  intros Hi. pose proof (lookup_lt_Some _ _ _ Hi) as Hlt.
  split; [|split].
  - rewrite lookup_set_task, decide_True by done. by rewrite decide_True.
  - intros j Hj. rewrite lookup_set_task. by rewrite decide_False.
  - intros k. apply sem_set_task.
Qed.

(** What one step does to the task it resumes, to the other tasks and to
    the two semaphores. *)
Lemma step_spec i a st st' :
  step i a st = Some st' ->
  exists t p,
    tasks st !! i = Some t /\
    tasks st' !! i = Some (in_phase p t) /\
    (forall j, j <> i -> tasks st' !! j = tasks st !! j) /\
    match phase t with
    | Created =>
        (a = Acquire /\ p = Fetching /\ 0 < sem (kind t) st /\
         forall k, sem k st' = sem k st - b2z (bool_decide (k = kind t))) \/
        (a = Cancel /\ p = Finished (Failed CancelledError) /\
         forall k, sem k st' = sem k st)
    | Finished _ => False
    | _ =>
        outcome_of (phase t) a = true /\
        (awaits_left p < awaits_left (phase t))%nat /\
        match p with
        | Finished _ => forall k, sem k st' = sem k st + b2z (bool_decide (k = kind t))
        | Created => False
        | _ => forall k, sem k st' = sem k st
        end
    end.
Proof.
  unfold step. intros Hstep.
  destruct (tasks st !! i) as [t|] eqn:Hi; simplify_eq/=.
  exists t.
  assert (forall r, exists p,
            Some (leave i t r st) = Some (leave i t r st) /\
            tasks (leave i t r st) !! i = Some (in_phase p t) /\
            (forall j, j <> i -> tasks (leave i t r st) !! j = tasks st !! j) /\
            p = Finished r /\
            forall k, sem k (leave i t r st) = sem k st + b2z (bool_decide (k = kind t)))
    as Hleave.
  { intros r. exists (Finished r). destruct (leave_spec i t r st Hi) as (? & ? & ?).
    by repeat split. }
  assert (forall p, tasks (set_task i (in_phase p t) st) !! i = Some (in_phase p t) /\
                    (forall j, j <> i ->
                       tasks (set_task i (in_phase p t) st) !! j = tasks st !! j) /\
                    forall k, sem k (set_task i (in_phase p t) st) = sem k st) as Hstay.
  { intros p. by apply stay_spec. }
  assert (forall r, exists p,
            tasks (finish_body i t r st) !! i = Some (in_phase p t) /\
            (forall j, j <> i -> tasks (finish_body i t r st) !! j = tasks st !! j) /\
            ((p = Finished r /\
              forall k, sem k (finish_body i t r st)
                        = sem k st + b2z (bool_decide (k = kind t))) \/
             (p = Checkpointing r /\ forall k, sem k (finish_body i t r st) = sem k st)))
    as Hbody.
  { intros r. unfold finish_body.
    destruct (kind t) eqn:Ek.
    - destruct (negb (String.eqb (checkpoint_id t) "")).
      + exists (Checkpointing r). destruct (Hstay (Checkpointing r)) as (? & ? & ?).
        split; [done|]. split; [done|]. by right.
      + exists (Finished r). destruct (leave_spec i t r st Hi) as (? & ? & Hs).
        split; [done|]. split; [done|]. left. split; [done|]. by rewrite <- Ek.
    - exists (Finished r). destruct (leave_spec i t r st Hi) as (? & ? & Hs).
      split; [done|]. split; [done|]. left. split; [done|]. by rewrite <- Ek. }
  destruct (phase t) eqn:Ep, a; simplify_eq/=.
  - (* Acquire *)
    unfold acquire in Hstep. case_match eqn:Hfree; simplify_eq/=.
    apply Z.ltb_lt in Hfree. exists Fetching.
    pose proof (lookup_lt_Some _ _ _ Hi) as Hlt.
    split; [done|]. split.
    { change (<[i:=in_phase Fetching t]>
                (tasks (set_sem (kind t) (sem (kind t) st - 1) st)) !! i
              = Some (in_phase Fetching t)).
      rewrite tasks_set_sem. by apply list_lookup_insert_eq. }
    split.
    { intros j Hj.
      change (<[i:=in_phase Fetching t]>
                (tasks (set_sem (kind t) (sem (kind t) st - 1) st)) !! j
              = tasks st !! j).
      rewrite tasks_set_sem. by apply list_lookup_insert_ne. }
    left. split; [done|]. split; [done|]. split; [done|].
    intros k. rewrite sem_set_task, sem_set_sem.
    destruct (decide (k = kind t)) as [->|Hk].
    + by rewrite bool_decide_eq_true_2.
    + rewrite bool_decide_eq_false_2 by done. cbn. lia.
  - (* Cancel while waiting for the slot *)
    exists (Finished (Failed CancelledError)).
    destruct (Hstay (Finished (Failed CancelledError))) as (? & ? & ?).
    split; [done|]. split; [done|]. split; [done|]. right. by repeat split.
  - (* FetchReturns *)
    destruct (kind t) eqn:Ek.
    + destruct found; simplify_eq/=.
      * exists Storing. destruct (Hstay Storing) as (? & ? & ?).
        split; [done|]. split; [done|]. split; [done|].
        split; [done|]. split; [cbn; lia | done].
      * destruct (Hbody (Returned false)) as (p & ? & ? & Hp).
        exists p. split; [done|]. split; [done|]. split; [done|]. split; [done|].
        destruct Hp as [[-> ?] | [-> ?]]; (split; [cbn; lia | done]).
    + simplify_eq/=. destruct (Hbody (Returned found)) as (p & ? & ? & Hp).
      exists p. split; [done|]. split; [done|]. split; [done|]. split; [done|].
      destruct Hp as [[-> ?] | [-> ?]]; (split; [cbn; lia | done]).
  - destruct (Hbody (after_raise (kind t) e)) as (p & ? & ? & Hp).
    exists p. split; [done|]. split; [done|]. split; [done|]. split; [done|].
    destruct Hp as [[-> ?] | [-> ?]]; (split; [cbn; lia | done]).
  - destruct (Hbody (Failed CancelledError)) as (p & ? & ? & Hp).
    exists p. split; [done|]. split; [done|]. split; [done|]. split; [done|].
    destruct Hp as [[-> ?] | [-> ?]]; (split; [cbn; lia | done]).
  - destruct (Hbody (Returned true)) as (p & ? & ? & Hp).
    exists p. split; [done|]. split; [done|]. split; [done|]. split; [done|].
    destruct Hp as [[-> ?] | [-> ?]]; (split; [cbn; lia | done]).
  - destruct (Hbody (after_raise (kind t) e)) as (p & ? & ? & Hp).
    exists p. split; [done|]. split; [done|]. split; [done|]. split; [done|].
    destruct Hp as [[-> ?] | [-> ?]]; (split; [cbn; lia | done]).
  - destruct (Hbody (Failed CancelledError)) as (p & ? & ? & Hp).
    exists p. split; [done|]. split; [done|]. split; [done|]. split; [done|].
    destruct Hp as [[-> ?] | [-> ?]]; (split; [cbn; lia | done]).
  - destruct (leave_spec i t pending st Hi) as (? & ? & ?).
    exists (Finished pending). split; [done|]. split; [done|]. split; [done|].
    split; [done|]. split; [cbn; lia | done].
  - destruct (leave_spec i t (Failed e) st Hi) as (? & ? & ?).
    exists (Finished (Failed e)). split; [done|]. split; [done|]. split; [done|].
    split; [done|]. split; [cbn; lia | done].
  - destruct (leave_spec i t (Failed CancelledError) st Hi) as (? & ? & ?).
    exists (Finished (Failed CancelledError)). split; [done|]. split; [done|].
    split; [done|]. split; [done|]. split; [cbn; lia | done].
Qed.

(** Every outcome of the await of a task that holds a slot is a step of
    the system. *)
Lemma step_enabled i t a st :
  tasks st !! i = Some t -> holds_slot (kind t) t = true ->
  outcome_of (phase t) a = true -> is_Some (step i a st).
Proof.
  intros Hi _ Ha. unfold step. rewrite Hi. cbn.
  destruct (phase t), a; try done; repeat case_match; done.
Qed.

(** A slot is held only by a task whose [acquire] is in the schedule. *)
Lemma run_acquired sched done st st' :
  (forall i t, tasks st !! i = Some t -> holds_slot (kind t) t = true ->
               (i, Acquire) ∈ done) ->
  run_schedule sched st = Some st' ->
  forall i t, tasks st' !! i = Some t -> holds_slot (kind t) t = true ->
              (i, Acquire) ∈ done ++ sched.
Proof.
  revert done st. induction sched as [|[j a] sched IH]; intros done st Hdone Hrun;
    simplify_eq/=.
  { intros i t Hi Hh. rewrite app_nil_r. by eapply Hdone. }
  destruct (step j a st) as [st1|] eqn:Hs; simplify_eq/=.
  intros i t Hi Hh.
  replace (done ++ (j, a) :: sched) with ((done ++ [(j, a)]) ++ sched)
    by (by rewrite <- app_assoc).
  eapply (IH (done ++ [(j, a)]) st1); [|done..].
  intros i' t' Hi' Hh'. apply elem_of_app.
  destruct (step_spec j a st st1 Hs) as (t0 & p & Hj & Hj' & Hother & Hcase).
  destruct (decide (i' = j)) as [->|Hne].
  - rewrite Hj' in Hi'. injection Hi' as <-.
    destruct (phase t0) eqn:Ep.
    + destruct Hcase as [(-> & _) | (_ & -> & _)].
      * right. by apply list_elem_of_singleton.
      * by rewrite holds_in_phase, andb_false_r in Hh'.
    + left. eapply Hdone; [done|]. unfold holds_slot. rewrite Ep.
      by rewrite bool_decide_eq_true_2.
    + left. eapply Hdone; [done|]. unfold holds_slot. rewrite Ep.
      by rewrite bool_decide_eq_true_2.
    + left. eapply Hdone; [done|]. unfold holds_slot. rewrite Ep.
      by rewrite bool_decide_eq_true_2.
    + done.
  - left. rewrite (Hother i' Hne) in Hi'. by eapply Hdone.
Qed.

Lemma start_none_holds bound work st i t :
  start bound work = Some st -> tasks st !! i = Some t -> holds_slot (kind t) t = false.
Proof.
  unfold start. case_match; intros; simplify_eq/=.
  match goal with H : _ !! _ = Some _ |- _ => apply list_lookup_fmap_Some in H as (w & -> & _) end.
  unfold holds_slot. cbn. apply andb_false_r.
Qed.
End GateFacts.

(** C3: with both semaphores built from the configured bound [max], in
    every state [st] that any schedule of any workload reaches:
    the number of fetches of a kind in flight is at most [max], and the
    slots held and the slots free add up to [max];
    a task holds a slot only if its [acquire] is a step of the schedule, so
    no fetch is in flight before its slot was taken;
    for a task that holds a slot, every way its current await can end, by
    returning, by raising any exception or by cancellation, is a step, and
    that step takes the task nearer to the end of its block: either the
    task has then left the block and the semaphore of its kind is one
    higher than before, the other one as before, or the task still holds
    its slot, both semaphores are as before, and fewer awaits are left, at
    most three in all;
    once every task is finished the semaphore is back at [max]. *)
Theorem concurrency_bound (max : Z) (work : list (Gate.Kind * string))
    (sched : list (nat * Gate.Action)) (st0 st : Gate.GateState) (k : Gate.Kind) :
  Gate.start max work = Some st0 ->
  Gate.run_schedule sched st0 = Some st ->
  0 <= Gate.in_flight k st <= max /\
  Gate.slots_held k st + Gate.sem k st = max /\
  (forall i t, Gate.tasks st !! i = Some t -> Gate.holds_slot (Gate.kind t) t = true ->
               (i, Gate.Acquire) ∈ sched) /\
  (forall i t a,
     Gate.tasks st !! i = Some t -> Gate.holds_slot (Gate.kind t) t = true ->
     outcome_of (Gate.phase t) a = true ->
     exists st1 t1,
       Gate.step i a st = Some st1 /\ Gate.tasks st1 !! i = Some t1 /\
       Gate.kind t1 = Gate.kind t /\
       (awaits_left (Gate.phase t1) < awaits_left (Gate.phase t) <= 3)%nat /\
       (forall k', k' <> Gate.kind t -> Gate.sem k' st1 = Gate.sem k' st) /\
       if is_finished t1
       then Gate.sem (Gate.kind t) st1 = Gate.sem (Gate.kind t) st + 1
       else Gate.holds_slot (Gate.kind t) t1 = true /\
            Gate.sem (Gate.kind t) st1 = Gate.sem (Gate.kind t) st) /\
  (Gate.all_finished st = true -> Gate.sem k st = max).
Proof.
  intros Hstart Hrun.
  pose proof (GateFacts.run_balanced max sched st0 st Hrun
                (GateFacts.start_balanced max work st0 Hstart) k) as [Hsum Hpos].
  pose proof (GateFacts.in_flight_le_held k st).
  split; [|split; [|split; [|split]]]; [| done | | |].
  - split; [unfold Gate.in_flight, Gate.count; lia | lia].
  - intros i t Hi Hh.
    apply (GateFacts.run_acquired sched [] st0 st) with (t := t); [|done..].
    intros i' t' Hi' Hh'.
    by rewrite (GateFacts.start_none_holds max work st0 i' t' Hstart Hi') in Hh'.
  - intros i t a Hi Hh Ha.
    destruct (GateFacts.step_enabled i t a st Hi Hh Ha) as [st1 Hs].
    destruct (GateFacts.step_spec i a st st1 Hs) as (t0 & p & Hi0 & Hi1 & _ & Hcase).
    rewrite Hi in Hi0. injection Hi0 as <-.
    exists st1, (Gate.in_phase p t). split; [done|]. split; [done|]. split; [done|].
    assert (forall k' : Gate.Kind, k' <> Gate.kind t ->
              Gate.b2z (bool_decide (k' = Gate.kind t)) = 0) as Hz.
    { intros k' Hk'. by rewrite bool_decide_eq_false_2. }
    assert (Gate.b2z (bool_decide (Gate.kind t = Gate.kind t)) = 1) as Ho
      by (by rewrite bool_decide_eq_true_2).
    unfold Gate.holds_slot in Hh. apply andb_true_iff in Hh as [_ Hh].
    unfold is_finished. cbn [Gate.phase Gate.in_phase].
    destruct (Gate.phase t) eqn:Ep; try done;
      destruct Hcase as (_ & Hlt & Hp); cbn in Hlt |- *;
      destruct p; try done; cbn in Hlt |- *;
      (split; [lia|]); (split; [intros k' Hk'; rewrite Hp, ?Hz by done; lia|]);
      rewrite ?Hp, ?Ho; try done;
      (split; [|done]); unfold Gate.holds_slot; cbn;
      by rewrite bool_decide_eq_true_2.
  - intros Hfin. rewrite (GateFacts.held_none_finished k st Hfin) in Hsum. lia.
Qed.

Lemma concurrency_bound_witness :
  Gate.start 1 three_tasks = Some three_tasks_opened /\
  Gate.run_schedule raise_then_cancel three_tasks_opened = Some gate_after_failures /\
  Gate.sem Gate.Detail gate_after_failures = 1 /\
  Gate.sem Gate.Comments gate_after_failures = 1.
Proof.
  split; [reflexivity |]. split; [reflexivity |].
  split.
  - apply (concurrency_bound 1 three_tasks raise_then_cancel three_tasks_opened
             gate_after_failures Gate.Detail); reflexivity.
  - apply (concurrency_bound 1 three_tasks raise_then_cancel three_tasks_opened
             gate_after_failures Gate.Comments); reflexivity.
Defined.
(** ** Rules for [preserves] *)

Section Rules.
Context (T : State -> State -> Prop) `{!PreOrder T}.

Lemma preserves_mret {A} (a : A) : preserves T (mret a).
Proof. intros s r s' [= <- <-]. reflexivity. Qed.

Lemma preserves_gets {A} (f : State -> A) : preserves T (gets f).
Proof. intros s r s' [= <- <-]. reflexivity. Qed.

Lemma preserves_raise {A} (e : Exn) : preserves T (@raise A e).
Proof. intros s r s' [= <- <-]. reflexivity. Qed.

Lemma preserves_out_of_fuel {A} : preserves T (@out_of_fuel A).
Proof. intros s r s' [= <- <-]. reflexivity. Qed.

Lemma preserves_modify (f : State -> State) :
  (forall s, T s (f s)) -> preserves T (modify f).
Proof. intros H s r s' [= <- <-]. apply H. Qed.

Lemma preserves_bind {A B} (m : M A) (k : A -> M B) :
  preserves T m -> (forall a, preserves T (k a)) -> preserves T (m ≫= k).
Proof.
  intros Hm Hk s r s'. unfold mbind, M_bind.
  destruct (m s) as [[a|e|] s1] eqn:E; intros H.
  - etransitivity; [by eapply Hm | by eapply Hk].
  - injection H as <- <-. by eapply Hm.
  - injection H as <- <-. by eapply Hm.
Qed.

Lemma preserves_bind_dep {A B} (m : M A) (k : A -> M B) :
  preserves T m ->
  (forall a, (exists s s1, m s = (Ok a, s1)) -> preserves T (k a)) ->
  preserves T (m ≫= k).
Proof.
  intros Hm Hk s r s'. unfold mbind, M_bind.
  destruct (m s) as [[a|e|] s1] eqn:E; intros H.
  - etransitivity; [by eapply Hm | eapply Hk; eauto].
  - injection H as <- <-. by eapply Hm.
  - injection H as <- <-. by eapply Hm.
Qed.

Lemma preserves_try_except {A} (m : M A) (h : Exn -> option (M A)) :
  preserves T m -> (forall e k, h e = Some k -> preserves T k) ->
  preserves T (try_except m h).
Proof.
  intros Hm Hh s r s'. unfold try_except.
  destruct (m s) as [[a|e|] s1] eqn:E; intros H.
  - injection H as <- <-. by eapply Hm.
  - destruct (h e) as [k|] eqn:Ek.
    + etransitivity; [by eapply Hm | by eapply Hh].
    + injection H as <- <-. by eapply Hm.
  - injection H as <- <-. by eapply Hm.
Qed.

Lemma preserves_try_finally {A} (m : M A) (fin : M unit) :
  preserves T m -> preserves T fin -> preserves T (try_finally m fin).
Proof.
  intros Hm Hf s r s'. unfold try_finally.
  destruct (m s) as [[a|e|] s1] eqn:E; intros H.
  - destruct (fin s1) as [[[]|e'|] s2] eqn:E2; injection H as <- <-;
      (etransitivity; [by eapply Hm | by eapply Hf]).
  - destruct (fin s1) as [[[]|e'|] s2] eqn:E2; injection H as <- <-;
      (etransitivity; [by eapply Hm | by eapply Hf]).
  - injection H as <- <-. by eapply Hm.
Qed.

Lemma preserves_except_Exception {A} (k : Exn -> M A) e k' :
  (forall e, preserves T (k e)) -> except_Exception k e = Some k' -> preserves T k'.
Proof. unfold except_Exception. destruct (is_Exception e); naive_solver. Qed.

Lemma preserves_except_RetryError {A} (k : Exn -> M A) e k' :
  (forall e, preserves T (k e)) -> except_RetryError k e = Some k' -> preserves T k'.
Proof. unfold except_RetryError. destruct e; naive_solver. Qed.

Lemma preserves_retry_loop {A} (more : nat) (w : Q) (f : M A) :
  preserves T (sleep w) -> preserves T f -> preserves T (retry_loop more w f).
Proof.
  intros Hs Hf. induction more as [|more IH]; intros s r s'; simpl;
    destruct (f s) as [[a|e|] s1] eqn:E; intros H;
    try (injection H as <- <-; by eapply Hf).
  - destruct (is_Exception e); injection H as <- <-; by eapply Hf.
  - destruct (is_Exception e); [| injection H as <- <-; by eapply Hf].
    etransitivity; [by eapply Hf |].
    eapply (preserves_bind (sleep w) (fun _ => retry_loop more w f)); eauto.
Qed.

Lemma preserves_retry {A} (n : nat) (w : Q) (f : M A) :
  preserves T (sleep w) -> preserves T f -> preserves T (retry n w f).
Proof. apply preserves_retry_loop. Qed.
End Rules.

(** ** The two relations are preorders *)

Lemma frame_bound_account P s s' : frame P s s' -> bound_account s' = bound_account s.
Proof.
  intros [_ _ _ Hi Hb _ _ _ _ _ _ _]. unfold bound_account, bound. rewrite Hi.
  destruct (account_info s) as [b|]; [|done]. cbn.
  by rewrite <- !list_lookup_fmap, Hb.
Qed.

#[global] Instance extends_preorder P : PreOrder (extends P).
Proof.
  split.
  - intros s. unfold extends. eexists. split; [symmetry; apply app_nil_r | constructor].
  - intros s1 s2 s3 [e1 [H1 F1]] [e2 [H2 F2]]. exists (e1 ++ e2). split.
    + by rewrite H2, H1, app_assoc.
    + by apply Forall_app.
Qed.

Lemma new_events_app s s' evs : trace s' = trace s ++ evs -> new_events s s' = evs.
Proof. intros H. unfold new_events. rewrite H. apply drop_app_length. Qed.

Lemma new_events_same s s' : trace s' = trace s -> new_events s s' = [].
Proof. intros H. apply new_events_app. by rewrite app_nil_r. Qed.

#[global] Instance frame_preorder P : PreOrder (frame P).
Proof.
  split.
  - intros s. constructor; first [done | reflexivity].
  - intros s1 s2 s3 H12 H23.
    pose proof (frame_bound_account _ _ _ H12) as Hb.
    destruct H12 as [? ? ? ? ? ? ? ? ? ? E12 B12], H23 as [? ? ? ? ? ? ? ? ? ? E23 B23].
    constructor; try congruence.
    + rewrite Hb in *. etransitivity; eauto.
    + destruct E12 as [e1 [T1 _]], E23 as [e2 [T2 _]].
      rewrite (new_events_app _ _ _ T1) in B12.
      rewrite (new_events_app _ _ _ T2) in B23.
      rewrite (new_events_app s1 s3 (e1 ++ e2)) by (by rewrite T2, T1, app_assoc).
      intros [F1 F2]%Forall_app. rewrite B23, B12; done.
Qed.

Lemma extends_emit (P : Event -> Prop) ev :
  P ev -> preserves (extends P) (emit ev).
Proof.
  intros H. apply preserves_modify. intros s. exists [ev]. split; [done|].
  by constructor.
Qed.

Lemma frame_emit P ev :
  (forall a, P a ev) -> is_assign_ip ev = false -> preserves (frame P) (emit ev).
Proof.
  intros H Hev. apply preserves_modify. intros s.
  constructor; try done. exists [ev]. split; [done|]. by constructor.
Qed.

Lemma frame_same_trace P s s' :
  accounts s' = accounts s -> _account_list s' = _account_list s -> xlsx s' = xlsx s ->
  account_info s' = account_info s ->
  bindings s' = bindings s ->
  config s' = config s -> _user_agent s' = _user_agent s ->
  common_verify_params s' = common_verify_params s ->
  request_keyword_var s' = request_keyword_var s ->
  checkpoints s' = checkpoints s ->
  trace s' = trace s -> frame P s s'.
Proof.
  intros. constructor; try done; try congruence.
  unfold extends. eexists. split; [| constructor]. by rewrite app_nil_r.
Qed.

Lemma extends_same_trace P s s' : trace s' = trace s -> extends P s s'.
Proof.
  intros H. unfold extends. eexists. split; [| constructor]. by rewrite app_nil_r.
Qed.

Lemma frame_extends P s s' : frame P s s' -> extends (P (bound_account s)) s s'.
Proof. by intros []. Qed.

Lemma extends_mono (P Q : Event -> Prop) s s' :
  (forall ev, P ev -> Q ev) -> extends P s s' -> extends Q s s'.
Proof.
  intros H [evs [Ht F]]. exists evs. split; [done|]. eapply Forall_impl; eauto.
Qed.

#[global] Instance effect_preorder Q : PreOrder (effect Q).
Proof.
  split.
  - intros s. constructor; reflexivity.
  - intros s1 s2 s3 [] []. constructor; [by etransitivity | congruence | congruence].
Qed.

Lemma effect_emit (Q : Event -> Prop) ev : Q ev -> preserves (effect Q) (emit ev).
Proof.
  intros H. apply preserves_modify. intros s. constructor; try done.
  exists [ev]. split; [done|]. by constructor.
Qed.

Lemma effect_same_trace Q s s' :
  config s' = config s -> checkpoints s' = checkpoints s -> trace s' = trace s ->
  effect Q s s'.
Proof. intros. constructor; try done. by apply extends_same_trace. Qed.

Lemma frame_effect P s s' : frame P s s' -> effect (P (bound_account s)) s s'.
Proof. intros F. constructor; [apply F | apply F | apply F]. Qed.

Lemma map_account_alter (b : nat) (p : option IpInfoModel) (l : list AccountWithIpModel) :
  field.account <$>
    (alter (fun o => {| field.account := field.account o; field.ip_info := p |}) b l)
  = field.account <$> l.
Proof.
  revert b. induction l as [|x l IH]; intros [|b]; simpl; try done.
  f_equal. apply IH.
Qed.

(** Goals [preserves T m] are split along the structure of [m]. *)
Ltac pres_leaf :=
  first
    [ apply preserves_mret; apply _
    | apply preserves_gets; apply _
    | apply preserves_raise; apply _
    | apply preserves_out_of_fuel; apply _ ].

Ltac pres_step :=
  first
    [ pres_leaf
    | match goal with
      | |- preserves (frame _) (emit _) => apply frame_emit; [intros ? | reflexivity]
      | |- preserves (extends _) (emit _) => apply extends_emit
      | |- preserves (effect _) (emit _) => apply effect_emit
      end
    | apply preserves_bind; [apply _ | | intros ?]
    | apply preserves_try_except; [apply _ | | intros ? ? ?]
    | apply preserves_try_finally; [apply _ | |]
    | apply preserves_retry; [apply _ | |]
    | match goal with
      | H : except_Exception _ _ = Some _ |- _ =>
          eapply preserves_except_Exception; [| exact H]; intros ?; cbv beta
      | H : except_RetryError _ _ = Some _ |- _ =>
          eapply preserves_except_RetryError; [| exact H]; intros ?; cbv beta
      | |- preserves _ (if ?b then _ else _) => destruct b eqn:?
      | |- preserves _ (match ?x with _ => _ end) => destruct x eqn:?
      | |- preserves _ (let '(_, _) := ?x in _) => destruct x eqn:?
      end ].

Ltac frame_modify :=
  apply preserves_modify; intros ?;
  apply frame_same_trace; cbn; try reflexivity.

Ltac extends_modify :=
  apply preserves_modify; intros ?;
  apply extends_same_trace; cbn; try reflexivity.

Ltac effect_modify :=
  apply preserves_modify; intros ?;
  apply effect_same_trace; cbn; try reflexivity.

Create HintDb pres discriminated.

Ltac pres :=
  repeat first [ solve [eauto 2 with pres] | pres_step | frame_modify | extends_modify
               | effect_modify ].

(** ** The request layer stays inside its frame *)

Section RequestLayer.
Variable env : Env.
Variable P : option nat -> Event -> Prop.
Hypothesis infra : forall a ev, is_infra ev = true -> P a ev.

Lemma sleep_frame w : preserves (frame P) (sleep w).
Proof. unfold sleep. pres; by apply infra. Qed.
Hint Resolve sleep_frame : pres.

Lemma the_pool_frame : preserves (frame P) the_pool.
Proof. unfold the_pool. pres. Qed.
Hint Resolve the_pool_frame : pres.

Lemma set_proxy_list_frame l : preserves (frame P) (set_proxy_list l).
Proof. unfold set_proxy_list. pres. Qed.
Hint Resolve set_proxy_list_frame : pres.

Lemma get_proxies_frame n : preserves (frame P) (get_proxies env n).
Proof. unfold get_proxies. pres; by apply infra. Qed.
Hint Resolve get_proxies_frame : pres.

Lemma load_proxies_frame : preserves (frame P) (load_proxies env).
Proof. unfold load_proxies. pres. Qed.
Hint Resolve load_proxies_frame : pres.

Lemma _reload_proxies_frame : preserves (frame P) (_reload_proxies env).
Proof. unfold _reload_proxies. pres. Qed.
Hint Resolve _reload_proxies_frame : pres.

Lemma _is_valid_proxy_frame p : preserves (frame P) (_is_valid_proxy env p).
Proof. unfold _is_valid_proxy. pres; by apply infra. Qed.
Hint Resolve _is_valid_proxy_frame : pres.

Lemma ProxyIpPool_mark_ip_invalid_frame p :
  preserves (frame P) (ProxyIpPool_mark_ip_invalid p).
Proof.
  unfold ProxyIpPool_mark_ip_invalid. pres; by apply infra.
Qed.
Hint Resolve ProxyIpPool_mark_ip_invalid_frame : pres.

Lemma get_proxy_attempt_frame : preserves (frame P) (get_proxy_attempt env).
Proof.
  unfold get_proxy_attempt. pres; by apply infra.
Qed.
Hint Resolve get_proxy_attempt_frame : pres.

Lemma get_proxy_frame : preserves (frame P) (get_proxy env).
Proof. unfold get_proxy. pres. Qed.
Hint Resolve get_proxy_frame : pres.

Lemma pool_mark_ip_invalid_frame o : preserves (frame P) (pool_mark_ip_invalid o).
Proof. unfold pool_mark_ip_invalid. pres. Qed.
Hint Resolve pool_mark_ip_invalid_frame : pres.

Lemma js_sign_attempt_frame r : preserves (frame P) (js_sign_attempt env r).
Proof. unfold js_sign_attempt. pres; by apply infra. Qed.
Hint Resolve js_sign_attempt_frame : pres.

Lemma sign_frame r : preserves (frame P) (sign env r).
Proof. unfold sign, DouyinJavascriptSign_sign. pres. Qed.
Hint Resolve sign_frame : pres.

Lemma _pre_url_params_frame u p : preserves (frame P) (_pre_url_params env u p).
Proof. unfold _pre_url_params. pres. Qed.
Hint Resolve _pre_url_params_frame : pres.

Lemma _reset_http_client_frame : preserves (frame P) _reset_http_client.
Proof. unfold _reset_http_client. pres. Qed.
Hint Resolve _reset_http_client_frame : pres.

Lemma assign_ip_info_frame p : preserves (frame P) (assign_ip_info p).
Proof.
  intros s r s'. cbv [assign_ip_info mbind M_bind gets raise modify emit].
  destruct (account_info s) as [b|] eqn:Eb; intros [= <- <-]; [| reflexivity].
  constructor; cbn; try done.
  - apply map_account_alter.
  - eexists [_]. split; [done|]. constructor; [|done]. by apply infra.
  - unfold new_events. cbn. rewrite drop_app_length. by intros [[=] _]%Forall_cons.
Qed.
Hint Resolve assign_ip_info_frame : pres.

Lemma check_ip_expired_frame : preserves (frame P) (check_ip_expired env).
Proof. unfold check_ip_expired. pres. Qed.
Hint Resolve check_ip_expired_frame : pres.

Lemma read_response_frame r : preserves (frame P) (read_response env r).
Proof. unfold read_response. pres. Qed.
Hint Resolve read_response_frame : pres.
End RequestLayer.

Section RequestFrame.
Variable env : Env.
Variable P : option nat -> Event -> Prop.
Hypothesis infra : forall a ev, is_infra ev = true -> P a ev.

Lemma log_dispatch_frame req :
  (forall a via t, P a (EvDispatch req a via t)) ->
  preserves (frame P) (log_dispatch req).
Proof.
  intros H s r s' [= <- <-]. constructor; try done.
  eexists [_]. split; [done|]. constructor; [apply H | constructor].
Qed.

Lemma prepare_request_frame method url params body kw :
  preserves (frame P) (prepare_request env method url params body kw).
Proof.
  unfold prepare_request. pose proof (check_ip_expired_frame env P infra). pres.
Qed.

Lemma prepare_request_shape method url params body kw s req s' :
  prepare_request env method url params body kw s = (Ok req, s') ->
  exists hdrs cl, req = {| method := method; url := url; params := params; body := body;
                           headers := hdrs; via_proxy := cl |}.
Proof.
  unfold prepare_request. cbv [mbind M_bind mret M_ret gets modify].
  repeat (case_match; simplify_eq/=); intros; simplify_eq/=; eauto.
Qed.

Lemma transport_frame req :
  (forall a via t, P a (EvDispatch req a via t)) ->
  preserves (frame P) (transport env req).
Proof.
  intros H. unfold transport. pose proof (log_dispatch_frame req H). pres.
Qed.

Lemma interpret_response_frame kw r : preserves (frame P) (interpret_response env kw r).
Proof.
  unfold interpret_response. pose proof (read_response_frame env P). pres.
Qed.

Lemma request_attempt_frame method url params body kw :
  (forall a hdrs cl via t,
      P a (EvDispatch {| method := method; url := url; params := params; body := body;
                         headers := hdrs; via_proxy := cl |} a via t)) ->
  preserves (frame P) (request_attempt env method url params body kw).
Proof.
  intros H s r s'. unfold request_attempt. cbv [mbind M_bind].
  destruct (prepare_request _ _ _ _ _ _ s) as [[req|e|] s1] eqn:E1.
  - destruct (prepare_request_shape _ _ _ _ _ _ _ _ E1) as (hdrs & cl & ->).
    apply prepare_request_frame in E1.
    destruct (transport _ _ s1) as [[resp|e|] s2] eqn:E2;
      (apply transport_frame in E2; [| intros; apply H]).
    + intros E3%interpret_response_frame. by do 2 (etransitivity; [eassumption|]).
    + intros [= <- <-]. by etransitivity.
    + intros [= <- <-]. by etransitivity.
  - intros [= <- <-]. by eapply prepare_request_frame.
  - intros [= <- <-]. by eapply prepare_request_frame.
Qed.

Lemma request_frame method url params body kw :
  (forall a hdrs cl via t,
      P a (EvDispatch {| method := method; url := url; params := params; body := body;
                         headers := hdrs; via_proxy := cl |} a via t)) ->
  preserves (frame P) (request env method url params body kw).
Proof.
  intros H. unfold request.
  pose proof (sleep_frame P infra).
  pose proof (request_attempt_frame method url params body kw H).
  pres.
Qed.
End RequestFrame.

(** ** Counting the requests that reach the transport *)

Lemma count_events_app Q l1 l2 :
  count_events Q (l1 ++ l2) = (count_events Q l1 + count_events Q l2)%nat.
Proof. unfold count_events. by rewrite filter_app, length_app. Qed.

Lemma count_events_none Q l :
  Forall (fun ev => Q ev = false) l -> count_events Q l = 0%nat.
Proof.
  unfold count_events. induction 1 as [|ev l H _ IH]; [done|].
  rewrite filter_cons. case_decide; [congruence | done].
Qed.

Lemma count_events_zero Q l :
  count_events Q l = 0%nat -> Forall (fun ev => Q ev = false) l.
Proof.
  unfold count_events. induction l as [|ev l IH]; [constructor|].
  rewrite filter_cons. case_decide as E; [done|]. intros H.
  constructor; [by destruct (Q ev) | by apply IH].
Qed.

Lemma extends_dispatches (Q : Event -> Prop) s s' :
  (forall ev, Q ev -> is_dispatch ev = false) -> extends Q s s' ->
  dispatches s' = dispatches s.
Proof.
  intros HQ [evs [Ht F]]. unfold dispatches. rewrite Ht, count_events_app.
  rewrite (count_events_none is_dispatch evs); [lia|].
  eapply Forall_impl; eauto.
Qed.

Lemma frame_no_dispatch s s' : frame no_dispatch s s' -> dispatches s' = dispatches s.
Proof.
  intros H. eapply extends_dispatches; [| apply (fr_trace _ _ _ H)].
  intros [] Hev; done.
Qed.

Section Counting.
Variable env : Env.

Lemma transport_dispatches req s r s' :
  transport env req s = (r, s') -> dispatches s' = S (dispatches s).
Proof.
  unfold transport. cbv [mbind M_bind gets log_dispatch emit modify raise mret M_ret].
  assert (forall a v t, count_events is_dispatch [EvDispatch req a v t] = 1%nat) as Hone
    by done.
  destruct (server env _ req); intros [= <- <-]; unfold dispatches;
    cbn [trace set_trace set_clock]; rewrite count_events_app, Hone; lia.
Qed.

Lemma request_attempt_dispatches method url params body kw s r s' :
  request_attempt env method url params body kw s = (r, s') ->
  (dispatches s' <= dispatches s + 1)%nat.
Proof.
  unfold request_attempt. cbv [mbind M_bind].
  destruct (prepare_request _ _ _ _ _ _ s) as [[req|e|] s1] eqn:E1;
    apply (prepare_request_frame env no_dispatch) in E1; try done;
    apply frame_no_dispatch in E1.
  - destruct (transport _ _ s1) as [[resp|e|] s2] eqn:E2;
      apply transport_dispatches in E2.
    + intros E3. apply (interpret_response_frame env no_dispatch) in E3; try done.
      apply frame_no_dispatch in E3. lia.
    + intros [= <- <-]. lia.
    + intros [= <- <-]. lia.
  - intros [= <- <-]. lia.
  - intros [= <- <-]. lia.
Qed.

Lemma sleep_dispatches w s r s' : sleep w s = (r, s') -> dispatches s' = dispatches s.
Proof.
  intros H. apply (sleep_frame no_dispatch) in H; try done. by apply frame_no_dispatch.
Qed.

Lemma retry_loop_dispatches {A} (f : M A) (more : nat) w s r s' :
  (forall s r s', f s = (r, s') -> (dispatches s' <= dispatches s + 1)%nat) ->
  retry_loop more w f s = (r, s') ->
  (dispatches s' <= dispatches s + S more)%nat.
Proof.
  intros Hf. revert s. induction more as [|more IH]; intros s; simpl;
    destruct (f s) as [[a|e|] s1] eqn:E; apply Hf in E;
    try (intros [= <- <-]; lia).
  - destruct (is_Exception e); intros [= <- <-]; lia.
  - destruct (is_Exception e); [| intros [= <- <-]; lia].
    cbv [mbind M_bind]. destruct (sleep w s1) as [[[]|e'|] s2] eqn:E2;
      apply sleep_dispatches in E2.
    + intros H%IH. lia.
    + intros [= <- <-]. lia.
    + intros [= <- <-]. lia.
Qed.

Lemma request_dispatches method url params body kw s r s' :
  request env method url params body kw s = (r, s') ->
  (dispatches s' <= dispatches s + 5)%nat.
Proof.
  intros H. eapply (retry_loop_dispatches _ 4); [| exact H].
  apply request_attempt_dispatches.
Qed.

Lemma sign_and_request_dispatches uri params kw s r s' :
  sign_and_request env uri params kw s = (r, s') ->
  (dispatches s' <= dispatches s + 5)%nat.
Proof.
  unfold sign_and_request. cbv [mbind M_bind].
  destruct (_pre_url_params env uri params s) as [[p|e|] s1] eqn:E1;
    apply (_pre_url_params_frame env no_dispatch) in E1; try done;
    apply frame_no_dispatch in E1.
  - intros H%request_dispatches. lia.
  - intros [= <- <-]. lia.
  - intros [= <- <-]. lia.
Qed.
End Counting.

(** ** The [try] block of [get] and the re-issued request *)

Lemma request_effect_infra target a ev : is_infra ev = true -> request_effect target a ev.
Proof. by destruct ev. Qed.

Section GetFacts.
Variable env : Env.

Lemma request_effect_frame method target params body kw :
  preserves (frame (request_effect target)) (request env method target params body kw).
Proof. apply request_frame; [apply request_effect_infra | done]. Qed.

Lemma sign_and_request_frame uri params kw :
  preserves (frame (request_effect (DOUYIN_API_URL env +:+ uri)))
            (sign_and_request env uri params kw).
Proof.
  unfold sign_and_request.
  pose proof (_pre_url_params_frame env _ (request_effect_infra (DOUYIN_API_URL env +:+ uri))).
  pose proof (request_effect_frame "GET" (DOUYIN_API_URL env +:+ uri)).
  pres.
Qed.

Lemma get_try_frame uri params kw s r p1 s1 :
  get_try env uri params kw s = ((r, p1), s1) ->
  frame (request_effect (DOUYIN_API_URL env +:+ uri)) s s1 /\
  (dispatches s1 <= dispatches s + 5)%nat.
Proof.
  unfold get_try.
  destruct (_pre_url_params env uri params s) as [[p|e|] s0] eqn:E0.
  - destruct (request _ _ _ _ _ _ s0) as [r' s2] eqn:E1. intros [= <- <- <-].
    pose proof (_pre_url_params_frame env _
                  (request_effect_infra (DOUYIN_API_URL env +:+ uri)) _ _ _ _ _ E0) as F0.
    pose proof (_pre_url_params_frame env no_dispatch
                  ltac:(done) _ _ _ _ _ E0) as N0%frame_no_dispatch.
    pose proof (request_effect_frame _ _ _ _ _ _ _ _ E1) as F1.
    apply request_dispatches in E1. split; [by etransitivity | lia].
  - intros [= <- <- <-].
    pose proof (_pre_url_params_frame env no_dispatch
                  ltac:(done) _ _ _ _ _ E0) as N0%frame_no_dispatch.
    split; [| lia].
    eapply (_pre_url_params_frame env _ (request_effect_infra _)); eauto.
  - intros [= <- <- <-].
    pose proof (_pre_url_params_frame env no_dispatch
                  ltac:(done) _ _ _ _ _ E0) as N0%frame_no_dispatch.
    split; [| lia].
    eapply (_pre_url_params_frame env _ (request_effect_infra _)); eauto.
Qed.

(** [get] with budget left is its [try] block, and on [RetryError] its
    [except] clause run from the state the block ended in. *)
Lemma get_unfold fuel uri params kw s :
  get env (S fuel) uri params kw s =
  match get_try env uri params kw s with
  | ((Raise (RetryError e), p1), s1) =>
      get_except env (update_account_info env fuel) uri p1 kw e s1
  | ((r, _), s1) => (r, s1)
  end.
Proof. reflexivity. Qed.
End GetFacts.

(** ** Invalidation by the client *)

Lemma client_mark_account_invalid_spec (s : State) (b a : nat) (o : AccountWithIpModel) :
  bindings s !! b = Some o -> field.account o = a ->
  exists s2 ips,
    client_mark_account_invalid (Some b) s = (Ok tt, s2) /\
    trace s2 = trace s ++ EvAccountStatus a (field.value INVALID) :: ips /\
    Forall (fun ev => is_ip_invalid ev = true) ips /\
    accounts s2 = alter (invalidated (clock s)) a (accounts s) /\
    account_info s2 = account_info s /\ bindings s2 = bindings s /\
    _account_list s2 = _account_list s /\ xlsx s2 = xlsx s.
Proof.
  intros Hb <-.
  cbv [client_mark_account_invalid pool_mark_account_invalid update_account_status
       pool_mark_ip_invalid ProxyIpPool_mark_ip_invalid the_pool set_proxy_list
       mbind M_bind option_bind mret M_ret option_ret gets modify emit raise].
  destruct s as [? ? ? ? ? ? ? ? pool ? ? ? ? ? ? ? ? ?]. cbn in *.
  repeat (rewrite Hb; cbn).
  destruct (field.ip_info o) as [p|]; [destruct pool as [pool|] |];
    cbn; eexists _, _; (split; [reflexivity|]); cbn;
    rewrite <- ?app_assoc; (split; [reflexivity|]); split; try done;
    repeat constructor.
Qed.

(** ** Rotation and back-off in [get] *)

Lemma frame_binding P s s' b o :
  frame P s s' -> bindings s !! b = Some o ->
  exists o', bindings s' !! b = Some o' /\ field.account o' = field.account o.
Proof.
  intros F Hb. pose proof (fr_binding_accounts _ _ _ F) as Hm.
  assert ((field.account <$> bindings s') !! b = Some (field.account o)) as H.
  { rewrite Hm, list_lookup_fmap, Hb. done. }
  rewrite list_lookup_fmap in H. destruct (bindings s' !! b) as [o'|]; [|done].
  exists o'. split; [done|]. by injection H.
Qed.

Lemma frame_no_status target s s' :
  frame (request_effect target) s s' ->
  count_events is_account_status (new_events s s') = 0%nat /\
  count_events is_get_account (new_events s s') = 0%nat.
Proof.
  intros [_ _ _ _ _ _ _ _ _ _ [evs [Ht F]] _]. rewrite (new_events_app _ _ _ Ht).
  split; apply count_events_none; eapply Forall_impl; eauto; by intros [].
Qed.

(** ** What the client does, rotation included *)

Lemma dict_get_set_eq {V} (k : string) (v : V) (d : list (string * V)) :
  dict_get k (dict_set k v d) = Some v.
Proof.
  induction d as [|[k' v'] d IH]; cbn.
  - by rewrite String.eqb_refl.
  - destruct (String.eqb k k') eqn:E; cbn; rewrite ?String.eqb_refl, ?E; done.
Qed.

Lemma dict_get_set_ne {V} (k k' : string) (v : V) (d : list (string * V)) :
  String.eqb k k' = false -> dict_get k (dict_set k' v d) = dict_get k d.
Proof.
  intros Hk. induction d as [|[k'' v''] d IH]; cbn.
  - by rewrite Hk.
  - destruct (String.eqb k' k'') eqn:E; cbn.
    + apply String.eqb_eq in E as <-. by rewrite Hk.
    + destruct (String.eqb k k''); done.
Qed.

Lemma dict_get_update_None {V} (k : string) (d other : list (string * V)) :
  dict_get k d = None -> dict_get k other = None -> dict_get k (dict_update d other) = None.
Proof.
  unfold dict_update. revert d. induction other as [|[k' v'] other IH]; intros d Hd Ho; [done|].
  cbn in *. destruct (String.eqb k k') eqn:E; [done|].
  apply IH; [|done]. by rewrite dict_get_set_ne.
Qed.

Lemma append_eqb_prefix (a x y : string) :
  String.eqb (a +:+ x) (a +:+ y) = String.eqb x y.
Proof.
  induction a as [|c a IH]; [done|].
  change (String.eqb (String c (a +:+ x)) (String c (a +:+ y)) = String.eqb x y).
  cbn [String.eqb]. by rewrite Ascii.eqb_refl.
Qed.

Section ClientEffect.
Variable env : Env.
Variable Q : Event -> Prop.
Hypothesis Q_other : forall ev, is_dispatch ev = false -> Q ev.

Let infra : forall (a : option nat) ev, is_infra ev = true -> Q ev.
Proof. intros _ ev H. apply Q_other. by destruct ev. Qed.

(** The request layer, by its frame. *)
Lemma frame_to_effect {A} (m : M A) :
  preserves (frame (fun _ => Q)) m -> preserves (effect Q) m.
Proof. intros H s r s' E. by apply (frame_effect (fun _ => Q)), (H s r s'). Qed.

(** Every request to [uri] with parameters [p] may be dispatched. *)
Definition allows (uri : string) (p : option Params) : Prop :=
  forall method body hdrs cl a via t,
    Q (EvDispatch {| method := method; url := DOUYIN_API_URL env +:+ uri; params := p;
                     body := body; headers := hdrs; via_proxy := cl |} a via t).

Lemma request_effect_of method uri p body kw :
  allows uri p ->
  preserves (effect Q) (request env method (DOUYIN_API_URL env +:+ uri) p body kw).
Proof.
  intros H. apply frame_to_effect, request_frame; [exact infra|].
  intros. apply H.
Qed.

Lemma _pre_url_params_effect uri q : preserves (effect Q) (_pre_url_params env uri q).
Proof. apply frame_to_effect, _pre_url_params_frame, infra. Qed.

Lemma sleep_effect w : preserves (effect Q) (sleep w).
Proof. apply frame_to_effect, sleep_frame, infra. Qed.

Lemma get_proxy_effect : preserves (effect Q) (get_proxy env).
Proof. apply frame_to_effect, get_proxy_frame, infra. Qed.

Lemma pool_mark_ip_invalid_effect o : preserves (effect Q) (pool_mark_ip_invalid o).
Proof. apply frame_to_effect, pool_mark_ip_invalid_frame, infra. Qed.

Lemma _reset_http_client_effect : preserves (effect Q) _reset_http_client.
Proof. apply frame_to_effect, _reset_http_client_frame. Qed.

Hint Resolve _pre_url_params_effect sleep_effect get_proxy_effect
  pool_mark_ip_invalid_effect _reset_http_client_effect : pres.

(** The account pool. *)
Lemma update_account_status_effect a st : preserves (effect Q) (update_account_status a st).
Proof. unfold update_account_status. pres; by apply Q_other. Qed.
Hint Resolve update_account_status_effect : pres.

Lemma client_mark_account_invalid_effect o :
  preserves (effect Q) (client_mark_account_invalid o).
Proof. unfold client_mark_account_invalid, pool_mark_account_invalid. pres. Qed.
Hint Resolve client_mark_account_invalid_effect : pres.

Lemma load_rows_effect rows i : preserves (effect Q) (load_rows rows i).
Proof.
  revert i. induction rows as [|row rows IH]; intros i; cbn [load_rows]; unfold add_account; pres.
Qed.
Hint Resolve load_rows_effect : pres.

Lemma _reload_accounts_effect : preserves (effect Q) _reload_accounts.
Proof. unfold _reload_accounts, load_accounts_from_xlsx. pres; by apply Q_other. Qed.
Hint Resolve _reload_accounts_effect : pres.

Lemma get_active_account_effect : preserves (effect Q) get_active_account.
Proof. unfold get_active_account. pres. Qed.
Hint Resolve get_active_account_effect : pres.

Lemma get_account_with_ip_info_effect : preserves (effect Q) (get_account_with_ip_info env).
Proof. unfold get_account_with_ip_info. pres; by apply Q_other. Qed.
Hint Resolve get_account_with_ip_info_effect : pres.

(** Binding, for any way [g] of making the probe. *)
Section Binding.
Variable g : GetFn.
Hypothesis g_probe : forall q, preserves (effect Q) (g HISTORY_URI q no_kwargs).

Lemma pong_effect : preserves (effect Q) (pong g).
Proof. unfold pong, check_login_status_via_user_self. pres. Qed.
Hint Resolve pong_effect : pres.

Lemma update_account_turn_effect n : preserves (effect Q) (update_account_turn env g n).
Proof. unfold update_account_turn. pres. Qed.
Hint Resolve update_account_turn_effect : pres.

Lemma update_account_loop_effect n : preserves (effect Q) (update_account_loop env g n).
Proof. induction n as [|n IH]; cbn [update_account_loop]; pres. Qed.
Hint Resolve update_account_loop_effect : pres.

Lemma update_account_info_with_effect :
  preserves (effect Q) (update_account_info_with env g).
Proof. unfold update_account_info_with. pres. Qed.
End Binding.

(** [get] and [post]. The parameters that reach [request] are those
    [_pre_url_params] returned; [pre] is what is known of the parameters
    the caller passed, and is kept by signing. *)
Section Get.
Variable upd : M unit.
Variable uri : string.
Variable pre : option Params -> Prop.
Hypothesis upd_effect : preserves (effect Q) upd.
Hypothesis signed :
  forall q s p s', pre q -> _pre_url_params env uri q s = (Ok p, s') ->
                   allows uri (Some p) /\ pre (Some p).

Lemma sign_and_request_effect q kw :
  pre q -> preserves (effect Q) (sign_and_request env uri q kw).
Proof.
  intros Hq. unfold sign_and_request.
  apply preserves_bind_dep; [apply _ | apply _pre_url_params_effect |].
  intros p (s & s1 & E). apply request_effect_of. by eapply signed.
Qed.

Lemma get_except_effect q kw e :
  pre q -> preserves (effect Q) (get_except env upd uri q kw e).
Proof.
  intros Hq. pose proof (sign_and_request_effect q kw Hq).
  unfold get_except. pres.
Qed.

Lemma get_with_effect q kw :
  pre q -> preserves (effect Q) (get_with env upd uri q kw).
Proof.
  intros Hq s r s'. unfold get_with, get_try.
  destruct (_pre_url_params env uri q s) as [[p|e|] s1] eqn:E0.
  - destruct (signed _ _ _ _ Hq E0) as [Hal Hp].
    apply _pre_url_params_effect in E0.
    destruct (request _ _ _ _ _ _ s1) as [r1 s2] eqn:E1.
    apply (request_effect_of _ _ _ _ _ Hal) in E1.
    assert (effect Q s s2) as E02 by (by etransitivity).
    destruct r1 as [?|e|]; try (intros [= <- <-]; exact E02).
    destruct e; try (intros [= <- <-]; exact E02).
    intros E2%(get_except_effect _ _ _ Hp). by etransitivity.
  - apply _pre_url_params_effect in E0.
    destruct e; try (intros [= <- <-]; exact E0).
    intros E2%(get_except_effect _ _ _ Hq). by etransitivity.
  - apply _pre_url_params_effect in E0. intros [= <- <-]. exact E0.
Qed.
End Get.

Hypothesis probe_signed :
  forall q s p s', _pre_url_params env HISTORY_URI q s = (Ok p, s') ->
                   allows HISTORY_URI (Some p).

Lemma get_effect fuel uri (pre : option Params -> Prop) q kw :
  (forall q s p s', pre q -> _pre_url_params env uri q s = (Ok p, s') ->
                    allows uri (Some p) /\ pre (Some p)) ->
  pre q -> preserves (effect Q) (get env fuel uri q kw).
Proof.
  revert uri pre q kw. induction fuel as [|fuel IH]; intros uri pre q kw Hs Hq.
  - cbn [get]. pres.
  - cbn [get]. apply (get_with_effect _ uri pre); [|exact Hs|exact Hq].
    apply update_account_info_with_effect. intros q'.
    apply (IH HISTORY_URI (fun _ => True)); [|done].
    intros. split; [by eapply probe_signed | done].
Qed.

Lemma update_account_info_effect fuel : preserves (effect Q) (update_account_info env fuel).
Proof.
  apply update_account_info_with_effect. intros q'.
  apply (get_effect fuel HISTORY_URI (fun _ => True)); [|done].
  intros. split; [by eapply probe_signed | done].
Qed.

(** [post] without signing: the parameters go out as the caller passed
    them. *)
Lemma post_unsigned_effect fuel uri q data kw :
  allows uri q -> preserves (effect Q) (post env fuel uri q data false kw).
Proof.
  intros Hal.
  assert (forall kw', preserves (effect Q) (sign_and_post env uri q data false kw')) as Hsp.
  { intros kw'. unfold sign_and_post.
    apply preserves_bind; [apply _ | pres |]. intros hdrs.
    apply preserves_bind_dep; [apply _ | pres |].
    intros p (s & s1 & [= <- _]). by apply request_effect_of. }
  pose proof (update_account_info_effect fuel) as Hu.
  intros s r s'. unfold post, post_try. cbv [mret M_ret].
  destruct (request _ _ _ _ _ _ s) as [r1 s2] eqn:E1.
  apply (request_effect_of _ _ _ _ _ Hal) in E1.
  destruct r1 as [?|e|]; try (intros [= <- <-]; exact E1).
  destruct e; try (intros [= <- <-]; exact E1).
  intros E2. etransitivity; [exact E1|]. revert E2.
  generalize s2 r s'. change (preserves (effect Q)
    (post_except env (update_account_info env fuel) uri q data false kw e)).
  unfold post_except. pres.
Qed.
End ClientEffect.

(** C1, as amended: when the five attempts that [request] grants a call have
    all failed and the last failure is identity-related, the attempts ran
    under the bound credential without touching any credential; [get] then
    invalidates that credential (one status update), runs
    [update_account_info], and when that returns signs the parameters again
    and issues the request once more under the same decorator, at most five
    further attempts, whose outcome is the outcome of [get]; when
    [update_account_info] raises, [get] raises the same. *)
Theorem rotation_after_exhausted_budget (env : Env) (fuel : nat) (uri : string)
    (params : option Params) (kw : Kwargs) (s s1 : State) (e : Exn)
    (p1 : option Params) (b : nat) (o : AccountWithIpModel) :
  get_try env uri params kw s = ((Raise (RetryError e), p1), s1) ->
  is_account_related (str_exn e) = true ->
  account_info s = Some b -> bindings s !! b = Some o ->
  let target := DOUYIN_API_URL env +:+ uri in
  let a := field.account o in
  frame (request_effect target) s s1 /\
  (dispatches s1 <= dispatches s + 5)%nat /\
  count_events is_account_status (new_events s s1) = 0%nat /\
  exists s2 ips,
    client_mark_account_invalid (account_info s1) s1 = (Ok tt, s2) /\
    trace s2 = trace s1 ++ EvAccountStatus a (field.value INVALID) :: ips /\
    Forall (fun ev => is_ip_invalid ev = true) ips /\
    accounts s2 = alter (invalidated (clock s1)) a (accounts s) /\
    get env (S fuel) uri params kw s =
      (update_account_info env fuel;; sign_and_request env uri p1 kw) s2 /\
    (forall s3, update_account_info env fuel s2 = (Ok tt, s3) ->
       let again := sign_and_request env uri p1 kw s3 in
       get env (S fuel) uri params kw s = again /\
       frame (request_effect target) s3 (snd again) /\
       (dispatches (snd again) <= dispatches s3 + 5)%nat) /\
    (forall e' s3, update_account_info env fuel s2 = (Raise e', s3) ->
       get env (S fuel) uri params kw s = (Raise e', s3)).
Proof.
  intros Htry Hrel Hinfo Hb target a.
  destruct (get_try_frame env _ _ _ _ _ _ _ Htry) as [F Hn].
  split; [done|]. split; [done|]. split; [by apply (frame_no_status target)|].
  destruct (frame_binding _ _ _ _ _ F Hb) as (o' & Hb' & Ho').
  destruct (client_mark_account_invalid_spec s1 b a o' Hb' Ho')
    as (s2 & ips & Hmark & Ht & Hips & Hacc & _).
  assert (account_info s1 = Some b) as Hinfo1 by (by rewrite (fr_account_info _ _ _ F)).
  assert (get env (S fuel) uri params kw s =
          (update_account_info env fuel;; sign_and_request env uri p1 kw) s2) as Hget.
  { rewrite get_unfold, Htry. unfold get_except. rewrite Hrel.
    cbv [mbind M_bind gets]. rewrite Hinfo1, Hmark. done. }
  exists s2, ips. rewrite Hinfo1.
  split; [done|]. split; [done|]. split; [done|].
  split; [by rewrite Hacc, (fr_accounts _ _ _ F)|].
  split; [done|]. split.
  - intros s3 H again. split; [|split].
    + rewrite Hget. cbv [mbind M_bind]. by rewrite H.
    + by eapply sign_and_request_frame, surjective_pairing.
    + by eapply sign_and_request_dispatches, surjective_pairing.
  - intros e' s3 H. rewrite Hget. cbv [mbind M_bind]. by rewrite H.
Qed.

Lemma rotation_after_exhausted_budget_witness :
  let s1 := snd blocked_try in
  exists s2 ips,
    client_mark_account_invalid (account_info s1) s1 = (Ok tt, s2) /\
    trace s2 = trace s1 ++ EvAccountStatus 0%nat (field.value INVALID) :: ips /\
    (dispatches s1 <= dispatches bound_process + 5)%nat.
Proof.
  destruct (rotation_after_exhausted_budget always_blocked 1 PROFILE_URI
              (Some [("sec_user_id", "creator")]) no_kwargs bound_process
              (snd blocked_try) (last_exception (fst (fst blocked_try)))
              (snd (fst blocked_try)) 0%nat
              {| field.account := 0%nat; field.ip_info := None |})
    as (_ & Hn & _ & s2 & ips & Hm & Ht & _).
  - vm_compute. reflexivity.
  - vm_compute. reflexivity.
  - reflexivity.
  - reflexivity.
  - exists s2, ips. split; [exact Hm|]. split; [exact Ht | exact Hn].
Defined.

(** C1 as stated fails: the first answer to a profile call is a 403, which
    [request] classifies as blocked; the second attempt, one second later and
    under the same credential, is accepted.  The caller gets the result; no
    credential was invalidated and none was acquired. *)
Lemma blocked_first_response_retried_in_place :
  let run := get_user_info blocked_once 1 "creator" bound_process in
  (forall req, server blocked_once 0%nat req = reply 403 "" None) /\
  is_Ok (fst run) = true /\
  dispatch_accounts (trace (snd run)) = [Some 0%nat; Some 0%nat] /\
  count_events is_account_status (trace (snd run)) = 0%nat /\
  count_events is_get_account (trace (snd run)) = 0%nat /\
  accounts (snd run) = accounts bound_process /\
  account_info (snd run) = account_info bound_process.
Proof. split; [done|]. vm_compute. repeat split. Qed.

(** ** Back-off on a rate limit *)

(** C5, as amended: when the five attempts of a call have all failed and the
    last failure is a rate limit, [get] sleeps ten seconds and issues the
    request again under the decorator of [request], at most five further
    attempts.  Over the whole call no credential is invalidated or acquired,
    the credential store and the client's bound credential are as before,
    every dispatch goes out under the bound credential, and the bound proxy
    is as before unless [check_ip_expired] assigned a replacement. *)
Theorem rate_limited_keeps_identity (env : Env) (fuel : nat) (uri : string)
    (params : option Params) (kw : Kwargs) (s s1 : State) (e : Exn)
    (p1 : option Params) :
  get_try env uri params kw s = ((Raise (RetryError e), p1), s1) ->
  is_account_related (str_exn e) = false ->
  is_rate_limited (str_exn e) = true ->
  let target := DOUYIN_API_URL env +:+ uri in
  let s2 := snd (sleep 10 s1) in
  let again := sign_and_request env uri p1 kw s2 in
  get env (S fuel) uri params kw s = again /\
  trace s2 = trace s1 ++ [EvSleep 10] /\
  clock s2 = (clock s1 + 10)%Q /\
  frame (request_effect target) s (snd again) /\
  accounts (snd again) = accounts s /\
  account_info (snd again) = account_info s /\
  count_events is_account_status (new_events s (snd again)) = 0%nat /\
  count_events is_get_account (new_events s (snd again)) = 0%nat /\
  (count_events is_assign_ip (new_events s (snd again)) = 0%nat ->
   bindings (snd again) = bindings s) /\
  (dispatches (snd again) <= dispatches s + 10)%nat.
Proof.
  intros Htry Hrel Hrate target s2 again.
  destruct (get_try_frame env _ _ _ _ _ _ _ Htry) as [F Hn].
  assert (frame (request_effect target) s1 s2) as F2.
  { eapply (sleep_frame _ (request_effect_infra target) 10 s1 (fst (sleep 10 s1))).
    apply surjective_pairing. }
  assert (dispatches s2 = dispatches s1) as Hn2.
  { eapply (sleep_dispatches 10 s1 (fst (sleep 10 s1))). apply surjective_pairing. }
  assert (frame (request_effect target) s2 (snd again)) as F3.
  { eapply sign_and_request_frame, surjective_pairing. }
  assert (dispatches (snd again) <= dispatches s2 + 5)%nat as Hn3.
  { eapply sign_and_request_dispatches, surjective_pairing. }
  assert (frame (request_effect target) s (snd again)) as Fall.
  { etransitivity; [exact F|]. etransitivity; [exact F2 | exact F3]. }
  split.
  { rewrite get_unfold, Htry. unfold get_except. rewrite Hrel, Hrate. reflexivity. }
  split; [reflexivity|]. split; [reflexivity|]. split; [exact Fall|].
  split; [apply (fr_accounts _ _ _ Fall)|].
  split; [apply (fr_account_info _ _ _ Fall)|].
  split; [apply (frame_no_status target), Fall|].
  split; [apply (frame_no_status target), Fall|].
  split; [| lia].
  intros H0. by apply (fr_bindings _ _ _ Fall), count_events_zero.
Qed.

Lemma rate_limited_keeps_identity_witness :
  let final := snd (get throttled 1 PROFILE_URI (Some [("sec_user_id", "creator")])
                      no_kwargs expiring_process) in
  accounts final = accounts expiring_process /\
  account_info final = account_info expiring_process /\
  count_events is_account_status (new_events expiring_process final) = 0%nat.
Proof.
  destruct (rate_limited_keeps_identity throttled 0 PROFILE_URI
              (Some [("sec_user_id", "creator")]) no_kwargs expiring_process
              (snd throttled_try) (last_exception (fst (fst throttled_try)))
              (snd (fst throttled_try)))
    as (Hget & _ & _ & _ & Ha & Hi & Hc & _).
  - vm_compute. reflexivity.
  - vm_compute. reflexivity.
  - vm_compute. reflexivity.
  - cbv zeta. rewrite Hget. split; [exact Ha|]. split; [exact Hi | exact Hc].
Defined.

(** C5 as stated fails: every answer is a 429.  The bound endpoint expires
    during the ten seconds of back-off, so the re-issued request replaces it
    before its first attempt: the five attempts after the back-off leave
    through another proxy than the five before it, and the client's binding
    is no longer what it was.  The credential is untouched. *)
Lemma rate_limited_retry_through_new_proxy :
  let s := expiring_process in
  let run := get throttled 1 PROFILE_URI (Some [("sec_user_id", "creator")]) no_kwargs s in
  fst (fst throttled_try) = Raise (RetryError (Exception_ "rate limited")) /\
  dispatch_endpoints (trace (snd run)) =
    replicate 5 (Some "10.0.0.1") ++ replicate 5 (Some "10.0.0.2") /\
  dispatch_accounts (trace (snd run)) = replicate 10 (Some 0%nat) /\
  bindings s = [{| field.account := 0%nat; field.ip_info := Some (endpoint "10.0.0.1" 5) |}] /\
  bindings (snd run) =
    [{| field.account := 0%nat; field.ip_info := Some (endpoint "10.0.0.2" 100) |}] /\
  accounts (snd run) = accounts s.
Proof. vm_compute. repeat split. Qed.

(** ** Expired endpoints *)

(** C6 holds in its first half and fails in its conclusion.  The pool was
    filled at time 0 with two endpoints that expire at 55; one was bound.  At
    time 57 a profile call finds the bound endpoint expired and replaces it,
    keeping the credential; the replacement is the other endpoint of the
    same purchase, which [get_proxy] hands out after its liveness probe
    without looking at its expiry, and [check_ip_expired] does not look
    again.  The request is dispatched through an endpoint that expired two
    seconds earlier. *)
Theorem expired_replacement_is_dispatched :
  bound_ip a_minute_later = Some (endpoint "10.0.0.1" 55) /\
  (proxy_list <$> proxy_ip_pool a_minute_later) = Some [endpoint "10.0.0.2" 55] /\
  is_Ok (fst stale_fetch) = true /\
  bound_ip (snd stale_fetch) = Some (endpoint "10.0.0.2" 55) /\
  bound_account (snd stale_fetch) = bound_account a_minute_later /\
  dispatch_endpoints (new_events a_minute_later (snd stale_fetch)) = [Some "10.0.0.2"] /\
  is_expired (endpoint "10.0.0.2" 55) 57 = true /\
  existsb dispatched_through_expired (new_events a_minute_later (snd stale_fetch)) = true.
Proof. vm_compute. repeat split. Qed.

(** ** The bound on binding attempts *)

(** One turn of the loop of [update_account_info] over an empty pool: the
    workbook is read three times, nothing is found, and the turn sleeps two seconds
    unless it is the last. *)
Lemma update_account_turn_empty_pool (env : Env) (g : GetFn) (remaining : nat) (s : State) :
  _account_list s = [] -> xlsx s = Some [] -> _account_save_type s = EXCEL_ACCOUNT_SAVE ->
  exists s',
    update_account_turn env g remaining s = (Ok false, s') /\
    _account_list s' = [] /\ xlsx s' = Some [] /\
    _account_save_type s' = EXCEL_ACCOUNT_SAVE /\
    trace s' = trace s ++ [EvGetAccountWithIp; EvReadXlsx; EvReadXlsx; EvReadXlsx]
                       ++ (if decide (remaining = 0%nat) then [] else [EvSleep 2]) /\
    clock s' = if decide (remaining = 0%nat) then clock s else (clock s + 2)%Q.
Proof.
  intros Hl Hx Ht. destruct s. cbn in Hl, Hx, Ht. subst.
  cbv [update_account_turn].
  destruct (decide (remaining = 0%nat)) as [->|Hr];
    (eexists; split; [cbv -[app Qplus]; reflexivity|]);
    cbn; rewrite <- ?app_assoc; repeat split.
Qed.

Lemma update_account_loop_empty_pool (env : Env) (g : GetFn) (remaining : nat) (s : State) :
  _account_list s = [] -> xlsx s = Some [] -> _account_save_type s = EXCEL_ACCOUNT_SAVE ->
  exists s',
    update_account_loop env g remaining s = (Ok false, s') /\
    (acquisitions s' = acquisitions s + remaining)%nat /\
    (count_events is_sleep (trace s') = count_events is_sleep (trace s) + pred remaining)%nat /\
    dispatches s' = dispatches s /\
    (count_events (is_pause 2) (trace s')
     = count_events (is_pause 2) (trace s) + pred remaining)%nat /\
    (clock s' == clock s + inject_Z (Z.of_nat (pred remaining)) * 2)%Q.
Proof.
  revert s. induction remaining as [|n IH]; intros s Hl Hx Ht.
  - exists s. cbn -[inject_Z Qmult Qplus Qeq]. split; [done|]. split; [lia|]. split; [lia|].
    split; [done|].
    split; [lia|]. change (inject_Z (Z.of_nat (pred 0))) with 0%Q. ring.
  - destruct (update_account_turn_empty_pool env g n s Hl Hx Ht)
      as (s1 & Hturn & Hl1 & Hx1 & Ht1 & Htr & Hck).
    destruct (IH s1 Hl1 Hx1 Ht1) as (s' & Hloop & Ha & Hs & Hd & Hp & Hc).
    exists s'. split.
    { cbn [update_account_loop]. cbv [mbind M_bind]. rewrite Hturn. exact Hloop. }
    assert ((acquisitions s' = acquisitions s + S n)%nat /\
            (count_events is_sleep (trace s')
             = count_events is_sleep (trace s) + pred (S n))%nat /\
            dispatches s' = dispatches s /\
            (count_events (is_pause 2) (trace s')
             = count_events (is_pause 2) (trace s) + pred (S n))%nat) as (? & ? & ? & ?).
    { unfold acquisitions, dispatches in *. rewrite Ha, Hs, Hd, Hp, Htr.
      rewrite !count_events_app.
      destruct (decide (n = 0%nat)) as [->|Hn];
        repeat match goal with
               | |- context [count_events ?f (?x :: ?l)] =>
                   let v := eval vm_compute in (count_events f (x :: l)) in
                   change (count_events f (x :: l)) with v
               | |- context [count_events ?f []] =>
                   change (count_events f []) with 0%nat
               end; [lia|].
      destruct n; [done|]. cbn [pred]. lia. }
    split; [done|]. split; [done|]. split; [done|]. split; [done|].
    rewrite Hc, Hck. cbn [pred].
    destruct (decide (n = 0%nat)) as [->|Hn].
    + change (inject_Z (Z.of_nat (pred 0))) with 0%Q. change (inject_Z (Z.of_nat 0)) with 0%Q.
      ring.
    + destruct n as [|m]; [done|]. cbn [pred].
      rewrite (Nat2Z.inj_succ m), <- Z.add_1_r, inject_Z_plus.
      change (inject_Z 1) with 1%Q.
      ring.
Qed.

(** Over an empty pool the bound holds: ten requests for a credential, nine
    pauses, each of two seconds and eighteen seconds in all, no request to
    the platform, and the fatal error. *)
Lemma empty_pool_is_fatal (env : Env) (fuel : nat) (s : State) :
  _account_list s = [] -> xlsx s = Some [] -> _account_save_type s = EXCEL_ACCOUNT_SAVE ->
  exists s',
    update_account_info env fuel s =
      (Raise (Exception_ "Failed to get valid account after maximum retries"), s') /\
    (acquisitions s' = acquisitions s + 10)%nat /\
    (count_events is_sleep (trace s') = count_events is_sleep (trace s) + 9)%nat /\
    dispatches s' = dispatches s /\
    (count_events (is_pause 2) (trace s') = count_events (is_pause 2) (trace s) + 9)%nat /\
    (clock s' == clock s + 18)%Q.
Proof.
  intros Hl Hx Ht.
  destruct (update_account_loop_empty_pool env (get env fuel) max_retries s Hl Hx Ht)
    as (s' & Hloop & Ha & Hs & Hd & Hp & Hc).
  exists s'. split.
  { unfold update_account_info, update_account_info_with. cbv [mbind M_bind].
    by rewrite Hloop. }
  split; [done|]. split; [done|]. split; [done|]. split; [done|].
  rewrite Hc. change (inject_Z (Z.of_nat (pred max_retries))) with 9%Q. ring.
Qed.

(** C4 fails where the login probe is answered with status 8, the answer the
    platform gives to a credential that is not logged in.  [request] raises
    on that answer; after five attempts [get], which the probe is made with,
    takes it for an identity failure, invalidates the credential and calls
    [update_account_info] from inside the call of [update_account_info] that
    is still waiting for its probe.  Each level asks the pool for one
    credential and starts the next before it has counted a single retry: at
    depth [fuel] there were [fuel + 1] requests for a credential and
    [5 * fuel] requests to the platform, and no level has returned or
    raised.  The pool never runs dry, since the invalidations are in memory
    and the workbook is read again.  With eleven levels the pool was asked
    twelve times. *)
Theorem binding_reenters_itself :
  forallb still_binding (seq 0 24) = true /\
  fst (probe_refused 11) = OutOfFuel /\
  acquisitions (snd (probe_refused 11)) = 12%nat /\
  dispatches (snd (probe_refused 11)) = 55%nat /\
  count_events is_account_status (trace (snd (probe_refused 11))) = 11%nat.
Proof. vm_compute. repeat split. Qed.

(** ** Keywords after a failed keyword *)

(** When the page loop of a keyword ends in [return], the keywords after it
    are not started. *)
Lemma return_skips_remaining_keywords (env : Env) (fuel idx : nat) (keyword : string)
    (rest : list string) (l : SearchLocals) (s : State) :
  fst (fst (search_keywords env fuel idx [keyword] l s)) = Ok Return ->
  search_keywords env fuel idx (keyword :: rest) l s =
  search_keywords env fuel idx [keyword] l s.
Proof.
  cbn [search_keywords]. cbv [mbind LM_bind lift lget lmodify mret LM_ret].
  repeat (case_match; simplify_eq/=; try done).
Qed.

(** C8 fails in [search]: the configured keywords are Python and crawler,
    and every request is answered with a 429.  The call for the first page
    of Python raises after its back-off; the handler reports the interrupt
    with the checkpoint and the counters, and returns from [search].  The
    loop of crawler is never entered.  Where the answer merely lacks its
    data, the loop is left with [break] and crawler is searched. *)
Theorem failed_keyword_ends_search :
  _get_search_keyword_list (config bound_process) = ["Python"; "crawler"] /\
  fst throttled_search = Ok tt /\
  keywords_started (trace (snd throttled_search)) = ["Python"] /\
  keywords_interrupted (trace (snd throttled_search)) = ["Python"] /\
  fst quiet_search = Ok tt /\
  keywords_started (trace (snd quiet_search)) = ["Python"; "crawler"] /\
  keywords_interrupted (trace (snd quiet_search)) = [].
Proof. vm_compute. repeat split. Qed.

(** ** Signing *)

Lemma token_dispatch_other ev : is_dispatch ev = false -> token_dispatch ev.
Proof. by destruct ev. Qed.

Lemma unsigned_to_other target ev : is_dispatch ev = false -> unsigned_to target ev.
Proof. by destruct ev. Qed.

Lemma get_a_bogus_inl r e : get_a_bogus r = inl e -> is_RetryError e = false.
Proof. unfold get_a_bogus. repeat case_match; by intros [= <-]. Qed.

(** Outside the search path [_pre_url_params] returns parameters only with
    the non-empty token the gateway answered with. *)
Lemma _pre_url_params_signed env uri q s p s' :
  contains "/v1/web/general/search/single/" uri = false ->
  _pre_url_params env uri q s = (Ok p, s') ->
  exists r t,
    sign env (signing_request env uri q s) s = (Ok r, s') /\
    token_of r = Some t /\ dict_get "a_bogus" p = Some t /\ String.eqb t "" = false.
Proof.
  intros Hu. unfold _pre_url_params, signing_request, token_of.
  cbv [mbind M_bind gets mret M_ret raise]. rewrite Hu. cbn [negb].
  generalize (dict_update (dict_update (default [] q) _common_params) (_verify_params s)).
  intros final.
  destruct (sign _ _ s) as [[r|e|] s1]; [|done|done].
  destruct (get_a_bogus r) as [e|t] eqn:Eg; [done|].
  destruct (String.eqb t "") eqn:Et; cbn [negb]; [done|].
  intros H. injection H as <- <-. exists r, t. by rewrite dict_get_set_eq, Eg, Et.
Qed.

(** Without a token from the gateway, a call outside the search path raises
    where it asked for the signature. *)
Lemma _pre_url_params_unsigned env uri q s r s' :
  contains "/v1/web/general/search/single/" uri = false ->
  sign env (signing_request env uri q s) s = (Ok r, s') -> token_of r = None ->
  exists e, _pre_url_params env uri q s = (Raise e, s') /\ is_RetryError e = false.
Proof.
  intros Hu Hs. unfold _pre_url_params, signing_request, token_of in *.
  cbv [mbind M_bind gets mret M_ret raise]. rewrite Hu, Hs. cbn [negb].
  destruct (get_a_bogus r) as [e|t] eqn:Eg.
  - intros _. exists e. split; [done|]. by eapply get_a_bogus_inl.
  - destruct (String.eqb t ""); [|done]. intros _. cbn [negb]. by eexists.
Qed.

(** On the search path the parameters go through signing as they came, as
    far as [a_bogus] goes. *)
Lemma _pre_url_params_search env uri q s p s' :
  contains "/v1/web/general/search/single/" uri = true ->
  dict_get "a_bogus" (default [] q) = None ->
  _pre_url_params env uri q s = (Ok p, s') ->
  dict_get "a_bogus" p = None.
Proof.
  intros Hu Hq. unfold _pre_url_params.
  cbv [mbind M_bind gets mret M_ret raise]. rewrite Hu. cbn [negb].
  assert (dict_get "a_bogus"
            (dict_update (dict_update (default [] q) _common_params) (_verify_params s))
          = None) as Hfinal.
  { apply (dict_get_update_None "a_bogus" (dict_update (default [] q) _common_params)
             (_verify_params s)).
    - by apply (dict_get_update_None "a_bogus" (default [] q) _common_params).
    - unfold _verify_params. by destruct (common_verify_params s). }
  revert Hfinal.
  generalize (dict_update (dict_update (default [] q) _common_params) (_verify_params s)).
  intros final Hfinal.
  destruct (sign _ _ s) as [[r|e|] s1]; [|done|done].
  intros H. injection H as <- <-. exact Hfinal.
Qed.

Section Signed.
Variable env : Env.

Lemma allows_token uri p t :
  dict_get "a_bogus" p = Some t -> String.eqb t "" = false ->
  allows env token_dispatch uri (Some p).
Proof. intros Hp Ht. intros ? ? ? ? ? ? ?. cbn. unfold has_token. cbn. by rewrite Hp, Ht. Qed.

Lemma get_signed fuel uri q kw :
  contains "/v1/web/general/search/single/" uri = false ->
  preserves (effect token_dispatch) (get env fuel uri q kw).
Proof.
  intros Hu. apply (get_effect env token_dispatch token_dispatch_other) with (pre := fun _ => True).
  - intros q' s p s' E.
    destruct (_pre_url_params_signed env HISTORY_URI q' s p s' eq_refl E)
      as (r & t & _ & _ & Hp & Ht).
    by eapply allows_token.
  - intros q' s p s' _ E. split; [|done].
    destruct (_pre_url_params_signed _ _ _ _ _ _ Hu E) as (r & t & _ & _ & Hp & Ht).
    by eapply allows_token.
  - done.
Qed.

Lemma res_get_effect Q key res : preserves (effect Q) (res_get key res).
Proof. unfold res_get. pres. Qed.

Lemma the_verify_fp_effect Q : preserves (effect Q) the_verify_fp.
Proof. unfold the_verify_fp. pres. Qed.

Lemma extract_comments_from_dict_effect Q aweme_id d :
  preserves (effect Q) (extract_comments_from_dict env aweme_id d).
Proof.
  unfold extract_comments_from_dict. destruct d as [[| | | |items|]|]; pres.
  induction items as [|item items IH]; cbn [foldr]; pres.
Qed.

Lemma get_video_by_id_signed fuel aweme_id :
  preserves (effect token_dispatch) (get_video_by_id env fuel aweme_id).
Proof.
  pose proof (res_get_effect token_dispatch). pose proof (the_verify_fp_effect token_dispatch).
  pose proof (fun q kw => get_signed fuel DETAIL_URI q kw eq_refl).
  unfold get_video_by_id. pres.
Qed.

Lemma get_aweme_comments_signed fuel aweme_id cursor :
  preserves (effect token_dispatch) (get_aweme_comments env fuel aweme_id cursor).
Proof.
  pose proof (res_get_effect token_dispatch). pose proof (the_verify_fp_effect token_dispatch).
  pose proof (extract_comments_from_dict_effect token_dispatch).
  pose proof (fun q kw => get_signed fuel COMMENT_URI q kw eq_refl).
  unfold get_aweme_comments. pres.
Qed.

Lemma get_sub_comments_signed fuel comment_id cursor aweme_id :
  preserves (effect token_dispatch) (get_sub_comments env fuel comment_id cursor aweme_id).
Proof.
  pose proof (res_get_effect token_dispatch). pose proof (the_verify_fp_effect token_dispatch).
  pose proof (extract_comments_from_dict_effect token_dispatch).
  pose proof (fun q kw => get_signed fuel REPLY_URI q kw eq_refl).
  unfold get_sub_comments. pres.
Qed.

Lemma get_user_info_signed fuel sec_user_id :
  preserves (effect token_dispatch) (get_user_info env fuel sec_user_id).
Proof.
  pose proof (res_get_effect token_dispatch). pose proof (the_verify_fp_effect token_dispatch).
  pose proof (fun q kw => get_signed fuel PROFILE_URI q kw eq_refl).
  unfold get_user_info. pres.
Qed.

Lemma get_user_aweme_posts_signed fuel sec_user_id max_cursor :
  preserves (effect token_dispatch) (get_user_aweme_posts env fuel sec_user_id max_cursor).
Proof.
  pose proof (the_verify_fp_effect token_dispatch).
  pose proof (fun q kw => get_signed fuel POST_URI q kw eq_refl).
  unfold get_user_aweme_posts. pres.
Qed.

(** The probe of a rotation is signed whatever the call that rotates. *)
Lemma probe_allowed target q s p s' :
  String.eqb HISTORY_URI target = false ->
  _pre_url_params env HISTORY_URI q s = (Ok p, s') ->
  allows env (unsigned_to (DOUYIN_API_URL env +:+ target)) HISTORY_URI (Some p).
Proof.
  intros Ht E.
  destruct (_pre_url_params_signed env HISTORY_URI q s p s' eq_refl E)
    as (r & t & _ & _ & Hp & Hne).
  intros ? ? ? ? ? ? ?. cbn. rewrite append_eqb_prefix, Ht.
  unfold has_token. cbn. by rewrite Hp, Hne.
Qed.

Lemma allows_unsigned target p :
  dict_get "a_bogus" (default [] p) = None ->
  allows env (unsigned_to (DOUYIN_API_URL env +:+ target)) target p.
Proof. intros Hp. intros ? ? ? ? ? ? ?. cbn. by rewrite String.eqb_refl. Qed.

Lemma search_info_by_keyword_unsigned fuel keyword offset channel sort_type publish_time
    search_id :
  preserves (effect (unsigned_to (DOUYIN_API_URL env +:+ SEARCH_URI)))
    (search_info_by_keyword env fuel keyword offset channel sort_type publish_time
       search_id).
Proof.
  unfold search_info_by_keyword.
  apply (get_effect env _ (unsigned_to_other _))
    with (pre := fun q => dict_get "a_bogus" (default [] q) = None).
  - intros. by eapply probe_allowed.
  - intros q s p s' Hq E.
    pose proof (_pre_url_params_search env SEARCH_URI q s p s' eq_refl Hq E) as Hp.
    split; [by apply allows_unsigned | done].
  - by destruct (_ || _).
Qed.

Lemma get_homefeed_aweme_list_unsigned fuel tag_id refresh_index count :
  preserves (effect (unsigned_to (DOUYIN_API_URL env +:+ FEED_URI)))
    (get_homefeed_aweme_list env fuel tag_id refresh_index count).
Proof.
  unfold get_homefeed_aweme_list.
  apply (post_unsigned_effect env _ (unsigned_to_other _)).
  - intros. by eapply probe_allowed.
  - by apply allows_unsigned.
Qed.

(** A call outside the search path that gets no token raises before
    anything is dispatched. *)
Lemma get_without_token fuel uri q kw s r s' :
  contains "/v1/web/general/search/single/" uri = false ->
  sign env (signing_request env uri q s) s = (Ok r, s') -> token_of r = None ->
  exists e, get env (S fuel) uri q kw s = (Raise e, s') /\ dispatches s' = dispatches s.
Proof.
  intros Hu Hs Hr.
  destruct (_pre_url_params_unsigned env uri q s r s' Hu Hs Hr) as (e & He & Hne).
  exists e. split.
  - rewrite get_unfold. unfold get_try. rewrite He. by destruct e.
  - apply frame_no_dispatch. by eapply (sign_frame env no_dispatch).
Qed.
End Signed.

(** C2, as amended: the keyword search, like the home feed, is dispatched
    without [a_bogus].  For every other typed operation, and for every call
    of [get] outside the search path, each request that reaches the
    transport, the login probes of a rotation included, carries a non-empty
    [a_bogus]; the parameters [request] receives carry the token the gateway
    answered with for the query string, the user agent and the cookie of the
    bound credential; when the gateway answers without a token the call
    raises and nothing is dispatched.  The requests of the keyword search and
    of the home feed to their own path carry no [a_bogus]; a rotation inside
    them still signs its probes. *)
Theorem signed_unless_search_or_feed (env : Env) (fuel : nat) :
  (forall uri q kw, contains "/v1/web/general/search/single/" uri = false ->
     preserves (effect token_dispatch) (get env fuel uri q kw)) /\
  (forall aweme_id, preserves (effect token_dispatch) (get_video_by_id env fuel aweme_id)) /\
  (forall aweme_id cursor,
     preserves (effect token_dispatch) (get_aweme_comments env fuel aweme_id cursor)) /\
  (forall comment_id cursor aweme_id,
     preserves (effect token_dispatch)
       (get_sub_comments env fuel comment_id cursor aweme_id)) /\
  (forall sec_user_id,
     preserves (effect token_dispatch) (get_user_info env fuel sec_user_id)) /\
  (forall sec_user_id max_cursor,
     preserves (effect token_dispatch)
       (get_user_aweme_posts env fuel sec_user_id max_cursor)) /\
  (forall uri q s p s',
     contains "/v1/web/general/search/single/" uri = false ->
     _pre_url_params env uri q s = (Ok p, s') ->
     exists r t,
       sign env (signing_request env uri q s) s = (Ok r, s') /\
       token_of r = Some t /\ dict_get "a_bogus" p = Some t /\ String.eqb t "" = false) /\
  (forall uri q kw s r s',
     contains "/v1/web/general/search/single/" uri = false ->
     sign env (signing_request env uri q s) s = (Ok r, s') -> token_of r = None ->
     exists e, get env (S fuel) uri q kw s = (Raise e, s') /\
               dispatches s' = dispatches s) /\
  (forall keyword offset channel sort_type publish_time search_id,
     preserves (effect (unsigned_to (DOUYIN_API_URL env +:+ SEARCH_URI)))
       (search_info_by_keyword env fuel keyword offset channel sort_type publish_time
          search_id)) /\
  (forall tag_id refresh_index count,
     preserves (effect (unsigned_to (DOUYIN_API_URL env +:+ FEED_URI)))
       (get_homefeed_aweme_list env fuel tag_id refresh_index count)).
Proof.
  split; [intros; by apply get_signed|].
  split; [intros; apply get_video_by_id_signed|].
  split; [intros; apply get_aweme_comments_signed|].
  split; [intros; apply get_sub_comments_signed|].
  split; [intros; apply get_user_info_signed|].
  split; [intros; apply get_user_aweme_posts_signed|].
  split; [intros; by eapply _pre_url_params_signed|].
  split; [intros; by eapply get_without_token|].
  split; [intros; apply search_info_by_keyword_unsigned|].
  intros; apply get_homefeed_aweme_list_unsigned.
Qed.

Lemma signed_unless_search_or_feed_witness :
  exists e s',
    get mute 1 PROFILE_URI (Some [("sec_user_id", "creator")]) no_kwargs bound_process
      = (Raise e, s') /\
    dispatches s' = dispatches bound_process.
Proof.
  destruct (signed_unless_search_or_feed mute 0) as (_ & _ & _ & _ & _ & _ & _ & Hfail & _).
  edestruct (Hfail PROFILE_URI (Some [("sec_user_id", "creator")]) no_kwargs bound_process)
    as (e & He & Hd).
  - reflexivity.
  - vm_compute. reflexivity.
  - reflexivity.
  - exists e. eexists. split; [exact He | exact Hd].
Defined.

(** C2 as stated fails on the keyword search: the gateway is asked and
    answers with a token, and the request goes out without it; where the
    gateway answers without a token the search is dispatched all the same. *)
Lemma search_is_dispatched_unsigned :
  is_Ok (fst quiet_keyword_search) = true /\
  count_events is_js_call (trace (snd quiet_keyword_search)) = 1%nat /\
  dispatch_tokens (trace (snd quiet_keyword_search)) = [None] /\
  is_Ok (fst mute_keyword_search) = true /\
  dispatch_tokens (trace (snd mute_keyword_search)) = [None].
Proof. vm_compute. repeat split. Qed.

(** ** The comment cap and the checkpoint *)

Lemma find_fmap_same {A} (p : A -> bool) (f : A -> A) (l : list A) :
  (forall x, p (f x) = p x) -> List.find p (map f l) = f <$> List.find p l.
Proof.
  intros H. induction l as [|x l IH]; [done|]. cbn. rewrite H.
  by destruct (p x).
Qed.

Lemma has_id_with_notes cid l c : has_id cid (with_notes l c) = has_id cid c.
Proof. done. Qed.

Section ItemStatus.
Variables (cid nid : string) (item_crawled comments_crawled : option bool)
          (comment_cursor : option string).

(** What [update_item_status] makes of a checkpoint and of an item. *)
Let on_note (n : CheckpointNote) : CheckpointNote :=
  if String.eqb (m_checkpoint.note_id n) nid then
    {| m_checkpoint.note_id := m_checkpoint.note_id n;
       m_checkpoint.extra_params_info := m_checkpoint.extra_params_info n;
       m_checkpoint.is_success_crawled :=
         default (m_checkpoint.is_success_crawled n) item_crawled;
       m_checkpoint.is_success_crawled_comments :=
         default (m_checkpoint.is_success_crawled_comments n) comments_crawled;
       m_checkpoint.current_note_comment_cursor :=
         match comment_cursor with
         | Some cur => Some cur
         | None => m_checkpoint.current_note_comment_cursor n
         end |}
  else n.

Let on_checkpoint (c : Checkpoint) : Checkpoint :=
  if has_id cid c then with_notes (map on_note (m_checkpoint.crawled_note_list c)) c else c.

Lemma update_item_status_checkpoints s :
  checkpoints (snd (update_item_status cid nid item_crawled comments_crawled
                      comment_cursor s))
  = map on_checkpoint (checkpoints s).
Proof. done. Qed.

Lemma on_note_id n : m_checkpoint.note_id (on_note n) = m_checkpoint.note_id n.
Proof. unfold on_note. by destruct (String.eqb _ _). Qed.

Lemma on_checkpoint_id cid' c : has_id cid' (on_checkpoint c) = has_id cid' c.
Proof. unfold on_checkpoint. by destruct (has_id cid c). Qed.

Lemma find_note_on_checkpoint nid' c :
  find_note nid' (on_checkpoint c)
  = (if has_id cid c then on_note else fun n => n) <$> find_note nid' c.
Proof.
  unfold on_checkpoint, find_note. destruct (has_id cid c); cbn.
  - apply (find_fmap_same (fun n => String.eqb (m_checkpoint.note_id n) nid')).
    intros n. by rewrite on_note_id.
  - by destruct (List.find _ _).
Qed.

Lemma ledger_note_update cid' nid' s :
  ledger_note cid' nid'
    (snd (update_item_status cid nid item_crawled comments_crawled comment_cursor s))
  = c ← List.find (has_id cid') (checkpoints s);
    (if has_id cid c then on_note else fun n => n) <$> find_note nid' c.
Proof.
  unfold ledger_note. rewrite update_item_status_checkpoints.
  rewrite (find_fmap_same (has_id cid') on_checkpoint) by apply on_checkpoint_id.
  destruct (List.find (has_id cid') (checkpoints s)) as [c|]; [|done]. cbn.
  apply find_note_on_checkpoint.
Qed.

Lemma update_item_status_keeps_ledger :
  preserves keeps_ledger
    (update_item_status cid nid item_crawled comments_crawled comment_cursor).
Proof.
  intros s r s' E.
  assert (s' = snd (update_item_status cid nid item_crawled comments_crawled
                      comment_cursor s)) as -> by (by rewrite E).
  split; [done|]. intros cid' nid'. rewrite ledger_note_update. unfold ledger_note.
  destruct (List.find (has_id cid') (checkpoints s)) as [c|]; [|done]. cbn.
  destruct (find_note nid' c); [|by intros [? ?]]. cbn. eauto.
Qed.
End ItemStatus.

(** Marking the comments of an item as crawled sets the flag of its
    entry. *)
Lemma update_note_comment_cursor_marks cid nid cur s n :
  ledger_note cid nid s = Some n ->
  exists n',
    ledger_note cid nid (snd (update_note_comment_cursor cid nid cur (Some true) s))
      = Some n' /\
    m_checkpoint.is_success_crawled_comments n' = true.
Proof.
  intros Hn. unfold update_note_comment_cursor. rewrite ledger_note_update.
  unfold ledger_note in Hn.
  destruct (List.find (has_id cid) (checkpoints s)) as [c|] eqn:Ec; [|done]. cbn in *.
  rewrite Hn. cbn. apply find_some in Ec as [_ ->].
  apply find_some in Hn as [_ ->]. by eexists.
Qed.

#[global] Instance keeps_ledger_preorder : PreOrder keeps_ledger.
Proof.
  split.
  - intros s. by split.
  - intros s1 s2 s3 [C1 L1] [C2 L2]. split; [congruence | eauto].
Qed.

Lemma effect_keeps_ledger Q s s' : effect Q s s' -> keeps_ledger s s'.
Proof.
  intros [_ Hc Hk]. split; [done|]. intros cid nid. unfold ledger_note. by rewrite Hk.
Qed.

Section CommentsLedger.
Variable env : Env.

Lemma effect_to_ledger {A} Q (m : M A) :
  preserves (effect Q) m -> preserves keeps_ledger m.
Proof. intros H s r s' E. by eapply effect_keeps_ledger, H. Qed.

Lemma res_get_default_ledger key d res : preserves keeps_ledger (res_get_default key d res).
Proof.
  apply (effect_to_ledger token_dispatch). unfold res_get_default.
  pose proof (res_get_effect token_dispatch). pres.
Qed.

Lemma store_comments_ledger aweme_id l : preserves keeps_ledger (store_comments aweme_id l).
Proof. apply (effect_to_ledger (fun _ => True)). unfold store_comments. pres. Qed.

Lemma crawler_sleep_ledger : preserves keeps_ledger crawler_sleep.
Proof.
  apply (effect_to_ledger (fun _ => True)). unfold crawler_sleep.
  pose proof (sleep_effect (fun _ => True) ltac:(done)). pres.
Qed.

Lemma get_aweme_comments_ledger fuel aweme_id cursor :
  preserves keeps_ledger (get_aweme_comments env fuel aweme_id cursor).
Proof. apply (effect_to_ledger token_dispatch), get_aweme_comments_signed. Qed.

Lemma get_sub_comments_ledger fuel comment_id cursor aweme_id :
  preserves keeps_ledger (get_sub_comments env fuel comment_id cursor aweme_id).
Proof. apply (effect_to_ledger token_dispatch), get_sub_comments_signed. Qed.

Hint Resolve res_get_default_ledger store_comments_ledger crawler_sleep_ledger
  get_aweme_comments_ledger get_sub_comments_ledger update_item_status_keeps_ledger : pres.

Lemma sub_comment_pages_ledger n fuel aweme_id comment_id cursor :
  preserves keeps_ledger (sub_comment_pages env n fuel aweme_id comment_id cursor).
Proof.
  revert cursor. induction n as [|n IH]; intros cursor; cbn [sub_comment_pages]; pres.
Qed.
Hint Resolve sub_comment_pages_ledger : pres.

Lemma sub_comments_of_ledger fuel aweme_id comments :
  preserves keeps_ledger (sub_comments_of env fuel aweme_id comments).
Proof.
  induction comments as [|c comments IH]; cbn [sub_comments_of];
    unfold reply_comment_total; pres.
Qed.
Hint Resolve sub_comments_of_ledger : pres.

Lemma get_comments_all_sub_comments_ledger fuel aweme_id comments :
  preserves keeps_ledger (get_comments_all_sub_comments env fuel aweme_id comments).
Proof. unfold get_comments_all_sub_comments. pres. Qed.
Hint Resolve get_comments_all_sub_comments_ledger : pres.

Lemma comments_loop_ledger n fuel aweme_id cid result cursor :
  preserves keeps_ledger (comments_loop env n fuel aweme_id cid result cursor).
Proof.
  revert result cursor. induction n as [|n IH]; intros result cursor;
    cbn [comments_loop]; unfold update_note_comment_cursor; pres.
Qed.

Lemma resume_cursor_same aweme_id cid s r s' :
  resume_cursor env aweme_id cid s = (r, s') -> s' = s.
Proof.
  unfold resume_cursor, get_note_comment_cursor, load_checkpoint_by_id.
  cbv [mbind M_bind mret M_ret gets].
  repeat case_match; by intros [= <- <-].
Qed.
End CommentsLedger.

(** * Code beside the numbered claims *)

(** ** The expiring cache *)

Module local_cache_facts.
Import local_cache.

Lemma Qltb_lt (a b : Q) : Qltb a b = true <-> (a < b)%Q.
Proof.
  unfold Qltb. rewrite negb_true_iff, <- not_true_iff_false, Qle_bool_iff.
  split; [apply Qnot_le_lt | apply Qlt_not_le].
Qed.

Lemma Qltb_ge (a b : Q) : Qltb a b = false <-> (b <= a)%Q.
Proof.
  unfold Qltb. by rewrite negb_false_iff, Qle_bool_iff.
Qed.

Section Facts.
Context {V : Type}.
Implicit Types (c : gmap string (option V * Q)) (key : string) (v : V).


(** X2: for an entry whose stored expiry time is before the clock:
    when its value is not [None], [get] answers [None] and takes the
    key out of the container, so that [keys] no longer lists it for any
    pattern; when its value is [None], [get] answers [None] before it
    looks at the time, the entry stays, and [keys] still lists it.  The
    stored time is the float sum [set] wrote, whatever its rounding. *)
Theorem get_after_expiry c key (value : option V) (expire_time now : Q) :
  c !! key = Some (value, expire_time) -> (expire_time < now)%Q ->
  match value with
  | Some _ =>
      get key now c = (None, base.delete key c) /\
      forall pattern, key ∉ keys pattern (snd (get key now c))
  | None =>
      get key now c = (None, c) /\ key ∈ keys "*" (snd (get key now c))
  end.
Proof.
  intros Hk H. destruct value as [v|].
  - assert (get key now c = (None, base.delete key c)) as E.
    { unfold get. rewrite Hk. cbn. by apply Qltb_lt in H as ->. }
    split; [done|]. intros pattern. rewrite E. cbn. unfold keys.
    assert (key ∉ (map_to_list (base.delete key c)).*1) as Hn.
    { intros ((k & x) & -> & Hin%elem_of_map_to_list)%list_elem_of_fmap.
      cbn in Hin. by rewrite lookup_delete_eq in Hin. }
    destruct (String.eqb pattern "*"); [done|].
    by intros [_ ?]%list_elem_of_filter.
  - assert (get key now c = (None, c)) as E.
    { unfold get. by rewrite Hk. }
    split; [done|]. rewrite E. cbn. unfold keys. cbn.
    apply list_elem_of_fmap. exists (key, (None, expire_time)).
    split; [done|]. by apply elem_of_map_to_list.
Qed.

Lemma lookup_foldl_delete c (l : list string) k :
  foldl (fun acc key => base.delete key acc) c l !! k
  = if decide (k ∈ l) then None else c !! k.
Proof.
  revert c. induction l as [|x l IH]; intros c; cbn.
  - by rewrite decide_False by apply not_elem_of_nil.
  - rewrite IH. destruct (decide (k = x)) as [->|Hne].
    + rewrite lookup_delete_eq. rewrite (decide_True _ _ (list_elem_of_here _ _)).
      by destruct (decide _).
    + rewrite lookup_delete_ne by done.
      destruct (decide (k ∈ l)) as [Hl|Hl].
      * by rewrite decide_True by (by constructor).
      * rewrite decide_False; [done|]. by intros [?|?]%elem_of_cons.
Qed.

Lemma lookup_clear c now k :
  _clear now c !! k
  = match c !! k with
    | Some (value, e) => if Qltb e now then None else Some (value, e)
    | None => None
    end.
Proof.
  unfold _clear. rewrite lookup_foldl_delete.
  destruct (c !! k) as [[value e]|] eqn:Ek.
  - destruct (Qltb e now) eqn:Ee.
    + rewrite decide_True; [done|]. apply list_elem_of_fmap.
      exists (k, (value, e)). split; [done|]. apply list_elem_of_filter.
      split; [done|]. by apply elem_of_map_to_list.
    + rewrite decide_False; [done|].
      intros ((k' & x) & -> & [Hx Hin%elem_of_map_to_list]%list_elem_of_filter)
               %list_elem_of_fmap.
      cbn in *. rewrite Ek in Hin. injection Hin as <-. cbn in Hx. congruence.
  - rewrite decide_False; [done|].
    intros ((k' & x) & -> & [_ Hin%elem_of_map_to_list]%list_elem_of_filter)
             %list_elem_of_fmap.
    cbn in *. congruence.
Qed.

(** X3: the periodic [_clear] takes out the keys whose time is over and
    no other key, and [get] at that time answers as it would have
    without it. *)
Theorem clear_is_invisible c (now : Q) key :
  fst (get key now (_clear now c)) = fst (get key now c) /\
  (forall value e, c !! key = Some (value, e) -> (now <= e)%Q ->
                   _clear now c !! key = Some (value, e)) /\
  (forall value e, _clear now c !! key = Some (value, e) ->
                   c !! key = Some (value, e) /\ (now <= e)%Q).
Proof.
  split; [|split].
  - unfold get. rewrite lookup_clear.
    destruct (c !! key) as [[[v|] e]|]; cbn; try done.
    + destruct (Qltb e now) eqn:Ee; cbn; [done|]. by rewrite Ee.
    + by destruct (Qltb e now).
  - intros value e Hk He. rewrite lookup_clear, Hk. by apply Qltb_ge in He as ->.
  - intros value e. rewrite lookup_clear.
    destruct (c !! key) as [[value' e']|]; [|done].
    destruct (Qltb e' now) eqn:Ee; [done|]. intros [= <- <-].
    split; [done|]. by apply Qltb_ge.
Qed.

(** X4: for a key that was set with [expire_time] seconds to live and
    whose time is not over at either reading of the clock: when the
    value stored is not [None], [ttl] answers a whole number of seconds
    between 0 and [expire_time]; when the value stored is [None], [ttl]
    answers -2, as for a key that is absent. *)
Theorem ttl_bounds c key (value : option V) (expire_time : Z) (t now now' : Q) :
  (t <= now')%Q -> (now' <= t + inject_Z expire_time)%Q ->
  (now <= t + inject_Z expire_time)%Q ->
  let r := fst (ttl key now now' (set key value expire_time t c)) in
  match value with
  | Some _ => 0 <= r <= expire_time
  | None => r = -2 /\ fst (ttl key now now' (base.delete key c)) = -2
  end.
Proof.
  intros H1 H2 H3. unfold ttl, set. rewrite lookup_insert_eq, lookup_delete_eq. cbn.
  destruct value as [v|]; [|done].
  apply Qltb_ge in H3 as ->. cbn.
  assert (0 <= t + inject_Z expire_time - now')%Q as G1.
  { remember (inject_Z expire_time) as n. lra. }
  assert (t + inject_Z expire_time - now' <= inject_Z expire_time)%Q as G2.
  { remember (inject_Z expire_time) as n. lra. }
  rewrite py_int_floor by done.
  split.
  - by apply le_floor.
  - rewrite <- (Qfloor_Z expire_time) at 2. by apply Qfloor_resp_le.
Qed.

Lemma remove_stars_none pattern :
  contains "*" pattern = false -> remove_stars pattern = pattern.
Proof.
  induction pattern as [|ch rest IH]; [done|]. cbn [remove_stars contains].
  destruct (Ascii.nat_of_ascii ch =? 42)%nat eqn:E.
  - apply Nat.eqb_eq in E.
    assert (ch = Ascii.ascii_of_nat 42) as ->
        by (by rewrite <- (Ascii.ascii_nat_embedding ch), E).
    by destruct rest.
  - intros [_ H]%orb_false_iff. by rewrite IH.
Qed.

Lemma contains_empty (hay : string) : contains "" hay = true.
Proof. by destruct hay. Qed.

(** X5: a star in the pattern of [keys] is no wildcard: whatever the
    pattern, [keys] lists the stored keys that contain the pattern with
    its stars taken out, whether or not their time is over. *)
Theorem keys_ignores_stars c pattern key :
  key ∈ keys pattern c <->
  is_Some (c !! key) /\ contains (remove_stars pattern) key = true.
Proof.
  assert (key ∈ (map_to_list c).*1 <-> is_Some (c !! key)) as Hall.
  { rewrite list_elem_of_fmap. split.
    - intros ((k & x) & -> & Hin%elem_of_map_to_list). by eexists.
    - intros [x Hx]. exists (key, x). split; [done|]. by apply elem_of_map_to_list. }
  unfold keys. destruct (String.eqb pattern "*") eqn:Ep.
  - apply String.eqb_eq in Ep as ->. cbn. rewrite contains_empty. rewrite Hall. tauto.
  - destruct (contains "*" pattern) eqn:Es.
    + rewrite list_elem_of_filter, Hall. tauto.
    + rewrite remove_stars_none by done. rewrite list_elem_of_filter, Hall. tauto.
Qed.
End Facts.


Lemma get_after_expiry_witness :
  get "k" 11 (<["k" := (Some 1%nat, 10%Q)]> ∅) =
    (None, base.delete "k" (<["k" := (Some 1%nat, 10%Q)]> ∅)) /\
  get "n" 11 (<["n" := (@None nat, 10%Q)]> ∅) = (None, <["n" := (@None nat, 10%Q)]> ∅).
Proof.
  split.
  - apply (@get_after_expiry nat (<["k" := (Some 1%nat, 10%Q)]> ∅) "k" (Some 1%nat) 10 11).
    + reflexivity.
    + by vm_compute.
  - apply (@get_after_expiry nat (<["n" := (@None nat, 10%Q)]> ∅) "n" None 10 11).
    + reflexivity.
    + by vm_compute.
Defined.

Lemma ttl_bounds_witness :
  0 <= fst (ttl "k" 3 4 (set "k" (Some 1%nat) 10 0 ∅)) <= 10 /\
  fst (ttl "k" 3 4 (set "k" (@None nat) 10 0 ∅)) = -2.
Proof.
  split.
  - apply (@ttl_bounds nat ∅ "k" (Some 1%nat) 10 0 3 4); by vm_compute.
  - apply (@ttl_bounds nat ∅ "k" None 10 0 3 4); by vm_compute.
Defined.
End local_cache_facts.

(** ** Tokens and fingerprints *)

Lemma string_get_Some (s : string) (i : nat) :
  (i < String.length s)%nat -> exists c, String.get i s = Some c.
Proof.
  revert i. induction s as [|c s IH]; intros i H; cbn in *; [lia|].
  destruct i as [|i]; [by eexists|]. apply IH. lia.
Qed.

Lemma string_get_lt (s : string) (i : nat) (c : Ascii.ascii) :
  String.get i s = Some c -> (i < String.length s)%nat.
Proof.
  revert i. induction s as [|x s IH]; intros i H; [done|].
  destruct i as [|i]; cbn in *; [lia|]. apply IH in H. lia.
Qed.

Lemma str_index_in_range (s : string) (n : Z) :
  0 <= n < Z.of_nat (String.length s) ->
  exists c, str_index s n = inr c /\ String.get (Z.to_nat n) s = Some c.
Proof.
  intros H. unfold str_index.
  rewrite (proj2 (Z.ltb_ge n 0)) by lia.
  rewrite (proj2 (Z.leb_le 0 n)) by lia.
  rewrite (proj2 (Z.ltb_lt n _)) by lia. cbn.
  destruct (string_get_Some s (Z.to_nat n)) as [c Hc]; [lia|].
  exists c. by rewrite Hc.
Qed.

Lemma string_length_app (a b : string) :
  String.length (a +:+ b) = (String.length a + String.length b)%nat.
Proof. induction a as [|c a IH]; cbn; [done|]. by rewrite <- IH. Qed.

Lemma get_char_in (s : string) (i : nat) (c : Ascii.ascii) :
  String.get i s = Some c -> char_in s c = true.
Proof.
  unfold char_in. revert i. induction s as [|x s IH]; intros i H; [done|].
  cbn [contains]. destruct i as [|i]; cbn in H.
  - injection H as ->. apply orb_true_iff. left.
    cbn. destruct (Ascii.ascii_dec c c); [by destruct s | done].
  - apply orb_true_iff. right. by eapply IH.
Qed.

Lemma all_chars_app P (a b : string) :
  all_chars P (a +:+ b) = all_chars P a && all_chars P b.
Proof.
  induction a as [|c a IH]; [done|].
  change (String c a +:+ b) with (String c (a +:+ b)).
  cbn [all_chars]. by rewrite IH, andb_assoc.
Qed.

Module help_facts.
Import help.

Section RandomStr.
Variable randint : nat -> Z -> Z -> Z.
(** What the library promises of [randint(a, b)]. *)
Hypothesis randint_range : forall k a b, a <= b -> a <= randint k a b <= b.

Lemma random_str_loop_spec k n acc :
  all_chars (char_in utils.chars) acc = true ->
  exists s, utils.random_str_loop randint k n acc = inr s /\
            String.length s = (String.length acc + n)%nat /\
            all_chars (char_in utils.chars) s = true.
Proof.
  revert k acc. induction n as [|n IH]; intros k acc Hacc; cbn [utils.random_str_loop].
  - exists acc. split; [done|]. split; [lia | done].
  - destruct (str_index_in_range utils.chars
                (randint k 0 (Z.of_nat (String.length utils.chars) - 1)))
      as (c & -> & Hc).
    { specialize (randint_range k 0 (Z.of_nat (String.length utils.chars) - 1)).
      cbn in *. lia. }
    destruct (IH (S k) (acc +:+ String c EmptyString)) as (s & -> & Hs & Hall).
    { rewrite all_chars_app, Hacc. cbn [all_chars andb].
      by rewrite (get_char_in _ _ _ Hc). }
    exists s. split; [done|]. split; [|done]. rewrite Hs, string_length_app. cbn. lia.
Qed.

(** X6: [get_random_str] never raises; it returns a string of the
    length asked for, none for a negative length, whose characters are
    letters and digits of its alphabet. *)
Theorem get_random_str_length (random_len : Z) :
  exists s, utils.get_random_str randint random_len = inr s /\
            String.length s = Z.to_nat random_len /\
            all_chars (char_in utils.chars) s = true.
Proof.
  destruct (random_str_loop_spec 0 (Z.to_nat random_len) "" eq_refl) as (s & H & Hs).
  by exists s.
Qed.

End RandomStr.

(** *** The timestamp of [gen_verify_fp] *)

Lemma base36_digit_spec (r : Z) :
  0 <= r < 36 ->
  exists c, base36_digit r = String c EmptyString /\ base36_digit_value c = Some r.
Proof.
  intros H. assert (r = Z.of_nat (Z.to_nat r)) as -> by lia.
  assert (Z.to_nat r < 36)%nat as Hn by lia. revert Hn.
  generalize (Z.to_nat r). intros n Hn.
  do 36 (destruct n as [|n]; [by eexists|]). lia.
Qed.

Lemma base36_loop_value (fuel : nat) (m : Z) (acc : string) (v : Z) :
  m < 2 ^ Z.of_nat fuel -> base36_value acc = Some v ->
  base36_value (base36_loop fuel m acc)
  = Some (Z.max 0 m * 36 ^ Z.of_nat (String.length acc) + v).
Proof.
  revert m acc v. induction fuel as [|fuel IH]; intros m acc v Hm Hv.
  - cbn in *. assert (m <= 0) by lia. rewrite Z.max_l by lia. rewrite Hv. f_equal; lia.
  - cbn [base36_loop]. destruct (0 <? m) eqn:E.
    + apply Z.ltb_lt in E.
      destruct (base36_digit_spec (m mod 36)) as (c & -> & Hc).
      { apply Z.mod_pos_bound. lia. }
      change (String c "" +:+ acc) with (String c acc).
      rewrite (IH _ _ ((m mod 36) * 36 ^ Z.of_nat (String.length acc) + v)).
      * cbn [String.length]. f_equal.
        rewrite Nat2Z.inj_succ, Z.pow_succ_r by lia.
        rewrite !Z.max_r by (try apply Z.div_pos; lia).
        pose proof (Z.div_mod m 36 ltac:(lia)). nia.
      * rewrite Nat2Z.inj_succ, Z.pow_succ_r in Hm by lia.
        assert (m / 36 <= m / 2); [|apply Z.div_lt_upper_bound; lia].
        apply Z.div_le_compat_l; lia.
      * cbn [base36_value]. by rewrite Hc, Hv.
    + apply Z.ltb_ge in E. rewrite Z.max_l by lia. rewrite Hv. f_equal; lia.
Qed.

Lemma prefix_cons (a c : Ascii.ascii) (s t : string) :
  String.prefix (String a s) (String c t)
  = if Ascii.ascii_dec a c then String.prefix s t else false.
Proof. reflexivity. Qed.

(** The numeral of a positive count starts with a digit other than
    [0]. *)
Lemma base36_loop_head (fuel : nat) (m : Z) (acc : string) :
  m < 2 ^ Z.of_nat fuel -> 0 < m \/ String.prefix "0" acc = false ->
  String.prefix "0" (base36_loop fuel m acc) = false.
Proof.
  revert m acc. induction fuel as [|fuel IH]; intros m acc Hm Hacc.
  - cbn in *. destruct Hacc as [?|?]; [lia | done].
  - cbn [base36_loop]. destruct (0 <? m) eqn:E.
    + apply Z.ltb_lt in E. apply IH.
      * rewrite Nat2Z.inj_succ, Z.pow_succ_r in Hm by lia.
        assert (m / 36 <= m / 2); [|apply Z.div_lt_upper_bound; lia].
        apply Z.div_le_compat_l; lia.
      * destruct (Z.le_gt_cases (m / 36) 0) as [Hq|Hq]; [right | left; lia].
        assert (0 < m mod 36 < 36) as Hr.
        { pose proof (Z.div_mod m 36 ltac:(lia)).
          pose proof (Z.mod_pos_bound m 36 ltac:(lia)).
          assert (0 <= m / 36) by (apply Z.div_pos; lia). nia. }
        destruct (base36_digit_spec (m mod 36)) as (c & -> & Hc); [lia|].
        change (String c "" +:+ acc) with (String c acc). rewrite prefix_cons.
        destruct (Ascii.ascii_dec _ c) as [<-|]; [|done].
        assert (base36_digit_value
                  (Ascii.Ascii false false false false true true false false) = Some 0)
          as H0 by reflexivity.
        rewrite H0 in Hc. injection Hc as Hc. lia.
    + apply Z.ltb_ge in E. destruct Hacc as [?|?]; [lia | done].
Qed.

(** X8: the timestamp that [gen_verify_fp] puts after [verify_] is the
    count of milliseconds written in base 36, most significant digit
    first, with the digits [0] to [9] and [a] to [z] and no [0] in front:
    read as such a numeral it gives the count.  For a count of zero or less
    it is the empty string.  The counts are those below 2^53, which a float
    holds exactly and for which [int(milliseconds / 36)] is the
    quotient. *)
Theorem base36_round_trip (milliseconds : Z) :
  milliseconds < 2 ^ 53 ->
  base36_value (base36 milliseconds) = Some (Z.max 0 milliseconds) /\
  String.prefix "0" (base36 milliseconds) = false /\
  (milliseconds <= 0 -> base36 milliseconds = "").
Proof.
  intros _.
  assert (milliseconds < 2 ^ Z.of_nat (S (Z.to_nat (Z.log2 milliseconds)))) as Hfuel.
  { destruct (Z.le_gt_cases milliseconds 0) as [H|H].
    + pose proof (Z.pow_pos_nonneg 2 (Z.of_nat (S (Z.to_nat (Z.log2 milliseconds))))).
      lia.
    + rewrite Nat2Z.inj_succ, Z2Nat.id by apply Z.log2_nonneg.
      by apply Z.log2_spec. }
  split; [|split].
  - unfold base36. rewrite (base36_loop_value _ _ _ 0) by done. f_equal; cbn; lia.
  - unfold base36. apply base36_loop_head; [done | by right].
  - intros H. unfold base36. cbn [base36_loop].
    by rewrite (proj2 (Z.ltb_ge 0 milliseconds)).
Qed.

(** *** The random part of [gen_verify_fp] *)

Lemma py_int_scaled (r : Q) (t : Z) :
  (0 <= r)%Q -> (r < 1)%Q -> 0 < t -> 0 <= py_int (r * inject_Z t) < t.
Proof.
  intros H0 H1 Ht.
  assert (inject_Z 0 < inject_Z t)%Q as Hq by (by rewrite <- Zlt_Qlt).
  change (inject_Z 0) with 0%Q in Hq.
  assert (0 <= r * inject_Z t)%Q as G0 by (apply Qmult_le_0_compat; lra).
  assert (r * inject_Z t < inject_Z t)%Q as G1.
  { rewrite <- (Qmult_1_l (inject_Z t)) at 2. by apply Qmult_lt_r. }
  rewrite py_int_floor by done. split.
  - by apply (le_floor 0).
  - apply Z.lt_nge. intros G%le_floor. lra.
Qed.

Lemma substring_one (s : string) (i : nat) (c : Ascii.ascii) :
  String.get i s = Some c -> String.substring i 1 s = String c EmptyString.
Proof.
  revert i. induction s as [|x s IH]; intros i H; [done|].
  destruct i as [|i]; cbn in *.
  - injection H as ->. by destruct s.
  - by apply IH.
Qed.

Lemma concat_single (o : list string) :
  Forall single o ->
  String.length (String.concat "" o) = length o /\
  forall j c, o !! j = Some (String c EmptyString) ->
              String.get j (String.concat "" o) = Some c.
Proof.
  induction 1 as [|slot o [c ->] Ho [IHl IHg]]; [done|].
  assert (String.concat "" (String c "" :: o) = String c (String.concat "" o)) as ->.
  { cbn. by destruct o. }
  split; [cbn; by rewrite IHl|].
  intros [|j] c' Hj; cbn in *; [by injection Hj as -> | by apply IHg].
Qed.

Section VerifyFp.
Variable random : nat -> Q.
(** What the library promises of [random.random()]. *)
Hypothesis random_range : forall k, (0 <= random k)%Q /\ (random k < 1)%Q.

Lemma fill_spec (o : list string) (k i : nat) :
  exists o',
    fill random k i o = inr o' /\ length o' = length o /\
    forall j slot, o !! j = Some slot ->
      if String.eqb slot "" then
        exists c, o' !! j = Some (String c EmptyString) /\
                  char_in base_str c = true /\
                  ((i + j)%nat = 19%nat -> char_in "89AB" c = true)
      else o' !! j = Some slot.
Proof.
  revert k i. induction o as [|slot o IH]; intros k i; cbn [fill].
  - exists []. by split.
  - destruct (String.eqb slot "") eqn:Es.
    + destruct (random_range k) as [R0 R1].
      pose proof (py_int_scaled (random k) (Z.of_nat (String.length base_str)) R0 R1
                    ltac:(done)) as Hn.
      set (n := py_int _) in *.
      assert (0 <= (if (i =? 19)%nat then Z.lor (Z.land 3 n) 8 else n) < 62
              /\ ((i =? 19)%nat = true ->
                  8 <= (if (i =? 19)%nat then Z.lor (Z.land 3 n) 8 else n) <= 11))
        as [Hm H19].
      { destruct (i =? 19)%nat; [|by split].
        assert (Z.land 3 n = n mod 4) as ->.
        { rewrite Z.land_comm. apply (Z.land_ones n 2). lia. }
        pose proof (Z.mod_pos_bound n 4 ltac:(lia)) as Hb.
        assert (n mod 4 = 0 \/ n mod 4 = 1 \/ n mod 4 = 2 \/ n mod 4 = 3)
          as [-> | [-> | [-> | ->]]] by lia;
          match goal with
          | |- context [Z.lor ?a ?b] =>
              let v := eval vm_compute in (Z.lor a b) in change (Z.lor a b) with v
          end; lia. }
      destruct (str_index_in_range base_str _ Hm) as (c & -> & Hc).
      destruct (IH (S k) (S i)) as (o' & -> & Hl & Ho').
      exists (String c EmptyString :: o'). split; [done|]. split; [cbn; lia|].
      intros [|j] slot' Hj; cbn in Hj.
      * injection Hj as <-. rewrite Es. exists c. split; [done|].
        split; [by eapply get_char_in|].
        rewrite Nat.add_0_r. intros ->. specialize (H19 eq_refl). cbn in H19, Hc.
        revert Hc. generalize (Z.lor (Z.land 3 n) 8) H19. intros m Hm' Hc.
        assert (m = 8 \/ m = 9 \/ m = 10 \/ m = 11) as [-> | [-> | [-> | ->]]] by lia;
          cbn in Hc; by injection Hc as <-.
      * specialize (Ho' j slot' Hj). rewrite Nat.add_succ_r.
        by rewrite Nat.add_succ_l in Ho'.
    + destruct (IH k (S i)) as (o' & -> & Hl & Ho').
      exists (slot :: o'). split; [done|]. split; [cbn; lia|].
      intros [|j] slot' Hj; cbn in Hj.
      * injection Hj as <-. by rewrite Es.
      * specialize (Ho' j slot' Hj). rewrite Nat.add_succ_r.
        by rewrite Nat.add_succ_l in Ho'.
Qed.

(** X9: [gen_verify_fp] returns [verify_], the timestamp in base 36, an
    underscore, and 36 characters laid out as a version-4 identifier:
    underscores at the places 8, 13, 18 and 23, a 4 at place 14, one of
    8, 9, A, B at place 19, and at every other place one of the 62
    characters of the alphabet.  It never raises. *)
Theorem gen_verify_fp_shape (now : Q) :
  exists tail,
    gen_verify_fp random now
      = inr ("verify_" +:+ base36 (py_round (now * 1000)) +:+ "_" +:+ tail) /\
    String.length tail = 36%nat /\
    String.substring 8 1 tail = "_" /\ String.substring 13 1 tail = "_" /\
    String.substring 18 1 tail = "_" /\ String.substring 23 1 tail = "_" /\
    String.substring 14 1 tail = "4" /\
    (exists c, String.get 19 tail = Some c /\ char_in "89AB" c = true) /\
    forall j c, String.get j tail = Some c ->
                j ∉ [8; 13; 14; 18; 23]%nat -> char_in base_str c = true.
Proof.
  unfold gen_verify_fp. destruct (fill_spec o_init 0 0) as (o & -> & Hl & Ho).
  exists (String.concat "" o). split; [done|].
  assert (forall j slot, o_init !! j = Some slot ->
            exists c, o !! j = Some (String c EmptyString) /\
                      (String.eqb slot "" = false -> slot = String c EmptyString) /\
                      (String.eqb slot "" = true -> char_in base_str c = true /\
                         (j = 19%nat -> char_in "89AB" c = true))) as Hslots.
  { intros j slot Hj. specialize (Ho j slot Hj).
    destruct (String.eqb slot "") eqn:Es.
    - destruct Ho as (c & Hc & Hb & H19). exists c. by repeat split.
    - assert (j < 36)%nat as Hj36 by (apply lookup_lt_Some in Hj; cbn in Hj; lia).
      assert (exists c, slot = String c EmptyString) as [c ->].
      { revert Hj Es. clear -Hj36.
        do 36 (destruct j as [|j]; [cbn; intros [= <-]; (done || by eexists)|]). lia. }
      exists c. by repeat split. }
  assert (Forall single o) as Hsingle.
  { apply Forall_lookup. intros j slot Hj.
    destruct (lookup_lt_is_Some_2 o_init j) as [slot0 Hs0].
    { apply lookup_lt_Some in Hj. lia. }
    destruct (Hslots j slot0 Hs0) as (c & Hc & _). rewrite Hc in Hj.
    injection Hj as <-. by exists c. }
  destruct (concat_single o Hsingle) as [Hlen Hget].
  assert (forall j slot c, o_init !! j = Some slot -> String.eqb slot "" = false ->
            slot = String c EmptyString ->
            String.substring j 1 (String.concat "" o) = String c EmptyString) as Hfixed.
  { intros j slot c Hj Es ->. destruct (Hslots j _ Hj) as (c' & Hc' & Hf & _).
    specialize (Hf Es). injection Hf as <-. by apply substring_one, Hget. }
  split; [by rewrite Hlen, Hl|].
  split; [by eapply (Hfixed 8%nat)|]. split; [by eapply (Hfixed 13%nat)|].
  split; [by eapply (Hfixed 18%nat)|]. split; [by eapply (Hfixed 23%nat)|].
  split; [by eapply (Hfixed 14%nat)|].
  split.
  - destruct (Hslots 19%nat "" eq_refl) as (c & Hc & _ & Hr).
    exists c. split; [by apply Hget|]. by apply Hr.
  - intros j c Hj Hnot.
    assert (j < 36)%nat as Hj36.
    { apply string_get_lt in Hj. rewrite Hlen, Hl in Hj. exact Hj. }
    destruct (lookup_lt_is_Some_2 o_init j) as [slot0 Hs0]; [done|].
    destruct (Hslots j slot0 Hs0) as (c' & Hc' & _ & Hr).
    rewrite (Hget j c' Hc') in Hj. injection Hj as <-.
    apply Hr. revert Hs0 Hnot. clear -Hj36.
    do 36 (destruct j as [|j];
           [cbn; intros [= <-] Hnot; first [done | exfalso; apply Hnot; set_solver]|]).
    lia.
Qed.
End VerifyFp.

(** *** [get_web_id] *)

Lemma remove_dashes_app (a b : string) :
  remove_dashes (a +:+ b) = remove_dashes a +:+ remove_dashes b.
Proof.
  induction a as [|c a IH]; [done|].
  change (String c a +:+ b) with (String c (a +:+ b)).
  cbn [remove_dashes]. destruct (_ =? 45)%nat; [done|].
  change (String c (remove_dashes a) +:+ remove_dashes b)
    with (String c (remove_dashes a +:+ remove_dashes b)).
  by rewrite IH.
Qed.

Lemma remove_dashes_digits (d : string) :
  all_chars is_digit d = true -> remove_dashes d = d.
Proof.
  induction d as [|c d IH]; cbn; [done|]. intros [Hc Hd]%andb_true_iff.
  destruct (_ =? 45)%nat eqn:E.
  - apply Nat.eqb_eq in E. unfold is_digit in Hc. rewrite E in Hc. done.
  - by rewrite IH.
Qed.

Lemma remove_dashes_all (s : string) :
  all_chars (fun c => is_digit c || (Ascii.nat_of_ascii c =? 45)%nat) s = true ->
  all_chars is_digit (remove_dashes s) = true.
Proof.
  induction s as [|c s IH]; cbn; [done|]. intros [Hc Hs]%andb_true_iff.
  destruct (_ =? 45)%nat eqn:E; [by apply IH|].
  cbn. rewrite orb_false_r in Hc. by rewrite Hc, IH.
Qed.

Lemma substring_prefix P (n : nat) (s : string) :
  (n <= String.length s)%nat -> all_chars P s = true ->
  String.length (String.substring 0 n s) = n /\
  all_chars P (String.substring 0 n s) = true.
Proof.
  revert s. induction n as [|n IH]; intros s Hn Hs.
  - by destruct s.
  - destruct s as [|c s]; cbn in *; [lia|].
    apply andb_true_iff in Hs as [Hc Hs].
    destruct (IH s ltac:(lia) Hs) as [Hl Ha]. by rewrite Hl, Hc, Ha.
Qed.

Section WebId.
Variable random : nat -> Q.
Hypothesis random_range : forall k, (0 <= random k)%Q /\ (random k < 1)%Q.

Lemma e_digits (k : nat) (t : Z) :
  t = 0 \/ t = 1 \/ t = 8 ->
  all_chars is_digit (e (random k) t) = true /\
  (1 <= String.length (e (random k) t))%nat.
Proof.
  intros Ht. unfold e. destruct (random_range k) as [R0 R1].
  assert (0 <= py_int (16 * random k) < 16) as Hn.
  { assert (0 <= 16 * random k)%Q by lra. assert (16 * random k < 16)%Q by lra.
    rewrite py_int_floor by done. split.
    - by apply (le_floor 0).
    - apply Z.lt_nge. intros G%le_floor. change (inject_Z 16) with 16%Q in G. lra. }
  revert Hn. generalize (py_int (16 * random k)). intros n Hn.
  assert (n = Z.of_nat (Z.to_nat n)) as -> by lia.
  assert (Z.to_nat n < 16)%nat as Hlt by lia. revert Hlt.
  generalize (Z.to_nat n). clear -Ht. intros m Hm.
  do 16 (destruct m as [|m];
         [destruct Ht as [-> | [-> | ->]];
          (split; [by vm_compute | vm_compute; lia])|]).
  lia.
Qed.

Lemma in_018 (x : Ascii.ascii) :
  contains (String x EmptyString) "018" = true ->
  digit_value x = 0 \/ digit_value x = 1 \/ digit_value x = 8.
Proof.
  cbn. repeat (destruct (Ascii.ascii_dec x _) as [->|?]; [by vm_compute; eauto|]).
  done.
Qed.

Lemma web_id_pieces_spec (template : string) (k : nat) :
  all_chars (fun c => is_digit c || (Ascii.nat_of_ascii c =? 45)%nat) template = true ->
  all_chars (fun c => is_digit c || (Ascii.nat_of_ascii c =? 45)%nat)
            (web_id_pieces random k template) = true /\
  (String.length (remove_dashes template)
   <= String.length (remove_dashes (web_id_pieces random k template)))%nat.
Proof.
  revert k. induction template as [|x rest IH]; intros k; [done|].
  cbn [all_chars web_id_pieces]. intros [Hx Hrest]%andb_true_iff.
  destruct (contains (String x EmptyString) "018") eqn:E.
  - destruct (e_digits k (digit_value x) (in_018 x E)) as [Hd Hl].
    destruct (IH (S k) Hrest) as [Ha Hlen].
    rewrite all_chars_app, remove_dashes_app, string_length_app.
    rewrite (remove_dashes_digits _ Hd). split.
    + rewrite Ha, andb_true_r. clear -Hd.
      induction (e (random k) (digit_value x)) as [|c d IHd]; [done|].
      cbn in *. apply andb_true_iff in Hd as [-> Hd]. by rewrite IHd.
    + cbn [remove_dashes]. destruct (_ =? 45)%nat; cbn; lia.
  - destruct (IH k Hrest) as [Ha Hlen]. cbn [all_chars remove_dashes].
    rewrite Hx, Ha. split; [done|].
    destruct (_ =? 45)%nat; cbn; lia.
Qed.

(** X10: [get_web_id] returns 19 decimal digits, whatever the random
    draws. *)
Theorem get_web_id_digits :
  String.length (get_web_id random) = 19%nat /\
  all_chars is_digit (get_web_id random) = true.
Proof.
  unfold get_web_id.
  destruct (web_id_pieces_spec e_None 0 eq_refl) as [Ha Hlen].
  apply substring_prefix.
  - etransitivity; [|exact Hlen]. vm_compute. lia.
  - by apply remove_dashes_all.
Qed.
End WebId.

Lemma get_random_str_length_witness :
  exists s, utils.get_random_str (fun _ a _ => a) 3 = inr s /\ String.length s = 3%nat.
Proof.
  destruct (get_random_str_length (fun _ a _ => a)) with (random_len := 3)
    as (s & H & Hs & _).
  - intros. lia.
  - exists s. split; [exact H | exact Hs].
Defined.


Lemma gen_verify_fp_shape_witness :
  exists tail,
    gen_verify_fp (fun _ => 0%Q) 1
      = inr ("verify_" +:+ base36 (py_round (1 * 1000)) +:+ "_" +:+ tail) /\
    String.length tail = 36%nat.
Proof.
  destruct (gen_verify_fp_shape (fun _ => 0%Q)) with (now := 1%Q)
    as (tail & H & Hl & _).
  - intros _. split; by vm_compute.
  - exists tail. split; [exact H | exact Hl].
Defined.

Lemma base36_round_trip_witness :
  base36 1700000000000 = "loyw3v28" /\ base36_value "loyw3v28" = Some 1700000000000.
Proof.
  destruct (base36_round_trip 1700000000000) as [H _]; [by vm_compute|].
  split; [reflexivity|]. exact H.
Defined.

Lemma get_web_id_digits_witness :
  String.length (get_web_id (fun _ => 1 # 2)) = 19%nat.
Proof.
  apply (get_web_id_digits (fun _ => 1 # 2)). intros _. split; by vm_compute.
Defined.
End help_facts.

(** ** The number of the next file *)

Module douyin_store_impl_facts.
Import douyin_store_impl.

Lemma foldl_max_ge (n : Z) (ns : list Z) :
  n <= foldl Z.max n ns /\ Forall (fun m => m <= foldl Z.max n ns) ns.
Proof.
  revert n. induction ns as [|m ns IH]; intros n; cbn; [by split|].
  destruct (IH (Z.max n m)) as [H1 H2]. split; [lia|].
  constructor; [lia | done].
Qed.

Lemma decimal_value_nonneg (s : string) (acc : Z) :
  all_chars is_digit s = true -> 0 <= acc -> 0 <= decimal_value acc s.
Proof.
  revert acc. induction s as [|c s IH]; intros acc Hs Hacc; cbn in *; [done|].
  apply andb_true_iff in Hs as [Hc Hs]. apply IH; [done|].
  unfold is_digit in Hc. apply andb_true_iff in Hc as [Hc _].
  apply Nat.leb_le in Hc. lia.
Qed.

Lemma plain_number_spec (name : string) :
  plain_number name = true -> isdigit (before_underscore name) = true ->
  all_chars is_digit (before_underscore name) = true /\
  (4300 <? Z.of_nat (String.length (before_underscore name))) = false.
Proof.
  unfold plain_number. intros H E. rewrite E in H. cbn in H.
  apply andb_true_iff in H as [H1 H2]. split; [done|]. lia.
Qed.

Lemma numbers_spec (file_names : list string) :
  Forall (fun name => plain_number name = true) file_names ->
  exists ns,
    numbers file_names = inr ns /\
    Forall (fun n => 0 <= n) ns /\
    forall name, name ∈ file_names -> isdigit (before_underscore name) = true ->
                 decimal_value 0 (before_underscore name) ∈ ns.
Proof.
  induction 1 as [|name rest Hname Hrest (ns & IH & Hpos & Hin)]; cbn [numbers].
  - exists []. split; [done|]. split; [constructor|]. by intros ? ?%elem_of_nil.
  - destruct (isdigit (before_underscore name)) eqn:E.
    + destruct (plain_number_spec _ Hname E) as [Hd Hl]. unfold int_of.
      rewrite Hd, Hl, IH.
      eexists. split; [done|]. split.
      * constructor; [|done]. by apply decimal_value_nonneg.
      * intros name' [->|Hn]%elem_of_cons Hd'; [by left|]. right. by apply Hin.
    + exists ns. split; [done|]. split; [done|].
      intros name' [->|Hn]%elem_of_cons Hd; [congruence|]. by apply Hin.
Qed.

(** X11: in a store path whose file names have, before their first
    underscore, either nothing that [isdigit] accepts or a decimal number of
    at most 4300 digits, [calculate_number_of_files] returns a number that
    is at least 1 and greater than the number at the head of every file
    there: the files of a new run do not take the number of an older
    run. *)
Theorem calculate_number_of_files_fresh (file_names : list string) :
  Forall (fun name => plain_number name = true) file_names ->
  exists n,
    calculate_number_of_files (Names file_names) = inr n /\ 1 <= n /\
    forall name, name ∈ file_names -> isdigit (before_underscore name) = true ->
                 decimal_value 0 (before_underscore name) < n.
Proof.
  intros H. destruct (numbers_spec file_names H) as (ns & Hns & Hpos & Hin).
  unfold calculate_number_of_files. cbn [path_exists negb listdir]. rewrite Hns.
  destruct ns as [|m ns]; cbn [py_max].
  - exists 1. split; [done|]. split; [done|].
    intros name Hn Hd. by apply Hin, elem_of_nil in Hd.
  - destruct (foldl_max_ge m ns) as [Hm Hrest].
    exists (foldl Z.max m ns + 1). split; [done|].
    apply Forall_cons in Hpos as [Hm0 _]. split; [lia|].
    intros name Hn Hd. apply Hin in Hd; [|done].
    apply elem_of_cons in Hd as [->|Hd]; [lia|].
    rewrite Forall_forall in Hrest. specialize (Hrest _ Hd). lia.
Qed.

Lemma calculate_number_of_files_fresh_witness :
  exists n,
    calculate_number_of_files (Names ["3_search_contents.csv"; "notes.txt"]) = inr n /\
    1 <= n.
Proof.
  destruct (calculate_number_of_files_fresh ["3_search_contents.csv"; "notes.txt"])
    as (n & H & Hn & _).
  - repeat (constructor; [reflexivity|]). constructor.
  - exists n. split; [exact H | exact Hn].
Defined.


End douyin_store_impl_facts.

(** ** The download address of a video *)

Module extractor_facts.
Import extractor.

(** X13: the first of the three address lists that is not empty decides
    alone.  When the h264 list of a video holds a single address,
    [_extract_video_download_url] returns the empty string, whatever the two
    other lists hold: the longer lists behind it are not looked at. *)
Theorem single_h264_address_hides_the_others
    (aweme_detail video h264 : list (string * Json)) (u url_256_list url_list : Json) :
  dict_get "video" aweme_detail = Some (JDict video) ->
  dict_get "play_addr_h264" video = Some (JDict h264) ->
  dict_get "url_list" h264 = Some (JList [u]) ->
  url_list_of "play_addr_256" (JDict video) = inr url_256_list ->
  url_list_of "play_addr" (JDict video) = inr url_list ->
  _extract_video_download_url (JDict aweme_detail) = inr (JStr "").
Proof.
  intros Hv Hh Hu Hm Hp. unfold _extract_video_download_url.
  assert (get_or "video" (JDict []) (JDict aweme_detail) = inr (JDict video)) as ->.
  { unfold get_or. cbn [json_get]. by rewrite Hv. }
  assert (url_list_of "play_addr_h264" (JDict video) = inr (JList [u])) as ->.
  { unfold url_list_of, get_or. cbn [json_get]. rewrite Hh. cbn -[dict_get].
    by rewrite Hu. }
  by rewrite Hm, Hp.
Qed.

Lemma single_h264_address_hides_the_others_witness :
  _extract_video_download_url one_h264_address = inr (JStr "").
Proof.
  eapply (single_h264_address_hides_the_others _ _ _ (JStr "https://v/h264")).
  - reflexivity.
  - reflexivity.
  - reflexivity.
  - reflexivity.
  - reflexivity.
Defined.
End extractor_facts.

(** ** The stores of credentials and of endpoints *)

Section PoolFacts.
Variable env : Env.

Lemma accepted_row_cells (row : XlsxRow) (account_id : Z) :
  accepted_row row = true ->
  exists id account_name,
    read_cell account_id (row_id row) = Some id /\
    read_cell "" (row_account_name row) = Some account_name /\
    read_cell "" (row_cookies row) = Some (cookies_of_row row).
Proof.
  unfold accepted_row, cookies_of_row.
  destruct (row_id row), (row_account_name row), (row_cookies row); cbn; try done;
    intros _; by eexists _, _.
Qed.

Lemma refused_row_cells (row : XlsxRow) (account_id : Z) :
  accepted_row row = false ->
  match read_cell account_id (row_id row), read_cell "" (row_account_name row),
        read_cell "" (row_cookies row) with
  | Some _, Some _, Some _ => False
  | _, _, _ => True
  end.
Proof.
  unfold accepted_row.
  by destruct (row_id row), (row_account_name row), (row_cookies row).
Qed.

Lemma load_rows_spec (rows : list XlsxRow) (account_id : Z) (s : State) :
  forallb accepted_row rows = true ->
  exists s' fresh,
    load_rows rows account_id s = (Ok tt, s') /\
    accounts s' = accounts s ++ fresh /\
    _account_list s' = _account_list s ++ seq (length (accounts s)) (length rows) /\
    (field.cookies <$> fresh) = (cookies_of_row <$> rows) /\
    Forall (fun acc => field.status acc = field.value NORMAL) fresh /\
    xlsx s' = xlsx s /\ _account_save_type s' = _account_save_type s /\
    trace s' = trace s.
Proof.
  revert account_id s. induction rows as [|row rows IH]; intros account_id s Hrows.
  - exists s, []. cbn. rewrite !app_nil_r. by repeat split.
  - cbn [forallb] in Hrows. apply andb_true_iff in Hrows as [Hrow Hrows].
    destruct (accepted_row_cells row account_id Hrow) as (id & name & Hid & Hname & Hck).
    cbn [load_rows]. cbv [mbind M_bind gets]. rewrite Hid, Hname, Hck.
    cbv [mbind M_bind gets add_account modify].
    match goal with |- context [load_rows rows ?i ?s1] =>
      destruct (IH i s1 Hrows)
        as (s' & fresh & Hrun & Hacc & Hl & Hc & Hn & Hx & Ht & Htr)
    end.
    destruct s. cbn in *.
    eexists s', (_ :: fresh). rewrite Hrun. split; [done|].
    rewrite Hacc, Hl, <- !app_assoc, length_app. cbn.
    rewrite Nat.add_1_r. split; [done|]. split; [done|].
    split; [by rewrite Hc|]. split; [by constructor|]. done.
Qed.

Lemma load_rows_refused (before after : list XlsxRow) (row : XlsxRow) (account_id : Z)
    (s : State) :
  forallb accepted_row before = true -> accepted_row row = false ->
  exists s' fresh,
    load_rows (before ++ row :: after) account_id s
      = (Raise (ValidationError "validation error for AccountInfoModel"), s') /\
    accounts s' = accounts s ++ fresh /\
    _account_list s' = _account_list s ++ seq (length (accounts s)) (length before).
Proof.
  revert account_id s. induction before as [|first before IH]; intros account_id s Hb Hrow.
  - exists s, []. cbn [app load_rows]. cbv [mbind M_bind gets].
    pose proof (refused_row_cells row account_id Hrow) as Hcells.
    rewrite !app_nil_r. split; [|done].
    destruct (read_cell account_id (row_id row)),
             (read_cell "" (row_account_name row)),
             (read_cell "" (row_cookies row)); done.
  - cbn [forallb] in Hb. apply andb_true_iff in Hb as [Hfirst Hb].
    destruct (accepted_row_cells first account_id Hfirst) as (id & name & Hid & Hname & Hck).
    cbn [app load_rows]. cbv [mbind M_bind gets]. rewrite Hid, Hname, Hck.
    cbv [mbind M_bind gets add_account modify].
    match goal with |- context [load_rows _ ?i ?s1] =>
      destruct (IH i s1 Hb Hrow) as (s' & fresh & Hrun & Hacc & Hl)
    end.
    destruct s. cbn in *.
    eexists s', (_ :: fresh). rewrite Hrun. split; [done|].
    rewrite Hacc, Hl, <- !app_assoc, length_app. cbn.
    by rewrite Nat.add_1_r.
Qed.

(** X14: with a readable workbook, [get_active_account] over a list that
    has a NORMAL credential returns it without reading the workbook.  Over a
    list without one it reads the workbook again.  When the constructor of
    the credential accepts every row and there is a row, the call returns
    a credential of the new list whose status is NORMAL: a new object made
    from the first row, with that row's cookie, the earlier objects staying
    as they were, so that the invalidations, which are in memory, do not
    outlast the reload.  When the constructor refuses a row, an empty cell
    or a value of another type, the call raises pydantic's error, the list
    holding the credentials of the rows before that one. *)
Theorem reload_revives_credentials (s : State) (rows : list XlsxRow) :
  _account_save_type s = EXCEL_ACCOUNT_SAVE ->
  xlsx s = Some rows ->
  (forall a, first_normal s = Some a ->
     get_active_account s = (Ok a, s) /\ is_normal s a = true /\ a ∈ _account_list s) /\
  (first_normal s = None -> rows <> [] -> forallb accepted_row rows = true ->
   exists s',
     get_active_account s = (Ok (length (accounts s)), s') /\
     is_normal s' (length (accounts s)) = true /\
     length (accounts s) ∈ _account_list s' /\
     (field.cookies <$> accounts s' !! length (accounts s)) = (cookies_of_row <$> head rows) /\
     take (length (accounts s)) (accounts s') = accounts s /\
     length (_account_list s') = length rows) /\
  (first_normal s = None ->
   forall before row after,
     rows = before ++ row :: after ->
     forallb accepted_row before = true -> accepted_row row = false ->
     exists s',
       get_active_account s
         = (Raise (ValidationError "validation error for AccountInfoModel"), s') /\
       length (_account_list s') = length before /\
       take (length (accounts s)) (accounts s') = accounts s).
Proof.
  intros Ht Hx.
  assert (first_normal s = None ->
          exists s1,
            get_active_account s =
              (_ ← load_rows rows 1; found ← gets first_normal;
               match found with
               | Some a => mret a
               | None => raise (Exception_ "账号池中没有可用的账号")
               end) s1 /\
            accounts s1 = accounts s /\ _account_list s1 = []) as Hreload.
  { intros E. unfold get_active_account. cbv [mbind M_bind gets]. rewrite E.
    unfold _reload_accounts. cbv [mbind M_bind gets modify].
    assert (_account_save_type (set_account_list [] s) = EXCEL_ACCOUNT_SAVE) as ->
      by (by destruct s).
    change (String.eqb EXCEL_ACCOUNT_SAVE EXCEL_ACCOUNT_SAVE) with true.
    cbv iota. unfold load_accounts_from_xlsx. cbv [mbind M_bind gets emit modify].
    set (s1 := set_trace _ _).
    assert (xlsx s1 = Some rows) as -> by (by destruct s).
    exists s1. split; [|by destruct s].
    by destruct (load_rows rows 1 s1) as [[[]| |] ?]. }
  split; [|split].
  - intros a E. unfold get_active_account. cbv [mbind M_bind gets]. rewrite E.
    split; [done|]. unfold first_normal in E.
    apply find_some in E as [Hin Hn]. split; [done|]. by apply list_elem_of_In.
  - intros E Hne Hrows. destruct (Hreload E) as (s1 & -> & Ha1 & Hl1).
    destruct (load_rows_spec rows 1 s1 Hrows)
      as (s' & fresh & Hrun & Hacc & Hl & Hc & Hn & _).
    cbv [mbind M_bind gets]. rewrite Hrun.
    rewrite Ha1 in Hacc, Hl. rewrite Hl1 in Hl. cbn in Hl.
    destruct rows as [|row rows]; [done|]. cbn in Hl.
    destruct fresh as [|acc fresh]; [done|]. cbn in Hc.
    apply Forall_cons in Hn as [Hn _].
    assert (accounts s' !! length (accounts s) = Some acc) as Hlook.
    { rewrite Hacc. by rewrite lookup_app_r, Nat.sub_diag by lia. }
    assert (is_normal s' (length (accounts s)) = true) as Hnormal.
    { unfold is_normal. rewrite Hlook, Hn. apply Z.eqb_refl. }
    assert (first_normal s' = Some (length (accounts s))) as ->.
    { unfold first_normal. rewrite Hl. cbn [List.find]. by rewrite Hnormal. }
    exists s'. split; [done|]. split; [done|].
    split; [rewrite Hl; by left|].
    split; [rewrite Hlook; cbn; congruence|].
    split; [by rewrite Hacc, take_app_length|].
    rewrite Hl. cbn. by rewrite length_seq.
  - intros E before row after -> Hb Hrow. destruct (Hreload E) as (s1 & -> & Ha1 & Hl1).
    destruct (load_rows_refused before after row 1 s1 Hb Hrow)
      as (s' & fresh & Hrun & Hacc & Hl).
    cbv [mbind M_bind]. rewrite Hrun. exists s'. split; [done|].
    rewrite Hl, Hl1, Hacc, Ha1. cbn. rewrite length_seq.
    split; [done|]. by rewrite take_app_length.
Qed.
End PoolFacts.

Lemma reload_revives_credentials_witness :
  (exists s',
     get_active_account all_invalidated = (Ok 2%nat, s') /\ is_normal s' 2%nat = true) /\
  (exists s',
     get_active_account all_invalidated_empty_cell
       = (Raise (ValidationError "validation error for AccountInfoModel"), s') /\
     length (_account_list s') = 1%nat).
Proof.
  split.
  - destruct (reload_revives_credentials all_invalidated sheet_ab) as (_ & Hgood & _).
    + reflexivity.
    + reflexivity.
    + destruct Hgood as (s' & Hrun & Hn & _).
      * reflexivity.
      * discriminate.
      * reflexivity.
      * exists s'. split; [exact Hrun | exact Hn].
  - destruct (reload_revives_credentials all_invalidated_empty_cell sheet_with_empty_cell)
      as (_ & _ & Hbad).
    + reflexivity.
    + reflexivity.
    + destruct (Hbad eq_refl [{| row_id := Accepted 1; row_account_name := Accepted "a";
                                row_cookies := Accepted "sessionid=a" |}]
                  {| row_id := Accepted 2; row_account_name := Accepted "b";
                     row_cookies := Refused |} [])
        as (s' & Hrun & Hlen & _).
      * reflexivity.
      * reflexivity.
      * reflexivity.
      * exists s'. split; [exact Hrun | exact Hlen].
Defined.

(** ** The signer's budget *)

Section SignBudget.
Variable env : Env.

Lemma js_sign_attempt_spent (req : DouyinSignRequest) (w : Q) (s : State) :
  spent 0 w s (snd (js_sign_attempt env req s)) /\
  fst (js_sign_attempt env req s) <> OutOfFuel.
Proof.
  unfold js_sign_attempt. cbv [mbind M_bind gets emit modify].
  assert (forall s0 : State,
            spent 0 w s (set_trace (trace s ++ [EvJsCall (query_params req) (user_agent req)]) s))
    as Hs.
  { intros _. eexists. split; [by destruct s|]. split; [done|]. split; [done|].
    destruct s; cbn. change (inject_Z (Z.of_nat 0)) with 0%Q. lra. }
  destruct (get_abogus env _ _ _); cbn; (split; [by apply Hs | done]).
Qed.

Lemma sleep_spent (w : Q) (s : State) :
  exists s', sleep w s = (Ok tt, s') /\ trace s' = trace s ++ [EvSleep w] /\
             clock s' = (clock s + w)%Q.
Proof. eexists. split; [reflexivity|]. by destruct s. Qed.

Lemma retry_loop_spent (req : DouyinSignRequest) (w : Q) (more : nat) (s : State) :
  let run := retry_loop more w (js_sign_attempt env req) s in
  fst run <> OutOfFuel /\
  exists k, (k <= more)%nat /\ spent k w s (snd run) /\
    forall e, fst run = Raise e -> is_Exception e = true ->
              k = more /\ is_RetryError e = true.
Proof.
  revert s. induction more as [|more IH]; intros s; cbn [retry_loop].
  - destruct (js_sign_attempt_spent req w s) as [Hs Hf].
    destruct (js_sign_attempt env req s) as [[a|e|] s1]; cbn in *; [| |done].
    + split; [done|]. exists 0%nat. split; [lia|]. split; [done|]. by intros.
    + destruct (is_Exception e) eqn:E; cbn.
      * split; [done|]. exists 0%nat. split; [lia|]. split; [done|].
        intros ? [= <-] _. by split.
      * split; [done|]. exists 0%nat. split; [lia|]. split; [done|].
        intros ? [= <-] ?. congruence.
  - destruct (js_sign_attempt_spent req w s) as [Hs Hf].
    destruct (js_sign_attempt env req s) as [[a|e|] s1]; cbn in *; [| |done].
    + split; [done|]. exists 0%nat. split; [lia|]. split; [done|]. by intros.
    + destruct (is_Exception e) eqn:E; cbn.
      * destruct (sleep_spent w s1) as (s2 & Hsl & Ht2 & Hc2).
        cbv [mbind M_bind]. rewrite Hsl.
        destruct (IH s2) as (Hne & k & Hk & (evs & Ht & Hj & Hp & Hc) & Hraise).
        split; [done|]. exists (S k). split; [lia|]. split.
        { destruct Hs as (evs1 & Ht1 & Hj1 & Hp1 & Hc1).
          exists (evs1 ++ [EvSleep w] ++ evs).
          rewrite Ht, Ht2, Ht1, <- !app_assoc. split; [done|].
          rewrite !count_events_app, Hj1, Hp1, Hj, Hp. split; [done|]. split; [done|].
          rewrite Hc, Hc2, Hc1. rewrite Nat2Z.inj_succ, <- Z.add_1_r, inject_Z_plus.
          change (inject_Z (Z.of_nat 0)) with 0%Q. change (inject_Z 1) with 1%Q.
          remember (inject_Z (Z.of_nat k)) as n. lra. }
        intros e' He' HE. destruct (Hraise e' He' HE) as [-> ?]. by split.
      * split; [done|]. exists 0%nat. split; [lia|]. split; [done|].
        intros ? [= <-] ?. congruence.
Qed.

(** X16: [sign] calls the JavaScript function at least once and at most
    six times, with at most four pauses of half a second, which are all the
    time it takes; it raises an [Exception] only after the sixth call, and
    what it raises then is tenacity's [RetryError]. *)
Theorem sign_gives_up_after_six_calls (req_data : DouyinSignRequest) (s : State) :
  let run := sign env req_data s in
  let calls := count_events is_js_call (new_events s (snd run)) in
  let pauses := count_events is_sleep (new_events s (snd run)) in
  (1 <= calls <= 6)%nat /\ (pauses <= 4)%nat /\
  (clock (snd run) == clock s + inject_Z (Z.of_nat pauses) * (1 # 2))%Q /\
  fst run <> OutOfFuel /\
  forall e, fst run = Raise e -> is_Exception e = true ->
            calls = 6%nat /\ pauses = 4%nat /\ is_RetryError e = true.
Proof.
  cbv zeta. unfold sign, DouyinJavascriptSign_sign, retry, try_except. cbn [Nat.pred].
  pose proof (retry_loop_spent req_data (1 # 2) 2) as Hround. cbv zeta in Hround.
  set (round := retry_loop 2 (1 # 2) (js_sign_attempt env req_data)) in *.
  clearbody round.
  destruct (Hround s) as (Hne & k & Hk & (evs & Ht & Hj & Hp & Hc) & Hraise).
  destruct (round s) as [[a|e|] s1]; cbn in *; [| |done].
  - rewrite (new_events_app _ _ _ Ht), Hj, Hp.
    split; [lia|]. split; [lia|]. split; [done|]. split; [done|]. by intros.
  - destruct e; cbn;
      try (rewrite (new_events_app _ _ _ Ht), Hj, Hp;
           split; [lia|]; split; [lia|]; split; [done|]; split; [done|];
           intros ? [= <-] HE; by destruct (Hraise _ eq_refl HE)).
    destruct (Hraise _ eq_refl eq_refl) as [-> _].
    destruct (Hround s1) as (Hne2 & k2 & Hk2 & (evs2 & Ht2 & Hj2 & Hp2 & Hc2) & Hraise2).
    destruct (round s1) as [r2 s2].
    cbn in *. rewrite Ht, <- app_assoc in Ht2.
    rewrite (new_events_app _ _ _ Ht2), !count_events_app, Hj, Hp, Hj2, Hp2.
    split; [lia|]. split; [lia|]. split.
    { rewrite Hc2, Hc, Nat2Z.inj_add, inject_Z_plus.
      remember (inject_Z (Z.of_nat k2)) as n. change (inject_Z (Z.of_nat 2)) with 2%Q. lra. }
    split; [done|]. intros e' He' HE.
    destruct (Hraise2 e' He' HE) as [-> ?]. by repeat split.
Qed.
End SignBudget.

(** ** Endpoints leave the pool when they are handed out *)




(** ** What [request] lets through *)

Lemma prefix_app_l (a b m : string) :
  String.prefix (a +:+ b) m = true -> String.prefix a m = true.
Proof.
  revert m. induction a as [|c a IH]; intros m; [by destruct m|].
  destruct m as [|c' m]; [done|].
  change (String c a +:+ b) with (String c (a +:+ b)). cbn.
  destruct (Ascii.ascii_dec c c'); [apply IH | done].
Qed.

Lemma prefix_contains (a m : string) : String.prefix a m = true -> contains a m = true.
Proof. intros H. destruct m; cbn [contains]; by rewrite H. Qed.

Lemma prefix_self_app (a b : string) : String.prefix a (a +:+ b) = true.
Proof.
  induction a as [|c a IH]; [by destruct b|].
  change (String c a +:+ b) with (String c (a +:+ b)). cbn.
  by destruct (Ascii.ascii_dec c c).
Qed.

Section Classification.
Variable env : Env.

Lemma read_response_outcomes (response : HttpResponse) (s : State) :
  snd (read_response env response s) = s /\
  match fst (read_response env response s) with
  | Ok (JsonData j) =>
      text response <> "" /\ text response <> "blocked" /\ json response = Some j /\
      exists found, json_get "status_code" j = Some found /\
        Forall (fun code => json_eq_int (default (JInt 0) found) code = false)
               [8; 10007; 10008]
  | Ok (RawResponse _) => False
  | Raise e =>
      e = Exception_ "account blocked" \/ e = Exception_ "account not logged in" \/
      (exists m, e = Exception_ ("account error: " +:+ m)) \/
      (exists m, e = DataFetchError m) \/
      e = AttributeError "object has no attribute 'get'"
  | OutOfFuel => False
  end.
Proof.
  unfold read_response.
  destruct (String.eqb (text response) "") eqn:E1; [cbn; by auto|].
  destruct (String.eqb (text response) "blocked") eqn:E2; [cbn; by auto|]. cbn [orb].
  apply String.eqb_neq in E1, E2.
  destruct (json response) as [j|]; [|cbn; by eauto 10].
  destruct (json_get "status_code" j) as [found|] eqn:Ef; [|cbn; by eauto 10].
  cbv zeta. destruct (json_eq_int (default (JInt 0) found) 8) eqn:E8; [cbn; by auto|].
  destruct (negb (json_eq_int (default (JInt 0) found) 0) &&
            negb (json_eq_int (default (JInt 0) found) 1)) eqn:E01.
  - cbn [existsb]. rewrite E8. cbn [orb].
    destruct (json_eq_int (default (JInt 0) found) 10007) eqn:E7; [cbn; by eauto 10|].
    destruct (json_eq_int (default (JInt 0) found) 10008) eqn:E9; [cbn; by eauto 10|].
    cbn. split; [done|]. repeat split; try done. exists found. split; [done|].
    by repeat constructor.
  - cbn. split; [done|]. repeat split; try done. exists found. split; [done|].
    apply andb_false_iff in E01.
    assert (json_eq_int (default (JInt 0) found) 10007 = false /\
            json_eq_int (default (JInt 0) found) 10008 = false) as [E7 E9].
    { destruct (default (JInt 0) found) as [| [] | z | | |]; cbn in *; try done;
        destruct E01 as [E|E]; apply negb_false_iff in E; split; lia. }
    by repeat constructor.
Qed.

(** X17: what one attempt of [request] makes of a response, where the
    caller did not ask for the response itself.  The state is left as it
    was.  A document is returned only for a 200 whose text is neither empty
    nor the word blocked, and its [status_code] is none of 8, 10007 and
    10008.  Everything else is raised, as an [Exception] with one of four
    messages or as a [DataFetchError]; an [Exception] that says account
    error never leaves [request]. *)
Theorem interpret_response_outcomes (headers : option Headers) (response : HttpResponse)
    (s : State) :
  let run := interpret_response env
               {| kw_headers := headers; kw_return_response := false |} response s in
  snd run = s /\
  match fst run with
  | Ok (JsonData j) =>
      status_code response = 200 /\
      text response <> "" /\ text response <> "blocked" /\ json response = Some j /\
      exists found, json_get "status_code" j = Some found /\
        Forall (fun code => json_eq_int (default (JInt 0) found) code = false)
               [8; 10007; 10008]
  | Ok (RawResponse _) => False
  | Raise (Exception_ m) =>
      m ∈ ["account unauthorized"; "account blocked"; "rate limited";
           "account not logged in"]
  | Raise (DataFetchError _) => True
  | Raise _ => False
  | OutOfFuel => False
  end.
Proof.
  intros run. subst run. unfold interpret_response. cbn [kw_return_response].
  destruct (status_code response =? 401) eqn:E401; [cbn; split; [done|set_solver]|].
  destruct (status_code response =? 403) eqn:E403; [cbn; split; [done|set_solver]|].
  destruct (status_code response =? 429) eqn:E429; [cbn; split; [done|set_solver]|].
  destruct (status_code response =? 200) eqn:E200; cbn [negb]; [|done].
  apply Z.eqb_eq in E200. unfold try_except.
  destruct (read_response_outcomes response s) as [Hs Hout].
  destruct (read_response env response s) as [[[r|j]|e|] s1]; cbn in *; subst; try done.
  destruct Hout as [-> | [-> | [[m ->] | [[m ->] | ->]]]]; cbn; try done;
    try (split; [done|set_solver]).
  destruct (_ || _); cbn; by split.
Qed.

Lemma account_error_related (m : string) :
  String.prefix "account error" m = true -> is_account_related m = true.
Proof.
  intros H. unfold is_account_related, account_related_errors. cbn [existsb].
  rewrite (prefix_contains "account error" m H). by rewrite !orb_true_r.
Qed.

(** X18: an answer whose [status_code] is 10007 or 10008 makes the
    attempt raise a [DataFetchError] that carries the words account error
    and the [status_msg] of the answer: the [Exception] built for it is
    not in the list of messages that are raised again as they are.  [get]
    still takes the failure for one of the credential, since it looks for
    the words inside the message. *)
Theorem account_error_is_a_fetch_error (headers : option Headers) (response : HttpResponse)
    (document : list (string * Json)) (code : Z) (status_msg : string) (s : State) :
  status_code response = 200 ->
  text response <> "" -> text response <> "blocked" ->
  json response = Some (JDict document) ->
  dict_get "status_code" document = Some (JInt code) -> code = 10007 \/ code = 10008 ->
  dict_get "status_msg" document = Some (JStr status_msg) ->
  let raised := DataFetchError ("account error: " +:+ status_msg) in
  interpret_response env {| kw_headers := headers; kw_return_response := false |}
    response s = (Raise raised, s) /\
  is_account_related (str_exn raised) = true.
Proof.
  intros H200 Ht1 Ht2 Hj Hc Hcode Hm raised.
  split; [|subst raised; cbn [str_exn]; apply account_error_related, (prefix_app_l "account error" ": ");
           apply (prefix_self_app "account error: ")].
  unfold interpret_response. cbn [kw_return_response]. rewrite H200. cbn [Z.eqb Pos.eqb negb].
  unfold try_except, read_response.
  apply String.eqb_neq in Ht1, Ht2. rewrite Ht1, Ht2, Hj. cbn [orb json_get].
  rewrite Hc, Hm. cbn [default].
  destruct Hcode as [-> | ->]; cbn; by destruct status_msg.
Qed.
End Classification.

Lemma account_error_is_a_fetch_error_witness :
  interpret_response quiet no_kwargs refused_answer bound_process =
  (Raise (DataFetchError "account error: login expired"), bound_process).
Proof.
  apply (account_error_is_a_fetch_error quiet None refused_answer
           [("status_code", JInt 10008); ("status_msg", JStr "login expired")]
           10008 "login expired" bound_process).
  - reflexivity.
  - discriminate.
  - discriminate.
  - reflexivity.
  - reflexivity.
  - right. reflexivity.
  - reflexivity.
Defined.

(** ** How long a purchased endpoint is used *)

(** X19: an endpoint that [get_proxies] bought at time [t], sold as valid
    for [valid] seconds, counts as expired from four seconds before the end
    of its validity at the latest, and never earlier than five seconds
    before it: the margin [DELTA_EXPIRED_SECOND] loses up to a second to the
    two truncations of the clock. *)
Theorem purchased_endpoint_margin (env : Env) (num : Z) (s s' : State)
    (l : list IpInfoModel) (p : IpInfoModel) :
  (0 <= clock s)%Q ->
  get_proxies env num s = (Ok l, s') -> p ∈ l ->
  exists sold valid,
    getdps env (count_events is_get_proxies (trace s)) num = KdlProxies sold /\
    (ip p, port p, valid) ∈ sold /\
    expired_time_ts p = valid + get_unix_timestamp (clock s) - DELTA_EXPIRED_SECOND /\
    forall now, (0 <= now)%Q ->
      ((clock s + inject_Z valid - 4 <= now)%Q -> is_expired p now = true) /\
      ((now <= clock s + inject_Z valid - 5)%Q -> is_expired p now = false).
Proof.
  intros Hclock Hrun Hp. unfold get_proxies in Hrun.
  cbv [mbind M_bind gets emit modify] in Hrun.
  destruct (getdps env _ num) as [e|sold] eqn:Hsold; [done|].
  cbv [mret M_ret] in Hrun. injection Hrun as <- <-.
  apply list_elem_of_fmap in Hp as ([[i pt] valid] & -> & Hin).
  exists sold, valid. split; [done|]. split; [done|]. split; [done|].
  intros now Hnow. unfold is_expired, get_unix_timestamp, DELTA_EXPIRED_SECOND. cbn.
  rewrite !py_int_floor by done.
  pose proof (Qfloor_le (clock s)) as Hlo. pose proof (Qlt_floor (clock s)) as Hhi.
  pose proof (Qfloor_le now) as Hlo'. pose proof (Qlt_floor now) as Hhi'.
  rewrite inject_Z_plus in Hhi, Hhi'. change (inject_Z 1) with 1%Q in *.
  set (t := Qfloor (clock s)) in *. set (n := Qfloor now) in *.
  split; intros H.
  - apply Z.ltb_lt.
    assert (inject_Z (valid + t - 5) < inject_Z n)%Q as Hlt; [|by rewrite <- Zlt_Qlt in Hlt].
    assert (inject_Z (valid + t - 4) <= now)%Q as Hle.
    { unfold Z.sub. rewrite !inject_Z_plus. change (inject_Z (Z.opp 4)) with (Qopp 4).
      cbn zeta in *. clearbody t n.
      remember (inject_Z valid) as v in *. remember (inject_Z t) as t' in *.
      remember (inject_Z n) as n' in *. remember (clock s) as c in *. lra. }
    apply le_floor in Hle. fold n in Hle. rewrite <- Zlt_Qlt. lia.
  - apply Z.ltb_ge.
    assert (inject_Z n < inject_Z (valid + t - 4))%Q as Hlt.
    { unfold Z.sub. rewrite !inject_Z_plus. change (inject_Z (Z.opp 4)) with (Qopp 4).
      clearbody t n.
      remember (inject_Z valid) as v in *. remember (inject_Z t) as t' in *.
      remember (inject_Z n) as n' in *. remember (clock s) as c in *. lra. }
    rewrite <- Zlt_Qlt in Hlt. lia.
Qed.

Lemma purchased_endpoint_margin_witness :
  is_expired (endpoint "10.0.0.1" 55) 56 = true /\
  is_expired (endpoint "10.0.0.1" 55) 55 = false.
Proof.
  destruct (purchased_endpoint_margin quiet 2 fresh_process
              (snd (get_proxies quiet 2 fresh_process))
              [endpoint "10.0.0.1" 55; endpoint "10.0.0.2" 55] (endpoint "10.0.0.1" 55))
    as (sold & valid & Hsold & Hin & Hts & H).
  - by vm_compute.
  - reflexivity.
  - by left.
  - assert (valid = 60) as ->.
    { change (55 = valid + 0 - 5) in Hts. lia. }
    split.
    + apply (H 56%Q); by vm_compute.
    + apply (H 55%Q); by vm_compute.
Defined.

(** ** Cookie strings and counters *)

Module crawler_util_facts.
Import crawler_util.

Lemma split_on_length (sep : Ascii.ascii) (s : string) :
  length (split_on sep s) = S (occurrences sep s).
Proof.
  induction s as [|c s IH]; [done|]. cbn.
  destruct (Ascii.eqb c sep); cbn; [by rewrite IH|].
  destruct (split_on sep s); cbn in *; lia.
Qed.

Lemma split_on_none (sep : Ascii.ascii) (s : string) :
  occurrences sep s = 0%nat -> split_on sep s = [s].
Proof.
  induction s as [|c s IH]; [done|]. cbn.
  destruct (Ascii.eqb c sep); [done|]. cbn. intros H. by rewrite IH.
Qed.

Lemma split_on_app (sep : Ascii.ascii) (a b : string) :
  occurrences sep a = 0%nat ->
  split_on sep (a +:+ String sep b) = a :: split_on sep b.
Proof.
  induction a as [|c a IH].
  - intros _. change ("" +:+ String sep b) with (String sep b). cbn.
    by rewrite Ascii.eqb_refl.
  - change (String c a +:+ String sep b) with (String c (a +:+ String sep b)). cbn.
    destruct (Ascii.eqb c sep); [done|]. cbn. intros H. by rewrite IH.
Qed.

Lemma split_on_join (sep : Ascii.ascii) (a b : string) :
  split_on sep (a +:+ String sep b) = split_on sep a ++ split_on sep b.
Proof.
  induction a as [|c a IH].
  - change ("" +:+ String sep b) with (String sep b). cbn.
    by rewrite Ascii.eqb_refl.
  - change (String c a +:+ String sep b) with (String c (a +:+ String sep b)). cbn.
    destruct (Ascii.eqb c sep); [by rewrite IH|]. rewrite IH.
    pose proof (split_on_length sep a). by destruct (split_on sep a).
Qed.

Lemma occurrences_app (c : Ascii.ascii) (a b : string) :
  occurrences c (a +:+ b) = (occurrences c a + occurrences c b)%nat.
Proof.
  induction a as [|c' a IH]; [done|].
  change (String c' a +:+ b) with (String c' (a +:+ b)). cbn. rewrite IH. lia.
Qed.

Lemma occurrences_lstrip (c : Ascii.ascii) (s : string) :
  py_isspace c = false -> occurrences c (py_lstrip s) = occurrences c s.
Proof.
  intros Hc. induction s as [|c' s IH]; [done|]. cbn.
  destruct (py_isspace c') eqn:E; [|done]. rewrite IH.
  destruct (Ascii.eqb_spec c' c) as [->|]; [congruence | done].
Qed.

Lemma occurrences_rstrip (c : Ascii.ascii) (s : string) :
  py_isspace c = false -> occurrences c (py_rstrip s) = occurrences c s.
Proof.
  intros Hc. induction s as [|c' s IH]; [done|]. cbn.
  destruct (py_rstrip s) as [|k kept] eqn:E.
  - rewrite <- IH. destruct (py_isspace c') eqn:Es; cbn; [|lia].
    destruct (Ascii.eqb_spec c' c) as [->|]; [congruence | done].
  - cbn in *. lia.
Qed.

Lemma occurrences_strip (c : Ascii.ascii) (s : string) :
  py_isspace c = false -> occurrences c (py_strip s) = occurrences c s.
Proof.
  intros Hc. unfold py_strip. by rewrite occurrences_rstrip, occurrences_lstrip.
Qed.

Lemma cookie_loop_app (l1 l2 : list string) (d : list (string * string)) :
  cookie_loop (l1 ++ l2) d = cookie_loop l2 (cookie_loop l1 d).
Proof.
  revert d. induction l1 as [|cookie l1 IH]; intros d; [done|]. cbn.
  repeat case_match; by rewrite IH.
Qed.

Lemma cookie_loop_skip (piece : string) (d : list (string * string)) :
  occurrences equals_sign piece <> 1%nat -> cookie_loop [piece] d = d.
Proof.
  intros H. cbn. destruct (String.eqb (py_strip piece) ""); [done|].
  rewrite split_on_length, occurrences_strip by done.
  destruct (Z.eqb_spec (Z.of_nat (S (occurrences equals_sign piece))) 2); [lia | done].
Qed.

(** X20: a piece of the cookie string that holds no equals sign, or more
    than one, is left out of the dictionary, name and value: a cookie whose
    value is padded with equals signs is lost without notice. *)
Theorem cookie_with_equals_in_value_is_dropped (before piece after : string) :
  occurrences semicolon piece = 0%nat ->
  occurrences equals_sign piece <> 1%nat ->
  convert_str_cookie_to_dict (before +:+ ";" +:+ piece +:+ ";" +:+ after) =
  convert_str_cookie_to_dict (before +:+ ";" +:+ after).
Proof.
  intros Hs He. unfold convert_str_cookie_to_dict.
  assert (forall a b, String.eqb (a +:+ ";" +:+ b) "" = false) as Hne.
  { intros a b. by destruct a. }
  rewrite !Hne.
  change (before +:+ ";" +:+ piece +:+ ";" +:+ after)
    with (before +:+ String semicolon (piece +:+ String semicolon after)).
  change (before +:+ ";" +:+ after) with (before +:+ String semicolon after).
  rewrite !split_on_join, (split_on_none semicolon piece Hs).
  rewrite !cookie_loop_app. by rewrite cookie_loop_skip.
Qed.

Lemma cookie_with_equals_in_value_is_dropped_witness :
  convert_str_cookie_to_dict "a=1;token=YWJj==;b=2" = convert_str_cookie_to_dict "a=1;b=2".
Proof.
  apply (cookie_with_equals_in_value_is_dropped "a=1" "token=YWJj==" "b=2").
  - reflexivity.
  - vm_compute. lia.
Defined.

Lemma lstrip_kept (name rest : string) :
  py_lstrip name = name ->
  py_lstrip (name +:+ String equals_sign rest) = name +:+ String equals_sign rest.
Proof.
  destruct name as [|c name]; [done|].
  change (String c name +:+ String equals_sign rest)
    with (String c (name +:+ String equals_sign rest)).
  cbn. destruct (py_isspace c) eqn:E; [|done]. intros H. exfalso.
  assert (forall s, String.length (py_lstrip s) <= String.length s)%nat as Hlen.
  { induction s as [|c' s IH]; [done|]. cbn. destruct (py_isspace c'); cbn; lia. }
  specialize (Hlen name). rewrite H in Hlen. cbn in Hlen. lia.
Qed.

Lemma rstrip_kept (front value : string) :
  py_rstrip value = value ->
  py_rstrip (front +:+ String equals_sign value) = front +:+ String equals_sign value.
Proof.
  intros H. induction front as [|c front IH].
  - change ("" +:+ String equals_sign value) with (String equals_sign value).
    cbn. rewrite H. by destruct value.
  - change (String c front +:+ String equals_sign value)
      with (String c (front +:+ String equals_sign value)).
    cbn. rewrite IH. by destruct front.
Qed.

Lemma cookie_loop_pair (space name value : string) (rest : list string)
    (d : list (string * string)) :
  plain_pair (name, value) = true -> space = "" \/ space = " " ->
  cookie_loop ((space +:+ name +:+ "=" +:+ value) :: rest) d =
  cookie_loop rest (dict_set name value d).
Proof.
  unfold plain_pair. cbn [fst snd]. intros H Hspace.
  repeat (apply andb_true_iff in H as [H ?]).
  repeat match goal with
         | H : (_ =? _)%nat = true |- _ => apply Nat.eqb_eq in H
         | H : String.eqb _ _ = true |- _ => apply String.eqb_eq in H
         end.
  assert (py_strip (space +:+ name +:+ "=" +:+ value) = name +:+ String equals_sign value)
    as Hstrip.
  { unfold py_strip.
    assert (py_lstrip (space +:+ name +:+ "=" +:+ value) =
            py_lstrip (name +:+ String equals_sign value)) as -> by (by destruct Hspace as [-> | ->]).
    rewrite lstrip_kept by done. by apply rstrip_kept. }
  cbn [cookie_loop]. rewrite Hstrip.
  assert (String.eqb (name +:+ String equals_sign value) "" = false) as -> by (by destruct name).
  rewrite split_on_app, (split_on_none equals_sign value) by done. done.
Qed.

Lemma split_header (pair : string * string) (pairs : list (string * string)) :
  Forall (fun pair => plain_pair pair = true) (pair :: pairs) ->
  split_on semicolon (cookie_header (pair :: pairs)) =
  (fst pair +:+ "=" +:+ snd pair)
    :: map (fun pair => " " +:+ fst pair +:+ "=" +:+ snd pair) pairs.
Proof.
  assert (forall p, plain_pair p = true ->
                    forall sp, occurrences semicolon sp = 0%nat ->
                    occurrences semicolon (sp +:+ fst p +:+ "=" +:+ snd p) = 0%nat) as Hocc.
  { intros p H sp Hsp. unfold plain_pair in H.
    repeat (apply andb_true_iff in H as [H ?]).
    repeat match goal with
           | H : (_ =? _)%nat = true |- _ => apply Nat.eqb_eq in H
           end.
    rewrite !occurrences_app.
    change (occurrences semicolon "=") with 0%nat. lia. }
  revert pair. induction pairs as [|next pairs IH]; intros pair Hall.
  - apply Forall_cons in Hall as [Hp _]. cbn.
    apply split_on_none. by apply (Hocc pair Hp "").
  - apply Forall_cons in Hall as [Hp Hall].
    change (cookie_header (pair :: next :: pairs))
      with ((fst pair +:+ "=" +:+ snd pair) +:+
            String semicolon (" " +:+ cookie_header (next :: pairs))).
    rewrite split_on_app by (by apply (Hocc pair Hp "")).
    f_equal. cbn [map].
    assert (forall s, split_on semicolon (" " +:+ s) =
                      match split_on semicolon s with
                      | [] => [" "]
                      | piece :: pieces => (" " +:+ piece) :: pieces
                      end) as -> by done.
    by rewrite (IH next Hall).
Qed.

(** X21: a cookie header written from plain pairs is read back pair by
    pair: [convert_str_cookie_to_dict] of the header is the dictionary the
    pairs build when they are assigned in their order, a later value for a
    name replacing the earlier one. *)
Theorem cookie_header_round_trip (pairs : list (string * string)) :
  Forall (fun pair => plain_pair pair = true) pairs ->
  convert_str_cookie_to_dict (cookie_header pairs) =
  foldl (fun d pair => dict_set (fst pair) (snd pair) d) [] pairs.
Proof.
  intros Hall. unfold convert_str_cookie_to_dict.
  destruct pairs as [|pair pairs]; [done|].
  assert (String.eqb (cookie_header (pair :: pairs)) "" = false) as ->.
  { unfold cookie_header. cbn [map String.concat].
    destruct pairs; destruct (fst pair); done. }
  rewrite split_header by done.
  apply Forall_cons in Hall as [Hp Hall].
  rewrite (cookie_loop_pair "" (fst pair) (snd pair)); [|by destruct pair|by left].
  cbn [foldl]. generalize (dict_set (fst pair) (snd pair) []).
  induction Hall as [|next pairs Hn Hall IH]; intros d; [done|].
  cbn [map foldl].
  rewrite (cookie_loop_pair " " (fst next) (snd next)); [|by destruct next|by right].
  apply IH.
Qed.

Lemma cookie_header_round_trip_witness :
  convert_str_cookie_to_dict (cookie_header [("sessionid", "a"); ("ttwid", "1|x"); ("sessionid", "b")])
  = [("sessionid", "b"); ("ttwid", "1|x")].
Proof.
  rewrite (cookie_header_round_trip [("sessionid", "a"); ("ttwid", "1|x"); ("sessionid", "b")]).
  - reflexivity.
  - repeat (constructor; [reflexivity|]). constructor.
Defined.

Lemma search_digits_skip (before s : string) :
  all_chars (fun c => negb (is_digit c)) before = true ->
  search_digits (before +:+ s) = search_digits s.
Proof.
  induction before as [|c before IH]; [done|]. cbn [all_chars].
  intros [Hc H]%andb_true_iff.
  change (String c before +:+ s) with (String c (before +:+ s)). cbn [search_digits].
  apply negb_true_iff in Hc. rewrite Hc. by apply IH.
Qed.

Lemma leading_digits_app (digits rest : string) :
  all_chars is_digit digits = true ->
  leading_digits (digits +:+ rest) = digits +:+ leading_digits rest.
Proof.
  induction digits as [|c digits IH]; [done|]. cbn [all_chars].
  intros [Hc H]%andb_true_iff.
  change (String c digits +:+ rest) with (String c (digits +:+ rest)).
  cbn [leading_digits]. rewrite Hc. by rewrite IH.
Qed.

Lemma append_empty_r (s : string) : s +:+ "" = s.
Proof.
  induction s as [|c s IH]; [done|].
  change (String c s +:+ "") with (String c (s +:+ "")). by rewrite IH.
Qed.

(** X22: [match_interact_info_count] reads the first run of decimal
    digits of the string, whatever stands before and after it, and returns
    its value: of a count written 1.2 with a unit behind, 1 is what comes
    back. *)
Theorem match_interact_info_count_first_run (before digits rest : string) :
  all_chars (fun c => negb (is_digit c)) before = true ->
  all_chars is_digit digits = true -> digits <> "" ->
  (String.length digits <= 4300)%nat ->
  leading_digits rest = "" ->
  match_interact_info_count (before +:+ digits +:+ rest) = inr (decimal_value 0 digits).
Proof.
  intros Hb Hd Hne Hlen Hrest. unfold match_interact_info_count.
  assert (String.eqb (before +:+ digits +:+ rest) "" = false) as ->.
  { destruct before; [|done]. by destruct digits. }
  rewrite search_digits_skip by done.
  destruct digits as [|c digits]; [done|].
  change (String c digits +:+ rest) with (String c (digits +:+ rest)).
  cbn [search_digits]. cbn [all_chars] in Hd. apply andb_true_iff in Hd as [Hc Hd].
  rewrite Hc. cbn [leading_digits]. rewrite Hc, leading_digits_app, Hrest, append_empty_r by done.
  unfold int_of. cbn [all_chars]. rewrite Hc, Hd. cbn [andb].
  by rewrite (proj2 (Z.ltb_ge _ _)) by lia.
Qed.

Lemma match_interact_info_count_first_run_witness :
  match_interact_info_count "1.2w" = inr 1.
Proof.
  apply (match_interact_info_count_first_run "" "1" ".2w").
  - reflexivity.
  - reflexivity.
  - discriminate.
  - vm_compute. lia.
  - reflexivity.
Defined.
End crawler_util_facts.

(** ** The empty workbook *)

Lemma empty_pool_is_fatal_witness :
  exists s',
    update_account_info quiet 1 empty_pool_process =
      (Raise (Exception_ "Failed to get valid account after maximum retries"), s') /\
    (acquisitions s' = acquisitions empty_pool_process + 10)%nat /\
    dispatches s' = dispatches empty_pool_process /\
    (count_events (is_pause 2) (trace s') = 9)%nat /\
    (clock s' == 18)%Q.
Proof.
  destruct (empty_pool_is_fatal quiet 1 empty_pool_process)
    as (s' & H & Ha & _ & Hd & Hp & Hc).
  - reflexivity.
  - reflexivity.
  - reflexivity.
  - exists s'. split; [exact H|]. split; [exact Ha|]. split; [exact Hd|].
    split; [exact Hp|]. rewrite Hc. reflexivity.
Defined.
